(** * nsh shell gateway: [cmd/shell/serve.go]

    A shallow embedding of [shell.Serve] and of the library functions it
    calls, followed by the properties of the gateway that are checked
    against it.

    Layout of the development:
    - [GoString]   byte strings, [strings.ToLower], decimal and hex digits;
    - [netip]      [net/netip]: [Addr], [AddrPort] and their [String] methods;
    - [allowedOrigins]  lines 52-68 of [Serve];
    - [Go]         errors, panics, [return], [defer] and blocked goroutines;
    - [http], [slog], [handler]  requests, response writers, log records,
                   handlers as statements over a response and a trace;
    - [cors]       [github.com/rs/cors]: [New], [OriginAllowed], [Handler];
    - [websocket]  [github.com/gorilla/websocket]: [Upgrader.Upgrade];
    - [middleware] the repository's [internal/middleware] package;
    - [mux]        [http.ServeMux], [http.StripPrefix], [http.Redirect];
    - [shell]      [Serve]: the handler of [/shell/ws], the router, the
                   start-up sequence, the signal watcher and the serve loop;
    - [sample], [policy], [inv], [loop]  concrete inputs and the vocabulary
                   of the properties;
    - the properties, by component.

    The packages [rs/cors], [gorilla/websocket], [net/http] and
    [net/netip] are embedded from their own sources, for the paths that
    [Serve] takes through them. *)

From Stdlib Require Import ZArith Lia Ascii String.
From stdpp Require Import base option list gmap strings.

Local Open Scope Z_scope.

(** ** Byte strings *)

Module GoString.

(** [digits] of [net/netip] and [strconv]: ["0123456789abcdef"]. *)
Definition digits : string := "0123456789abcdef".

(** [digits[i]]; indices stay below 16 at every call site. *)
Definition digit (i : Z) : ascii :=
  match String.get (Z.to_nat i) digits with
  | Some c => c
  | None => "0"%char
  end.

Definition char (c : ascii) : string := String c EmptyString.

(** [strconv.AppendUint(b, n, 10)] and the [%d] verb on an unsigned
    value: decimal digits, most significant first, no padding. *)
Fixpoint utoa_go (fuel : nat) (n : Z) (acc : string) : string :=
  match fuel with
  | O => acc
  | S fuel' =>
      let acc' := String (digit (n mod 10)) acc in
      if n / 10 =? 0 then acc' else utoa_go fuel' (n / 10) acc'
  end.

Definition utoa (n : Z) : string :=
  utoa_go (S (Z.to_nat (Z.log2 n))) n EmptyString.

(** A string of ASCII bytes: no byte is [utf8.RuneSelf] (128) or above. *)
Fixpoint isASCII (s : string) : bool :=
  match s with
  | EmptyString => true
  | String c s' => (nat_of_ascii c <? 128)%nat && isASCII s'
  end.

(** [strings.ToLower] on a string of ASCII bytes, the first branch of the
    Go function: ['A'..'Z'] is shifted to ['a'..'z'], every other byte is
    kept.  On a string with a byte of 128 or above Go maps
    [unicode.ToLower] over the runes instead; that branch is not
    embedded, and the properties that depend on the lower-casing of such
    a string are stated for [isASCII] strings. *)
Definition lower_byte (c : ascii) : ascii :=
  let n := nat_of_ascii c in
  if ((65 <=? n) && (n <=? 90))%nat then ascii_of_nat (n + 32) else c.

Fixpoint ToLower (s : string) : string :=
  match s with
  | EmptyString => EmptyString
  | String c s' => String (lower_byte c) (ToLower s')
  end.

(** [strings.HasPrefix] and [strings.HasSuffix]. *)
Definition HasPrefix (s p : string) : bool := String.prefix p s.

Definition HasSuffix (s p : string) : bool :=
  let n := String.length s in
  let k := String.length p in
  (k <=? n)%nat && String.eqb (String.substring (n - k) k s) p.

(** [strings.IndexByte]. *)
Fixpoint IndexByte (s : string) (c : ascii) : option nat :=
  match s with
  | EmptyString => None
  | String d s' =>
      if Ascii.eqb d c then Some O else S <$> IndexByte s' c
  end.

(** The slices [s[0:i]] and [s[i:]]. *)
Definition slice_to (i : nat) (s : string) : string := String.substring 0 i s.
Definition slice_from (i : nat) (s : string) : string :=
  String.substring i (String.length s - i) s.

(** [strings.TrimPrefix]. *)
Definition TrimPrefix (s p : string) : string :=
  if HasPrefix s p then slice_from (String.length p) s else s.

End GoString.

(** ** [net/netip] *)

Module netip.
Import GoString.

(** The [z] field of [netip.Addr]: the zero [Addr], an IPv4 address, an
    IPv6 address without zone, an IPv6 address with a zone. *)
Inductive Zone : Type :=
| z0
| z4
| z6noz
| z6zone (name : string).

(** [netip.Addr]: a 128-bit value as two 64-bit halves, and the zone.
    An IPv4 address is stored as the IPv4-mapped IPv6 address with
    [z = z4]. *)
Record Addr : Type := MkAddr { hi : Z; lo : Z; z : Zone }.

Record AddrPort : Type := MkAddrPort { ip : Addr; port : Z }.

Definition Is6 (a : Addr) : bool :=
  match z a with z0 | z4 => false | _ => true end.

Definition Is4In6 (a : Addr) : bool :=
  Is6 a && (hi a =? 0) && (Z.shiftr (lo a) 32 =? 65535).

(** [ip.v4(i)]: [uint8(ip.addr.lo >> ((3 - i) * 8))]. *)
Definition v4 (a : Addr) (i : Z) : Z :=
  Z.shiftr (lo a) ((3 - i) * 8) mod 256.

(** [ip.v6u16(i)]: [uint16(half >> ((3 - i%4) * 16))] with the high half
    for [i < 4] and the low half otherwise. *)
Definition v6u16 (a : Addr) (i : Z) : Z :=
  let half := if (i / 4) mod 2 =? 0 then hi a else lo a in
  Z.shiftr half ((3 - i mod 4) * 16) mod 65536.

(** [appendDecimal] for one byte. *)
Definition appendDecimal (b : string) (x : Z) : string :=
  let b := if 100 <=? x then b +:+ char (digit (x / 100)) else b in
  let b := if 10 <=? x then b +:+ char (digit (x / 10 mod 10)) else b in
  b +:+ char (digit (x mod 10)).

(** [appendHex] for one 16-bit group: lower case, no leading zeros. *)
Definition appendHex (b : string) (x : Z) : string :=
  let b := if 4096 <=? x then b +:+ char (digit (Z.shiftr x 12)) else b in
  let b := if 256 <=? x
           then b +:+ char (digit (Z.land (Z.shiftr x 8) 15)) else b in
  let b := if 16 <=? x
           then b +:+ char (digit (Z.land (Z.shiftr x 4) 15)) else b in
  b +:+ char (digit (Z.land x 15)).

Definition appendTo4 (ret : string) (a : Addr) : string :=
  let ret := appendDecimal ret (v4 a 0) +:+ "." in
  let ret := appendDecimal ret (v4 a 1) +:+ "." in
  let ret := appendDecimal ret (v4 a 2) +:+ "." in
  appendDecimal ret (v4 a 3).

Definition appendZone (ret : string) (a : Addr) : string :=
  match z a with
  | z6zone n => ret +:+ "%" +:+ n
  | _ => ret
  end.

Definition appendTo4In6 (ret : string) (a : Addr) : string :=
  appendZone (appendTo4 (ret +:+ "::ffff:") a) a.

(** The inner loop of [appendTo6]: starting at [j], the first index at
    which the group is not zero (or 8). *)
Fixpoint zero_run_end (a : Addr) (fuel : nat) (j : Z) : Z :=
  match fuel with
  | O => j
  | S fuel' =>
      if (j <? 8) && (v6u16 a j =? 0)
      then zero_run_end a fuel' (j + 1)
      else j
  end.

(** The first loop of [appendTo6]: the longest run of at least two zero
    groups, the leftmost one on a tie; [(255, 255)] when there is none. *)
Fixpoint longest_zero_run (a : Addr) (fuel : nat) (i : Z) (zs ze : Z)
  : Z * Z :=
  match fuel with
  | O => (zs, ze)
  | S fuel' =>
      let j := zero_run_end a 8 i in
      let l := j - i in
      if (2 <=? l) && (ze - zs <? l)
      then longest_zero_run a fuel' (i + 1) i j
      else longest_zero_run a fuel' (i + 1) zs ze
  end.

(** The second loop of [appendTo6]. *)
Fixpoint append_groups (a : Addr) (fuel : nat) (i : Z) (zs ze : Z)
  (ret : string) : string :=
  match fuel with
  | O => ret
  | S fuel' =>
      if 8 <=? i then ret
      else if i =? zs then
        let ret := ret +:+ "::" in
        if 8 <=? ze then ret
        else append_groups a fuel' (ze + 1) zs ze (appendHex ret (v6u16 a ze))
      else
        let ret := if 0 <? i then ret +:+ ":" else ret in
        append_groups a fuel' (i + 1) zs ze (appendHex ret (v6u16 a i))
  end.

Definition appendTo6 (ret : string) (a : Addr) : string :=
  let '(zs, ze) := longest_zero_run a 8 0 255 255 in
  appendZone (append_groups a 8 0 zs ze ret) a.

(** [Addr.String]. *)
Definition Addr_String (a : Addr) : string :=
  match z a with
  | z0 => "invalid IP"
  | z4 => appendTo4 EmptyString a
  | _ =>
      if Is4In6 a then appendTo4In6 EmptyString a
      else appendTo6 EmptyString a
  end.

(** [AddrPort.String]. *)
Definition AddrPort_String (p : AddrPort) : string :=
  match z (ip p) with
  | z0 => "invalid AddrPort"
  | z4 => appendTo4 EmptyString (ip p) +:+ ":" +:+ utoa (port p)
  | _ =>
      let b :=
        if Is4In6 (ip p) then appendTo4In6 "[" (ip p)
        else appendTo6 "[" (ip p) in
      b +:+ "]" +:+ ":" +:+ utoa (port p)
  end.

(** [netip.AddrFrom4] and [netip.AddrFrom16] on groups, for examples. *)
Definition AddrFrom4 (a b c d : Z) : Addr :=
  MkAddr 0 (Z.lor (Z.shiftl 65535 32)
              (Z.lor (Z.shiftl a 24)
                 (Z.lor (Z.shiftl b 16) (Z.lor (Z.shiftl c 8) d)))) z4.

Definition half_of (g0 g1 g2 g3 : Z) : Z :=
  Z.lor (Z.shiftl g0 48)
    (Z.lor (Z.shiftl g1 32) (Z.lor (Z.shiftl g2 16) g3)).

Definition AddrFrom16 (g0 g1 g2 g3 g4 g5 g6 g7 : Z) : Addr :=
  MkAddr (half_of g0 g1 g2 g3) (half_of g4 g5 g6 g7) z6noz.

End netip.

(** ** The allowed origins, [Serve] lines 52-68 *)

(** [fmt.Sprintf("http://%s", x)]. *)
Definition http_origin (host : string) : string := "http://" +:+ host.

(** [fmt.Sprintf("http://%s:%d", host, port)]. *)
Definition http_origin_port (host : string) (port : Z) : string :=
  "http://" +:+ host +:+ ":" +:+ GoString.utoa port.

Definition allowedOrigins (lisAddrPort : netip.AddrPort) (hostname : string)
  : list string :=
  let allowedOrigins :=
    [ http_origin (netip.Addr_String (netip.ip lisAddrPort));
      http_origin (netip.AddrPort_String lisAddrPort) ] in
  if bool_decide (hostname ≠ EmptyString)
  then allowedOrigins ++
         [ http_origin hostname;
           http_origin_port hostname (netip.port lisAddrPort) ]
  else allowedOrigins.

(** The scenario of the specification: [100.64.0.1:80], [router.example]. *)
Definition scenario_addr : netip.AddrPort :=
  netip.MkAddrPort (netip.AddrFrom4 100 64 0 1) 80.

(** ** Go control flow: errors, panics, [return] and [defer] *)

Module Go.

(** Error values.  [ErrServerClosed] is the sentinel [http.ErrServerClosed];
    [ErrNew] is any other leaf error ([errors.New], errors of the
    collaborators); [ErrWrap] is [fmt.Errorf(prefix + ": %w", inner)]. *)
Inductive error : Type :=
| ErrServerClosed
| ErrNew (msg : string)
| ErrWrap (prefix : string) (inner : error).

(** [err.Error()]. *)
Fixpoint Error (e : error) : string :=
  match e with
  | ErrServerClosed => "http: Server closed"
  | ErrNew msg => msg
  | ErrWrap prefix inner => prefix +:+ ": " +:+ Error inner
  end.

(** [errors.Is(err, http.ErrServerClosed)]: the sentinel is compared by
    identity along the [Unwrap] chain, so an [ErrNew] with the same text
    is not the sentinel. *)
Fixpoint Is_ErrServerClosed (e : error) : bool :=
  match e with
  | ErrServerClosed => true
  | ErrNew _ => false
  | ErrWrap _ inner => Is_ErrServerClosed inner
  end.

Inductive PanicValue : Type :=
| PanicString (s : string)
| PanicError (e : error).

(** How a statement ends: it falls through with a value, it executes
    [return r], it panics, or it never ends (the goroutine stays blocked
    in it). *)
Inductive Res (R A : Type) : Type :=
| Val (a : A)
| Ret (r : R)
| Pan (v : PanicValue)
| Block.
Arguments Val {R A} a.
Arguments Ret {R A} r.
Arguments Pan {R A} v.
Arguments Block {R A}.

(** Statements over a state [S] in a function whose result type is [R]. *)
Definition M (S R A : Type) : Type := S -> Res R A * S.

Definition ret {S R A} (a : A) : M S R A := fun s => (Val a, s).

Definition bind {S R A B} (m : M S R A) (k : A -> M S R B) : M S R B :=
  fun s =>
    match m s with
    | (Val a, s') => k a s'
    | (Ret r, s') => (Ret r, s')
    | (Pan v, s') => (Pan v, s')
    | (Block, s') => (Block, s')
    end.

Definition Return {S R A} (r : R) : M S R A := fun s => (Ret r, s).
Definition panic {S R A} (v : PanicValue) : M S R A := fun s => (Pan v, s).
Definition block {S R A} : M S R A := fun s => (Block, s).
Definition get {S R} : M S R S := fun s => (Val s, s).
Definition modify {S R} (f : S -> S) : M S R unit := fun s => (Val tt, f s).

(** [defer d] followed by the rest of the function body: [d] runs when
    the rest is left, whether by falling off the end, by [return] or by a
    panic, and not while the rest is blocked; a panic of [d] replaces the
    outcome. *)
Definition defer {S R A} (d : M S R unit) (rest : M S R A) : M S R A :=
  fun s =>
    match rest s with
    | (Block, s1) => (Block, s1)
    | (res, s1) =>
        match d s1 with
        | (Pan v, s2) => (Pan v, s2)
        | (Block, s2) => (Block, s2)
        | (_, s2) => (res, s2)
        end
    end.

(** [defer func() { if v := recover(); v != nil { h(v) } }()] followed by
    the rest of the body: a panic of the rest is stopped and handed to
    [h]; the function then returns normally. *)
Definition defer_recover {S R} (h : PanicValue -> M S R unit)
  (rest : M S R unit) : M S R unit :=
  fun s =>
    match rest s with
    | (Pan v, s1) => h v s1
    | out => out
    end.

(** A call of a function with body [body] whose result is discarded (or
    that has none): [return] ends the callee only. *)
Definition call {S R R'} (body : M S R' unit) : M S R unit :=
  fun s =>
    match body s with
    | (Val _, s') | (Ret _, s') => (Val tt, s')
    | (Pan v, s') => (Pan v, s')
    | (Block, s') => (Block, s')
    end.

(** The result of a call of an external collaborator: it returns, it
    panics, or it does not come back. *)
Inductive CallRes (A : Type) : Type :=
| Returns (a : A)
| Panics (v : PanicValue)
| Blocks.
Arguments Returns {A} a.
Arguments Panics {A} v.
Arguments Blocks {A}.

Definition extern {S R A} (c : CallRes A) : M S R A :=
  match c with
  | Returns a => ret a
  | Panics v => panic v
  | Blocks => block
  end.

End Go.

Notation "x <- m ;; k" := (Go.bind m (fun x => k))
  (at level 62, m at next level, right associativity, only parsing).
Notation "m ;;; k" := (Go.bind m (fun _ => k))
  (at level 62, right associativity, only parsing).

(** ** [net/http] *)

Module http.
Import Go.

(** [http.Header] with canonical keys. *)
Abbreviation Header := (gmap string (list string)).

Definition Header_Get (h : Header) (key : string) : string :=
  match h !! key with
  | Some (v :: _) => v
  | _ => EmptyString
  end.

Definition Header_Values (h : Header) (key : string) : list string :=
  default [] (h !! key).

Definition Header_Set (key value : string) (h : Header) : Header :=
  <[key := [value]]> h.

Definition Header_Add (key value : string) (h : Header) : Header :=
  <[key := Header_Values h key ++ [value]]> h.

(** [*http.Request]: the fields the gateway and its libraries read.
    [Path] is [r.URL.Path], the decoded path; [RawPath] is
    [r.URL.RawPath], the path as it was sent when that is not the default
    encoding of [Path], and empty otherwise. *)
Record Request : Type := MkRequest {
  Method : string;
  Path : string;
  RHeader : Header;
  RemoteAddr : string;
  RawPath : string
}.

(** What the upgrader writes on a hijacked connection: the
    [101 Switching Protocols] reply, whose header lines are [Upgrade],
    [Connection], [Sec-WebSocket-Accept] (computed from the challenge
    key) and the lines of the [responseHeader] argument. *)
Record SwitchingProtocols : Type := MkSwitching {
  challengeKey : string;
  responseHeader : Header
}.

(** The state behind an [http.ResponseWriter]. *)
Record ResponseWriter : Type := MkWriter {
  header : Header;                 (* [w.Header()] *)
  wroteHeader : option (Z * Header); (* status and headers once sent *)
  body : list string;
  hijacked : bool;
  wire : list SwitchingProtocols;  (* written past the writer *)
  connClosed : nat     (* [Close] calls of the upgrader on the [net.Conn] *)
}.

Definition newWriter : ResponseWriter :=
  MkWriter ∅ None [] false [] 0.

Definition set_header (f : Header -> Header) (w : ResponseWriter)
  : ResponseWriter :=
  MkWriter (f (header w)) (wroteHeader w) (body w) (hijacked w) (wire w)
    (connClosed w).

(** [w.WriteHeader(code)]: nothing on a hijacked connection, nothing the
    second time; otherwise the status line goes out with a copy of the
    header map. *)
Definition WriteHeader (code : Z) (w : ResponseWriter) : ResponseWriter :=
  if hijacked w then w
  else match wroteHeader w with
       | Some _ => w
       | None =>
           MkWriter (header w) (Some (code, header w)) (body w) false
             (wire w) (connClosed w)
       end.

(** [w.Write(b)]: [ErrHijacked] on a hijacked connection; otherwise an
    implicit [WriteHeader(200)] if needed, then the bytes. *)
Definition Write (b : string) (w : ResponseWriter) : ResponseWriter :=
  if hijacked w then w
  else
    let w := WriteHeader 200 w in
    MkWriter (header w) (wroteHeader w) (body w ++ [b]) false (wire w)
      (connClosed w).

(** [http.StatusText] for the codes the gateway produces. *)
Definition StatusText (code : Z) : string :=
  if code =? 400 then "Bad Request"
  else if code =? 403 then "Forbidden"
  else if code =? 404 then "Not Found"
  else if code =? 405 then "Method Not Allowed"
  else if code =? 500 then "Internal Server Error"
  else if code =? 301 then "Moved Permanently"
  else EmptyString.

(** [http.Error(w, msg, code)]. *)
Definition Error (msg : string) (code : Z) (w : ResponseWriter)
  : ResponseWriter :=
  let w := set_header (Header_Set "Content-Type" "text/plain; charset=utf-8") w in
  let w := set_header (Header_Set "X-Content-Type-Options" "nosniff") w in
  Write (msg +:+ String (ascii_of_nat 10) EmptyString) (WriteHeader code w).

(** What the client has received once the handler is done: the reply
    written past the writer on a hijacked connection, or else the status
    and headers sent by [WriteHeader] (the server sends [200] with the
    header map when the handler wrote nothing). *)
Inductive Sent : Type :=
| SentHTTP (status : Z) (h : Header)
| SentRaw (replies : list SwitchingProtocols).

Definition sent (w : ResponseWriter) : Sent :=
  if hijacked w then SentRaw (wire w)
  else match wroteHeader w with
       | Some (code, h) => SentHTTP code h
       | None => SentHTTP 200 (header w)
       end.

(** The value of a header line of a [101] reply: a literal, or the
    accept key computed from the challenge key. *)
Inductive LineValue : Type :=
| Literal (s : string)
| AcceptKeyOf (challenge : string).

(** The header lines of a [101] reply written by the upgrader. *)
Definition switching_lines (p : SwitchingProtocols)
  : list (string * LineValue) :=
  [ ("Upgrade", Literal "websocket");
    ("Connection", Literal "Upgrade");
    ("Sec-WebSocket-Accept", AcceptKeyOf (challengeKey p)) ] ++
  flat_map (fun kv => map (fun v => (kv.1, Literal v)) kv.2)
    (map_to_list (responseHeader p)).

(** [carries s key value]: the reply the client received has the header
    line [key: value]. *)
Definition carries (s : Sent) (key value : string) : Prop :=
  match s with
  | SentHTTP _ h => h !! key = Some [value]
  | SentRaw ps =>
      ps ≠ [] ∧ Forall (fun p => (key, Literal value) ∈ switching_lines p) ps
  end.

End http.

(** ** [log/slog] *)

Module slog.

Inductive Level : Type := LevelDebug | LevelInfo | LevelError.

(** A log record: level, message and attributes (those of the logger
    first, then those of the call), values rendered as text. *)
Record Record_ : Type := MkRecord {
  level : Level;
  msg : string;
  attrs : list (string * string)
}.

(** A [*slog.Logger] is known by the attributes added with [With]. *)
Definition Logger : Type := list (string * string).

Definition With (l : Logger) (key value : string) : Logger :=
  l ++ [(key, value)].

Definition emit (l : Logger) (lv : Level) (m : string)
  (extra : list (string * string)) : Record_ :=
  MkRecord lv m (l ++ extra).

End slog.

(** ** Handlers *)

Module handler.
Import Go http.

(** [context.Context] values are told apart by a name. *)
Record Context : Type := MkContext { ctx_name : string }.

(** What the connection handler does to the session's resources. *)
Inductive Event : Type :=
| EvUpgraded                       (* [Upgrade] returned a [*websocket.Conn] *)
| EvNewHandler (ctx : Context)     (* [shell.NewHandler] returned a handler *)
| EvNewHandlerFailed (ctx : Context) (* [shell.NewHandler] returned an error *)
| EvWait                           (* [h.Wait()] was entered *)
| EvHandlerClose.                  (* [h.Close()] was called *)

(** The state a handler runs on: the response writer, the log, and the
    resource events, oldest first. *)
Record St : Type := MkSt {
  rw : ResponseWriter;
  logs : list slog.Record_;
  events : list Event
}.

Definition newSt : St := MkSt newWriter [] [].

(** [http.Handler]: [ServeHTTP(w, r)]. *)
Definition Handler : Type := Request -> M St unit unit.

Definition on_writer (f : ResponseWriter -> ResponseWriter) : M St unit unit :=
  modify (fun s => MkSt (f (rw s)) (logs s) (events s)).

Definition on_header (f : Header -> Header) : M St unit unit :=
  on_writer (set_header f).

Definition log (l : slog.Logger) (lv : slog.Level) (m : string)
  (extra : list (string * string)) : M St unit unit :=
  modify (fun s => MkSt (rw s) (logs s ++ [slog.emit l lv m extra]) (events s)).

Definition event (e : Event) : M St unit unit :=
  modify (fun s => MkSt (rw s) (logs s) (events s ++ [e])).

(** A handler that uses the response writer only. *)
Definition with_writer (h : Request -> M ResponseWriter unit unit) : Handler :=
  fun r s =>
    let '(res, w) := h r (rw s) in (res, MkSt w (logs s) (events s)).

(** The server calling [h.ServeHTTP(w, r)]: the outcome and the final
    state. *)
Definition run (h : Handler) (r : Request) (s : St) : Res unit unit * St :=
  call (h r) s.

End handler.

(** ** [github.com/rs/cors] *)

Module cors.
Import GoString Go http handler.

(** [cors.Options]; [Serve] sets [AllowedOrigins] and leaves every other
    field at its zero value. *)
Record Options : Type := MkOptions { AllowedOrigins : list string }.

(** [wildcard{prefix, suffix}]. *)
Record wildcard : Type := MkWildcard { wprefix : string; wsuffix : string }.

Definition wildcard_match (w : wildcard) (s : string) : bool :=
  (String.length (wprefix w) + String.length (wsuffix w) <=? String.length s)%nat
  && HasPrefix s (wprefix w) && HasSuffix s (wsuffix w).

(** [cors.Cors]: the fields that [New] derives from the options. *)
Record Cors : Type := MkCors {
  allowedOrigins : list string;
  allowedWOrigins : list wildcard;
  allowedOriginsAll : bool;
  allowedHeaders : list string;
  allowedHeadersAll : bool;
  allowedMethods : list string;
  exposedHeaders : list string;
  maxAge : Z;
  allowCredentials : bool;
  optionPassthrough : bool;
  optionsSuccessStatus : Z
}.

(** The loop of [New] over [options.AllowedOrigins]: every origin is
    lower-cased; ["*"] turns the list into match-all and stops; an origin
    with a ['*'] is split around the first one into a wildcard; any other
    origin is kept as it is. *)
Fixpoint normalize (origins : list string)
  (os : list string) (ws : list wildcard) : list string * list wildcard * bool :=
  match origins with
  | [] => (os, ws, false)
  | origin :: rest =>
      let origin := ToLower origin in
      if String.eqb origin "*" then ([], [], true)
      else match IndexByte origin "*" with
           | Some i =>
               let w := MkWildcard (slice_to i origin) (slice_from (S i) origin) in
               normalize rest os (ws ++ [w])
           | None => normalize rest (os ++ [origin]) ws
           end
  end.

(** [cors.New(options)]. *)
Definition New (options : Options) : Cors :=
  let '(os, ws, all) :=
    match AllowedOrigins options with
    | [] => ([], [], true)
    | origins => normalize origins [] []
    end in
  MkCors os ws all
    ["Origin"; "Accept"; "Content-Type"; "X-Requested-With"] false
    ["GET"; "POST"; "HEAD"] [] 0 false false 204.

(** [c.isOriginAllowed(r, origin)] without origin functions. *)
Definition isOriginAllowed (c : Cors) (origin : string) : bool :=
  if allowedOriginsAll c then true
  else
    let origin := ToLower origin in
    existsb (fun o => String.eqb o origin) (allowedOrigins c)
    || existsb (fun w => wildcard_match w origin) (allowedWOrigins c).

(** [c.OriginAllowed(r)]. *)
Definition OriginAllowed (c : Cors) (r : Request) : bool :=
  let origin := Header_Get (RHeader r) "Origin" in
  isOriginAllowed c origin.

(** [strings.ToUpper] on a string of ASCII bytes: ['a'..'z'] is shifted
    to ['A'..'Z'], every other byte is kept; the methods of the requests
    are ASCII tokens. *)
Definition upper_byte (c : ascii) : ascii :=
  let n := nat_of_ascii c in
  if ((97 <=? n) && (n <=? 122))%nat then ascii_of_nat (n - 32) else c.

Fixpoint ToUpper (s : string) : string :=
  match s with
  | EmptyString => EmptyString
  | String c s' => String (upper_byte c) (ToUpper s')
  end.

(** [c.isMethodAllowed(method)]. *)
Definition isMethodAllowed (c : Cors) (method : string) : bool :=
  match allowedMethods c with
  | [] => false
  | ms =>
      let method := ToUpper method in
      if String.eqb method "OPTIONS" then true
      else existsb (fun m => String.eqb m method) ms
  end.

(** [parseHeaderList]: the names of a comma or space separated list, in
    canonical case; bytes that cannot be part of a name are dropped. *)
Fixpoint parseHeaderList_go (s : string) (h : string) (upper : bool)
  (headers : list string) : list string :=
  match s with
  | EmptyString => headers
  | String b rest =>
      let n := nat_of_ascii b in
      let h :=
        if ((97 <=? n) && (n <=? 122))%nat then
          h +:+ char (if upper then ascii_of_nat (n - 32) else b)
        else if ((65 <=? n) && (n <=? 90))%nat then
          h +:+ char (if upper then b else ascii_of_nat (n + 32))
        else if (n =? 45)%nat || (n =? 95)%nat || (n =? 46)%nat
                || ((48 <=? n) && (n <=? 57))%nat then h +:+ char b
        else h in
      let last := match rest with EmptyString => true | _ => false end in
      if (n =? 32)%nat || (n =? 44)%nat || last then
        match h with
        | EmptyString => parseHeaderList_go rest h upper headers
        | _ => parseHeaderList_go rest EmptyString true (headers ++ [h])
        end
      else parseHeaderList_go rest h ((n =? 45)%nat || (n =? 95)%nat) headers
  end.

Definition parseHeaderList (headerList : string) : list string :=
  parseHeaderList_go headerList EmptyString true [].

(** [c.areHeadersAllowed(requestedHeaders)]; the names come out of
    [parseHeaderList] in canonical case already. *)
Definition areHeadersAllowed (c : Cors) (requestedHeaders : list string) : bool :=
  if allowedHeadersAll c then true
  else match requestedHeaders with
       | [] => true
       | _ =>
           forallb (fun header =>
                      existsb (fun h => String.eqb h header) (allowedHeaders c))
             requestedHeaders
       end.

(** [strings.Join(l, ", ")]. *)
Fixpoint Join (l : list string) : string :=
  match l with
  | [] => EmptyString
  | [x] => x
  | x :: rest => x +:+ ", " +:+ Join rest
  end.

Definition allowOriginValue (c : Cors) (origin : string) : string :=
  if allowedOriginsAll c then "*" else origin.

(** [c.handlePreflight(w, r)] on the header map. *)
Definition handlePreflight (c : Cors) (r : Request) (headers : Header) : Header :=
  let origin := Header_Get (RHeader r) "Origin" in
  if negb (String.eqb (Method r) "OPTIONS") then headers
  else
    let headers := Header_Add "Vary" "Origin" headers in
    let headers := Header_Add "Vary" "Access-Control-Request-Method" headers in
    let headers := Header_Add "Vary" "Access-Control-Request-Headers" headers in
    if String.eqb origin EmptyString then headers
    else if negb (isOriginAllowed c origin) then headers
    else
      let reqMethod := Header_Get (RHeader r) "Access-Control-Request-Method" in
      if negb (isMethodAllowed c reqMethod) then headers
      else
        let reqHeaders :=
          parseHeaderList (Header_Get (RHeader r) "Access-Control-Request-Headers") in
        if negb (areHeadersAllowed c reqHeaders) then headers
        else
          let headers :=
            Header_Set "Access-Control-Allow-Origin" (allowOriginValue c origin)
              headers in
          let headers :=
            Header_Set "Access-Control-Allow-Methods" (ToUpper reqMethod) headers in
          let headers :=
            match reqHeaders with
            | [] => headers
            | _ => Header_Set "Access-Control-Allow-Headers" (Join reqHeaders) headers
            end in
          let headers :=
            if allowCredentials c
            then Header_Set "Access-Control-Allow-Credentials" "true" headers
            else headers in
          if 0 <? maxAge c
          then Header_Set "Access-Control-Max-Age" (utoa (maxAge c)) headers
          else headers.

(** [c.handleActualRequest(w, r)] on the header map. *)
Definition handleActualRequest (c : Cors) (r : Request) (headers : Header) : Header :=
  let origin := Header_Get (RHeader r) "Origin" in
  let headers := Header_Add "Vary" "Origin" headers in
  if String.eqb origin EmptyString then headers
  else if negb (isOriginAllowed c origin) then headers
  else if negb (isMethodAllowed c (Method r)) then headers
  else
    let headers :=
      Header_Set "Access-Control-Allow-Origin" (allowOriginValue c origin) headers in
    let headers :=
      match exposedHeaders c with
      | [] => headers
      | hs => Header_Set "Access-Control-Expose-Headers" (Join hs) headers
      end in
    if allowCredentials c
    then Header_Set "Access-Control-Allow-Credentials" "true" headers
    else headers.

Definition isPreflight (r : Request) : bool :=
  String.eqb (Method r) "OPTIONS"
  && negb (String.eqb (Header_Get (RHeader r) "Access-Control-Request-Method")
             EmptyString).

(** [c.Handler(h)]: a preflight request is answered here and stops the
    chain; any other request gets its headers and goes on to [h]. *)
Definition Handler_ (c : Cors) (h : Handler) : Handler :=
  fun r =>
    if isPreflight r then
      on_header (handlePreflight c r) ;;;
      if optionPassthrough c then call (h r)
      else on_writer (WriteHeader (optionsSuccessStatus c))
    else
      on_header (handleActualRequest c r) ;;;
      call (h r).

End cors.

(** ** [github.com/gorilla/websocket] *)

Module websocket.
Import GoString Go http handler.

(** [isTokenOctet]: the token octets of RFC 2616. *)
Definition isTokenOctet (c : ascii) : bool :=
  let n := nat_of_ascii c in
  ((n =? 33) || ((35 <=? n) && (n <=? 39)) || (n =? 42) || (n =? 43)
   || (n =? 45) || (n =? 46) || ((48 <=? n) && (n <=? 57))
   || ((65 <=? n) && (n <=? 90)) || ((94 <=? n) && (n <=? 122))
   || (n =? 124) || (n =? 126))%nat.

(** [skipSpace]: leading spaces and tabs removed. *)
Fixpoint skipSpace (s : string) : string :=
  match s with
  | String c rest =>
      if ((nat_of_ascii c =? 32) || (nat_of_ascii c =? 9))%nat
      then skipSpace rest else s
  | EmptyString => s
  end.

(** [nextToken]: the leading token and what follows it. *)
Fixpoint nextToken (s : string) : string * string :=
  match s with
  | String c rest =>
      if isTokenOctet c
      then let '(t, r) := nextToken rest in (String c t, r)
      else (EmptyString, s)
  | EmptyString => (EmptyString, EmptyString)
  end.

(** [equalASCIIFold] on single-byte characters. *)
Definition equalASCIIFold (s t : string) : bool :=
  String.eqb (ToLower s) (ToLower t).

(** The inner loop of [tokenListContainsValue] over one header value:
    tokens separated by commas, compared with ASCII case folding. *)
Fixpoint tokens_contain (fuel : nat) (s value : string) : bool :=
  match fuel with
  | O => false
  | S fuel' =>
      let '(t, s) := nextToken (skipSpace s) in
      match t with
      | EmptyString => false
      | _ =>
          let s := skipSpace s in
          match s with
          | EmptyString => equalASCIIFold t value
          | String c rest =>
              if negb (Ascii.eqb c ","%char) then false
              else if equalASCIIFold t value then true
              else tokens_contain fuel' rest value
          end
      end
  end.

Definition tokenListContainsValue (h : Header) (name value : string) : bool :=
  existsb (fun s => tokens_contain (S (String.length s)) s value)
    (Header_Values h name).

(** The base64 alphabet of [base64.StdEncoding]. *)
Definition isBase64 (c : ascii) : bool :=
  let n := nat_of_ascii c in
  (((65 <=? n) && (n <=? 90)) || ((97 <=? n) && (n <=? 122))
   || ((48 <=? n) && (n <=? 57)) || (n =? 43) || (n =? 47))%nat.

Fixpoint string_forallb (f : ascii -> bool) (s : string) : bool :=
  match s with
  | EmptyString => true
  | String c rest => f c && string_forallb f rest
  end.

(** [isValidChallengeKey]: the key is the base64 encoding of 16 bytes,
    that is 22 characters of the alphabet followed by ["=="]. *)
Definition isValidChallengeKey (s : string) : bool :=
  (String.length s =? 24)%nat
  && string_forallb isBase64 (String.substring 0 22 s)
  && String.eqb (String.substring 22 2 s) "==".

(** [websocket.Upgrader]; [Serve] sets [CheckOrigin] only. *)
Record Upgrader : Type := MkUpgrader { CheckOrigin : Request -> bool }.

(** [*websocket.Conn]: the stream of one session. *)
Record Conn : Type := MkConn { conn_key : string }.

(** What the connection does when it is taken over: whether the
    response writer is an [http.Hijacker], the error of [Hijack] if any,
    whether the client has sent data already, the error of the write of
    the reply if any. *)
Record ConnEnv : Type := MkConnEnv {
  isHijacker : bool;
  hijackErr : option error;
  buffered : bool;
  writeErr : option error
}.

(** [u.returnError(w, r, status, reason)]. *)
Definition returnError {R} (status : Z) (reason : string)
  : M St R (Conn + error) :=
  modify (fun s =>
    MkSt (Error (StatusText status) status
            (set_header (Header_Set "Sec-Websocket-Version" "13") (rw s)))
      (logs s) (events s)) ;;;
  ret (inr (ErrNew reason)).

Definition hijack (w : ResponseWriter) : ResponseWriter :=
  MkWriter (header w) (wroteHeader w) (body w) true (wire w) (connClosed w).

Definition netConn_Close (w : ResponseWriter) : ResponseWriter :=
  MkWriter (header w) (wroteHeader w) (body w) (hijacked w) (wire w)
    (S (connClosed w)).

Definition netConn_Write (p : SwitchingProtocols) (w : ResponseWriter)
  : ResponseWriter :=
  MkWriter (header w) (wroteHeader w) (body w) (hijacked w) (wire w ++ [p])
    (connClosed w).

Definition on_rw {R} (f : ResponseWriter -> ResponseWriter) : M St R unit :=
  modify (fun s => MkSt (f (rw s)) (logs s) (events s)).

Definition badHandshake : string :=
  "websocket: the client is not using the websocket protocol: ".

(** [u.Upgrade(w, r, nil)]. *)
Definition Upgrade {R} (u : Upgrader) (env : ConnEnv) (r : Request)
  : M St R (Conn + error) :=
  if negb (tokenListContainsValue (RHeader r) "Connection" "upgrade") then
    returnError 400 (badHandshake +:+ "'upgrade' token not found in 'Connection' header")
  else if negb (tokenListContainsValue (RHeader r) "Upgrade" "websocket") then
    returnError 400 (badHandshake +:+ "'websocket' token not found in 'Upgrade' header")
  else if negb (String.eqb (Method r) "GET") then
    returnError 405 (badHandshake +:+ "request method is not GET")
  else if negb (tokenListContainsValue (RHeader r) "Sec-Websocket-Version" "13") then
    returnError 400 "websocket: unsupported version: 13 not found in 'Sec-Websocket-Version' header"
  else if negb (CheckOrigin u r) then
    returnError 403 "websocket: request origin not allowed by Upgrader.CheckOrigin"
  else
    let key := Header_Get (RHeader r) "Sec-Websocket-Key" in
    if negb (isValidChallengeKey key) then
      returnError 400 "websocket: not a websocket handshake: 'Sec-WebSocket-Key' header must be Base64 encoded value of 16-byte in length"
    else if negb (isHijacker env) then
      returnError 500 "websocket: response does not implement http.Hijacker"
    else
      match hijackErr env with
      | Some err => returnError 500 (Go.Error err)
      | None =>
          on_rw hijack ;;;
          if buffered env then
            on_rw netConn_Close ;;;
            ret (inr (ErrNew "websocket: client sent data before handshake is complete"))
          else
            match writeErr env with
            | Some err => on_rw netConn_Close ;;; ret (inr err)
            | None =>
                on_rw (netConn_Write (MkSwitching key ∅)) ;;;
                ret (inl (MkConn key))
            end
      end.

End websocket.

(** ** The repository's [internal/middleware] package *)

Module middleware.
Import Go http handler.

(** [middleware.Middleware]: [func(http.Handler) http.Handler]. *)
Definition Middleware : Type := Handler -> Handler.

(** Modelled from the spec: [middleware.Chain], whose source is not
    available.  It "applies decorators in the order given, the first
    listed becoming the outermost wrapper". *)
Definition Chain (ms : list Middleware) : Middleware :=
  fun h => foldr (fun m inner => m inner) h ms.

(** Modelled from the spec: [middleware.FrameOptionDeny], the value
    [DENY] of the frame options header. *)
Definition FrameOptionDeny : string := "DENY".

(** Modelled from the spec: [middleware.FrameOptions], whose source is
    not available.  It "sets a response header instructing browsers to
    refuse to render the response inside a frame". *)
Definition FrameOptions (option : string) : Middleware :=
  fun next r =>
    on_header (Header_Set "X-Frame-Options" option) ;;;
    call (next r).

(** Modelled from the spec: [middleware.ContentSecurityPolicy], whose
    source is not available.  It "sets a response header restricting the
    origins from which scripts/styles/connections may load"; the value
    of the policy is a parameter. *)
Definition ContentSecurityPolicy (policy : string) : Middleware :=
  fun next r =>
    on_header (Header_Set "Content-Security-Policy" policy) ;;;
    call (next r).

(** Modelled from the spec: [middleware.Recover], whose source is not
    available.  It "catches any panic/fatal error escaping the inner
    handler, logs it with the triggering request's remote address, and
    converts it into a 500-equivalent response". *)
Definition Recover (logger : slog.Logger) : Middleware :=
  fun next r =>
    defer_recover
      (fun v =>
         log logger slog.LevelError "Recovered from panic"
           [("remote_addr", RemoteAddr r)] ;;;
         on_writer (Error (StatusText 500) 500))
      (call (next r)).

End middleware.

(** ** [net/http]: [ServeMux], [StripPrefix], [Redirect] *)

Module mux.
Import GoString Go http handler.

Definition slash : ascii := ascii_of_nat 47.
Definition quote : ascii := ascii_of_nat 34.
Definition newline : string := String (ascii_of_nat 10) EmptyString.

(** The elements of a path between slashes. *)
Fixpoint split_path (s cur : string) : list string :=
  match s with
  | EmptyString => [cur]
  | String c rest =>
      if Ascii.eqb c slash then cur :: split_path rest EmptyString
      else split_path rest (cur +:+ char c)
  end.

(** [path.Clean] on a rooted path: empty and [.] elements are dropped,
    [..] drops the element before it. *)
Definition clean_elems (elems : list string) : list string :=
  fold_left
    (fun stack e =>
       if String.eqb e EmptyString || String.eqb e "." then stack
       else if String.eqb e ".." then removelast stack
       else stack ++ [e])
    elems [].

Fixpoint join_path (elems : list string) : string :=
  match elems with
  | [] => EmptyString
  | [e] => e
  | e :: rest => e +:+ "/" +:+ join_path rest
  end.

Definition path_Clean (p : string) : string :=
  "/" +:+ join_path (clean_elems (split_path p EmptyString)).

(** [cleanPath] of [net/http]: the canonical path, with the trailing
    slash kept. *)
Definition cleanPath (p : string) : string :=
  match p with
  | EmptyString => "/"
  | String c _ =>
      let p := if Ascii.eqb c slash then p else "/" +:+ p in
      let np := path_Clean p in
      if HasSuffix p "/" && negb (String.eqb np "/") then np +:+ "/" else np
  end.

(** [http.NotFound]. *)
Definition NotFound : Handler :=
  fun _ => on_writer (Error "404 page not found" 404).

(** [http.Redirect(w, r, url, code)]. *)
Definition Redirect (url : string) (code : Z) : Handler :=
  fun r =>
    s <- get ;;
    let hadCT := bool_decide (is_Some (header (rw s) !! "Content-Type")) in
    on_header (Header_Set "Location" url) ;;;
    (if negb hadCT && (String.eqb (Method r) "GET" || String.eqb (Method r) "HEAD")
     then on_header (Header_Set "Content-Type" "text/html; charset=utf-8")
     else ret tt) ;;;
    on_writer (WriteHeader code) ;;;
    if negb hadCT && String.eqb (Method r) "GET"
    then on_writer
           (Write ("<a href=" +:+ char quote +:+ url +:+ char quote +:+ ">"
                   +:+ StatusText code +:+ "</a>." +:+ newline +:+ newline))
    else ret tt.

(** [http.StripPrefix(prefix, h)]: the prefix is taken off the path and
    off the raw path; when the path does not begin with it, or a raw path
    is set and does not begin with it, the answer is [404]. *)
Definition StripPrefix (prefix : string) (h : Handler) : Handler :=
  if String.eqb prefix EmptyString then h
  else fun r =>
    let p := TrimPrefix (Path r) prefix in
    let rp := TrimPrefix (RawPath r) prefix in
    if (String.length p <? String.length (Path r))%nat
       && (String.eqb (RawPath r) EmptyString
           || (String.length rp <? String.length (RawPath r))%nat)
    then call (h (MkRequest (Method r) p (RHeader r) (RemoteAddr r) rp))
    else NotFound r.

(** A pattern that ends in a slash matches the paths below it, any
    other pattern matches one path. *)
Definition pattern_matches (pattern path : string) : bool :=
  if HasSuffix pattern "/" then HasPrefix path pattern
  else String.eqb pattern path.

(** The route of the longest matching pattern. *)
Fixpoint best_match (routes : list (string * Handler)) (path : string)
  (best : option (string * Handler)) : option (string * Handler) :=
  match routes with
  | [] => best
  | (pattern, h) :: rest =>
      let better :=
        match best with
        | Some (p, _) => (String.length p <? String.length pattern)%nat
        | None => true
        end in
      if pattern_matches pattern path && better
      then best_match rest path (Some (pattern, h))
      else best_match rest path best
  end.

Definition exactMatch (n : option (string * Handler)) (path : string) : bool :=
  match n with
  | Some (pattern, _) => String.eqb pattern path
  | None => false
  end.

(** [ServeMux.ServeHTTP] for patterns made of a path: a path one slash
    short of a registered pattern is redirected to it, a path that is not
    canonical is redirected to its canonical form (except for [CONNECT]),
    any other path goes to the handler of the longest matching pattern. *)
Definition ServeMux (routes : list (string * Handler)) : Handler :=
  fun r =>
    let connect := String.eqb (Method r) "CONNECT" in
    let path := if connect then Path r else cleanPath (Path r) in
    let n := best_match routes path None in
    if negb (exactMatch n path) && negb (HasSuffix path "/")
       && exactMatch (best_match routes (path +:+ "/") None) (path +:+ "/")
    then Redirect (cleanPath (Path r) +:+ "/") 301 r
    else if negb (String.eqb path (Path r))
    then Redirect path 301 r
    else match n with
         | Some (_, h) => call (h r)
         | None => NotFound r
         end.

End mux.

(** ** Package [shell]: [Serve] *)

Module shell.
Import GoString Go http handler.

(** What the collaborators of one connection do: the connection when it
    is taken over, [shell.NewHandler] ([None] is a handler, [Some err]
    the error), [h.Wait()] and [h.Close()].  The package [shell] is
    known by the results of its calls only: what it does to the
    connection it is given is not part of the model. *)
Record SessionEnv : Type := MkSessionEnv {
  conn : websocket.ConnEnv;
  newHandler : CallRes (option error);
  wait : CallRes (option error);
  close : CallRes (option error)
}.

(** What reaches the server while it serves: a request on a new
    connection, a [SIGINT] or [SIGTERM], a failure of [Accept] (one that
    is not temporary: the server tries again after those), and the caller
    of [Serve] cancelling a context. *)
Inductive Input : Type :=
| Incoming (r : Request) (env : SessionEnv)
| Signal
| AcceptError (e : error)
| ContextCancelled (c : Context).

(** What the network does for one run of [Serve]: the error of
    [OpenNetwork], the error of [Listen], the address of the listener
    as parsed by [netip.MustParseAddrPort] ([None] when it does not
    parse), the result of [Hostname], the error of [srv.Close], and the
    inputs of the serve loop. *)
Record World : Type := MkWorld {
  openNetwork : option error;
  listen : option error;
  lisAddr : option netip.AddrPort;
  hostname : string * option error;
  srvCloseErr : option error;
  inputs : list Input
}.

(** The state of one run of [Serve]. *)
Record GSt : Type := MkGSt {
  glogs : list slog.Record_;
  netClosed : nat;                 (* calls of [net.Close] *)
  lisClosed : nat;                 (* calls of [lis.Close] *)
  signalNotify : bool;             (* [signal.Notify] was called *)
  srvClosed : nat;                 (* calls of [srv.Close] *)
  done : list Context;             (* the contexts that are cancelled *)
  served : list (Request * (Res unit unit * St))
}.

Definition newGSt : GSt := MkGSt [] 0 0 false 0 [] [].

Section Serve.
(** [web.Handler()], the handler of the static assets: it works on the
    response writer, and has neither the logger nor the session. *)
Variable web_Handler : Request -> M ResponseWriter unit unit.
(** The policy that [middleware.ContentSecurityPolicy] sets. *)
Variable cspPolicy : string.
(** The arguments [ctx] and [logger] of [Serve]. *)
Variable ctx : Context.
Variable logger : slog.Logger.

(** The handler of [/shell/ws], lines 83-107. *)
Definition handleShellWS (upgrader : websocket.Upgrader) (env : SessionEnv)
  : Handler :=
  fun r =>
    let logger := slog.With logger "remote_addr" (RemoteAddr r) in
    log logger slog.LevelInfo "Handling connection" [] ;;;
    ws <- websocket.Upgrade upgrader (conn env) r ;;
    match ws with
    | inr err =>
        log logger slog.LevelError "Error upgrading connection"
          [("error", Go.Error err)] ;;;
        Return tt
    | inl ws =>
        event EvUpgraded ;;;
        h <- extern (newHandler env) ;;
        match h with
        | Some err =>
            event (EvNewHandlerFailed ctx) ;;;
            log logger slog.LevelError "Failed to create shell handler"
              [("error", Go.Error err)] ;;;
            Return tt
        | None =>
            event (EvNewHandler ctx) ;;;
            defer (event EvHandlerClose ;;;
                   _ <- extern (close env) ;; ret tt)
              (event EvWait ;;;
               err <- extern (wait env) ;;
               match err with
               | Some err =>
                   log logger slog.LevelError "Error handling connection"
                     [("error", Go.Error err)]
               | None =>
                   log logger slog.LevelInfo "Finished handling connection" []
               end)
        end
    end.

(** The router, lines 78-107. *)
Definition newMux (upgrader : websocket.Upgrader) (env : SessionEnv)
  : Handler :=
  mux.ServeMux
    [ ("/", with_writer web_Handler);
      ("/shell/", mux.StripPrefix "/shell" (with_writer web_Handler));
      ("/shell/ws", handleShellWS upgrader env) ].

(** The middlewares, lines 109-114. *)
Definition middlewares (corsHandler : cors.Cors)
  : list middleware.Middleware :=
  [ middleware.Recover logger;
    middleware.FrameOptions middleware.FrameOptionDeny;
    middleware.ContentSecurityPolicy cspPolicy;
    cors.Handler_ corsHandler ].

(** [srv.Handler], line 117. *)
Definition srvHandler (corsHandler : cors.Cors)
  (upgrader : websocket.Upgrader) (env : SessionEnv) : Handler :=
  middleware.Chain (middlewares corsHandler) (newMux upgrader env).

(** Lines 70-76: the CORS handler and the upgrader made from the
    allowed origins. *)
Definition newCors (allowed : list string) : cors.Cors :=
  cors.New (cors.MkOptions allowed).

Definition newUpgrader (corsHandler : cors.Cors) : websocket.Upgrader :=
  websocket.MkUpgrader (cors.OriginAllowed corsHandler).

(** The handler of the server for a listener address and a hostname. *)
Definition gatewayHandler (lisAddrPort : netip.AddrPort) (hostname : string)
  (env : SessionEnv) : Handler :=
  let corsHandler := newCors (allowedOrigins lisAddrPort hostname) in
  srvHandler corsHandler (newUpgrader corsHandler) env.

Definition glog {R} (lv : slog.Level) (m : string)
  (extra : list (string * string)) : M GSt R unit :=
  modify (fun s =>
    MkGSt (glogs s ++ [slog.emit logger lv m extra]) (netClosed s)
      (lisClosed s) (signalNotify s) (srvClosed s) (done s) (served s)).

Definition net_Close {R} : M GSt R unit :=
  modify (fun s =>
    MkGSt (glogs s) (S (netClosed s)) (lisClosed s) (signalNotify s)
      (srvClosed s) (done s) (served s)).

Definition lis_Close {R} : M GSt R unit :=
  modify (fun s =>
    MkGSt (glogs s) (netClosed s) (S (lisClosed s)) (signalNotify s)
      (srvClosed s) (done s) (served s)).

Definition signal_Notify {R} : M GSt R unit :=
  modify (fun s =>
    MkGSt (glogs s) (netClosed s) (lisClosed s) true (srvClosed s)
      (done s) (served s)).

(** [srv.Close()]: the server closes the listener it serves on. *)
Definition srv_Close {R} : M GSt R unit :=
  modify (fun s =>
    MkGSt (glogs s) (netClosed s) (S (lisClosed s)) (signalNotify s)
      (S (srvClosed s)) (done s) (served s)).

Definition cancelled {R} (c : Context) : M GSt R unit :=
  modify (fun s =>
    MkGSt (glogs s) (netClosed s) (lisClosed s) (signalNotify s)
      (srvClosed s) (done s ++ [c]) (served s)).

Definition serve_conn {R} (h : SessionEnv -> Handler) (r : Request)
  (env : SessionEnv) : M GSt R unit :=
  modify (fun s =>
    MkGSt (glogs s) (netClosed s) (lisClosed s) (signalNotify s)
      (srvClosed s) (done s) (served s ++ [(r, run (h env) r newSt)])).

(** The goroutine of lines 124-130, once a signal has arrived. *)
Definition watcher (w : World) : M GSt unit unit :=
  srv_Close ;;;
  match srvCloseErr w with
  | Some err =>
      glog slog.LevelError "Failed to close server" [("error", Go.Error err)]
  | None => ret tt
  end.

(** [srv.Serve(lis)]: every request is handled on a goroutine of its
    own, whose outcome is recorded; a signal wakes the watcher, and
    the closed server makes the loop return [http.ErrServerClosed];
    a failure of [Accept] is returned; with nothing left to come the
    loop stays blocked in [Accept].  The server wraps the listener so
    that it closes it once ([onceCloseListener]): [srv.Close] does, or
    else the [Close] that [srv.Serve] defers does when it returns. *)
Fixpoint srv_Serve {R} (h : SessionEnv -> Handler) (w : World)
  (ins : list Input) : M GSt R (option error) :=
  match ins with
  | [] => block
  | Incoming r env :: rest => serve_conn h r env ;;; srv_Serve h w rest
  | Signal :: _ => call (watcher w) ;;; ret (Some ErrServerClosed)
  | AcceptError e :: _ => lis_Close ;;; ret (Some e)
  | ContextCancelled c :: rest => cancelled c ;;; srv_Serve h w rest
  end.

(** [netip.MustParseAddrPort(lis.Addr().String())]. *)
Definition MustParseAddrPort {S R} (parsed : option netip.AddrPort)
  : M S R netip.AddrPort :=
  match parsed with
  | Some ap => ret ap
  | None => panic (PanicString "netip.ParseAddrPort: not an ip:port")
  end.

(** [Serve(ctx, logger, conf)]. *)
Definition Serve (w : World) : M GSt (option error) unit :=
  glog slog.LevelDebug "Opening WireGuard network" [] ;;;
  match openNetwork w with
  | Some err => Return (Some (ErrWrap "failed to open WireGuard network" err))
  | None =>
      defer net_Close
        (glog slog.LevelDebug "Binding to http port" [] ;;;
         match listen w with
         | Some err => Return (Some (ErrWrap "failed to listen" err))
         | None =>
             defer lis_Close
               (lisAddrPort <- MustParseAddrPort (lisAddr w) ;;
                match hostname w with
                | (_, Some err) =>
                    Return (Some (ErrWrap "failed to get hostname" err))
                | (hostname, None) =>
                    let srv := gatewayHandler lisAddrPort hostname in
                    signal_Notify ;;;
                    let urlStr :=
                      if bool_decide (hostname ≠ EmptyString)
                      then "http://" +:+ hostname +:+ ":"
                           +:+ utoa (netip.port lisAddrPort) +:+ "/shell/"
                      else "http://" +:+ netip.AddrPort_String lisAddrPort
                           +:+ "/shell/" in
                    glog slog.LevelInfo
                      "Listening for shell connections on WireGuard network"
                      [("url", urlStr)] ;;;
                    err <- srv_Serve srv w (inputs w) ;;
                    match err with
                    | Some err =>
                        if negb (Is_ErrServerClosed err)
                        then Return (Some (ErrWrap "failed to serve" err))
                        else Return None
                    | None => Return None
                    end
                end)
         end)
  end.

End Serve.

End shell.

(** ** Concrete inputs *)

Module sample.
Import GoString Go http handler.

(** The listener of an IPv6 network: [[2001:db8::1]:80]. *)
Definition addr_v6 : netip.AddrPort :=
  netip.MkAddrPort (netip.AddrFrom16 8193 3512 0 0 0 0 0 1) 80.

(** A well-formed upgrade request for [/shell/ws], with or without an
    [Origin] header. *)
Definition upgrade_headers (origin : option string) : Header :=
  let h : Header :=
    <["Connection" := ["Upgrade"]]>
      (<["Upgrade" := ["websocket"]]>
         (<["Sec-Websocket-Version" := ["13"]]>
            (<["Sec-Websocket-Key" := ["dGhlIHNhbXBsZSBub25jZQ=="]]> ∅))) in
  match origin with
  | Some o => <["Origin" := [o]]> h
  | None => h
  end.

Definition upgrade_request (origin : option string) : Request :=
  MkRequest "GET" "/shell/ws" (upgrade_headers origin) "100.64.0.2:51234"
    EmptyString.

(** A connection that can be taken over, and a session whose shell
    handler is created, ends and closes without an error. *)
Definition good_conn : websocket.ConnEnv :=
  websocket.MkConnEnv true None false None.

Definition good_session : shell.SessionEnv :=
  shell.MkSessionEnv good_conn (Returns None) (Returns None) (Returns None).

(** A session whose shell handler cannot be created. *)
Definition no_shell_session : shell.SessionEnv :=
  shell.MkSessionEnv good_conn (Returns (Some (ErrNew "failed to start shell")))
    (Returns None) (Returns None).

(** A static handler that writes a page, and one that panics. *)
Definition static_page : Request -> M ResponseWriter unit unit :=
  fun _ => modify (Write "<html></html>").

Definition broken_page : Request -> M ResponseWriter unit unit :=
  fun _ => panic (PanicString "index out of range").

Definition policy : string := "default-src 'self'".
Definition ctx : Context := MkContext "serve".
Definition logger : slog.Logger := [].

(** The handler of the gateway in the scenario of the specification. *)
Definition gateway (env : shell.SessionEnv) : Handler :=
  shell.gatewayHandler static_page policy ctx logger scenario_addr
    "router.example" env.

(** A network on which start-up succeeds. *)
Definition world (host : string * option error) (ins : list shell.Input)
  : shell.World :=
  shell.MkWorld None None (Some scenario_addr) host None ins.

Definition Serve (w : shell.World) : Res (option error) unit * shell.GSt :=
  shell.Serve static_page policy ctx logger w shell.newGSt.

End sample.

(** ** Vocabulary of the properties *)

Module policy.
Import GoString.

(** An allowed origin [a] accepts the origin [o] of a request, both
    taken in lower case: if [a] has a ['*'], [o] begins with what stands
    before the first ['*'], ends with what stands after it and is at
    least as long as both together; otherwise [o] is [a]. *)
Definition accepts (a o : string) : bool :=
  let a := ToLower a in
  let o := ToLower o in
  match IndexByte a "*" with
  | Some i =>
      cors.wildcard_match
        (cors.MkWildcard (slice_to i a) (slice_from (S i) a)) o
  | None => String.eqb a o
  end.

(** The origin policy over a list of allowed origins. *)
Definition IsAllowed (allowed : list string) (o : string) : bool :=
  existsb (fun a => accepts a o) allowed.

(** A host spelling is bracketed when it begins with [[]. *)
Definition bracketed (host : string) : Prop :=
  ∃ rest, host = String "["%char rest.

End policy.

Module inv.
Import Go http handler.

(** [pres I m]: the statement [m] keeps the invariant [I], however it
    ends. *)
Definition pres {S R A} (I : S -> Prop) (m : M S R A) : Prop :=
  ∀ s, I s → I (m s).2.

(** The headers that are sent, or that will be sent with the status
    line. *)
Definition pending (w : ResponseWriter) : Header :=
  match wroteHeader w with
  | Some (_, h) => h
  | None => header w
  end.

(** The reply goes through the response writer with both security
    headers, unless the connection has been taken over. *)
Definition secured (policy : string) (w : ResponseWriter) : Prop :=
  hijacked w = true
  ∨ (pending w !! "X-Frame-Options" = Some ["DENY"]
     ∧ pending w !! "Content-Security-Policy" = Some [policy]).

(** A change of the header map that leaves the two security headers
    alone. *)
Definition keeps_security (f : Header -> Header) : Prop :=
  ∀ h, f h !! "X-Frame-Options" = h !! "X-Frame-Options"
       ∧ f h !! "Content-Security-Policy" = h !! "Content-Security-Policy".

(** The events of a session that was given the context [c]. *)
Definition event_of_ctx (c : Context) (e : Event) : Prop :=
  match e with
  | EvNewHandler c' | EvNewHandlerFailed c' => c' = c
  | _ => True
  end.

(** The connection behind the writer [w'] is as it is behind [w]: not
    taken over in between, nothing written past the writer, not
    closed. *)
Definition same_conn (w w' : ResponseWriter) : Prop :=
  hijacked w' = hijacked w ∧ wire w' = wire w ∧ connClosed w' = connClosed w.

(** The logger of the handler of [/shell/ws] for a request, and the
    state once it has logged that it handles the connection. *)
Definition remote (logger : slog.Logger) (r : Request) : slog.Logger :=
  slog.With logger "remote_addr" (RemoteAddr r).

Definition handling (logger : slog.Logger) (s : St) (r : Request) : St :=
  MkSt (rw s)
    (logs s ++
     [slog.emit (remote logger r) slog.LevelInfo "Handling connection" []])
    (events s).

(** An invariant [J] of response writers that the operations of the
    writer keep. *)
Record writer_inv (J : ResponseWriter -> Prop) : Prop := MkWriterInv {
  J_keep : ∀ f w, keeps_security f → J w → J (set_header f w);
  J_WriteHeader : ∀ code w, J w → J (WriteHeader code w);
  J_Write : ∀ b w, J w → J (Write b w);
  J_hijack : ∀ w, J w → J (websocket.hijack w);
  J_Close : ∀ w, J w → J (websocket.netConn_Close w);
  J_netWrite : ∀ p w, J w → J (websocket.netConn_Write p w)
}.

(** An invariant [I] of handler states that allows every change of the log
    and the changes of the writer that keep [J]. *)
Definition follows (J : ResponseWriter -> Prop) (I : St -> Prop) : Prop :=
  ∀ s w' l, I s → (J (rw s) → J w') → I (MkSt w' l (events s)).

(** The number of calls of [h.Close()] among the events. *)
Fixpoint closes (l : list Event) : nat :=
  match l with
  | [] => 0
  | EvHandlerClose :: l' => S (closes l')
  | _ :: l' => closes l'
  end.

(** What the CORS middleware has granted: the value of
    [Access-Control-Allow-Origin] among the headers that are sent, or
    that will be sent with the status line. *)
Definition grant (w : ResponseWriter) : option (list string) :=
  pending w !! "Access-Control-Allow-Origin".

(** A change of the header map that leaves the grant alone. *)
Definition keeps_grant (f : Header -> Header) : Prop :=
  ∀ h, f h !! "Access-Control-Allow-Origin"
       = h !! "Access-Control-Allow-Origin".

(** The grant of the response is [v]. *)
Definition granted (v : option (list string)) (s : St) : Prop :=
  grant (rw s) = v.

End inv.

Module loop.
Import Go http handler shell.

(** What [srv.Serve] returns for the inputs of the serve loop: the
    sentinel at the first signal, the error of [Accept] at the first
    failure; nothing while neither has come. *)
Fixpoint result (ins : list Input) : option error :=
  match ins with
  | [] => None
  | Signal :: _ => Some ErrServerClosed
  | AcceptError e :: _ => Some e
  | _ :: rest => result rest
  end.

(** Whether the loop ends with a signal. *)
Fixpoint signalled (ins : list Input) : bool :=
  match ins with
  | [] => false
  | Signal :: _ => true
  | AcceptError _ :: _ => false
  | _ :: rest => signalled rest
  end.

(** The requests that arrive before the loop ends. *)
Fixpoint conns (ins : list Input) : list (Request * SessionEnv) :=
  match ins with
  | [] => []
  | Signal :: _ | AcceptError _ :: _ => []
  | Incoming r env :: rest => (r, env) :: conns rest
  | ContextCancelled _ :: rest => conns rest
  end.

(** The contexts that the caller of [Serve] cancels before the loop
    ends. *)
Fixpoint cancels (ins : list Input) : list Context :=
  match ins with
  | [] => []
  | Signal :: _ | AcceptError _ :: _ => []
  | Incoming _ _ :: rest => cancels rest
  | ContextCancelled c :: rest => c :: cancels rest
  end.

(** What is recorded for a request served by the handler [h]. *)
Definition record (h : SessionEnv -> Handler) (c : Request * SessionEnv)
  : Request * (Res unit unit * St) :=
  (c.1, run (h c.2) c.1 newSt).

(** Start-up succeeds: the network opens, the listener is bound, its
    address parses to [ap] and the hostname is [hn]. *)
Definition started (w : World) (ap : netip.AddrPort) (hn : string) : Prop :=
  openNetwork w = None ∧ listen w = None ∧ lisAddr w = Some ap
  ∧ hostname w = (hn, None).

End loop.

(** * Properties *)

(** ** Strings *)

#[local] Arguments String.append !s1 s2 : simpl nomatch.

Lemma append_assoc (a b c : string) : (a +:+ b) +:+ c = a +:+ (b +:+ c).
Proof. induction a as [|x a IH]; simpl; [reflexivity | now rewrite IH]. Qed.

Lemma append_nil_r (a : string) : a +:+ EmptyString = a.
Proof. induction a as [|x a IH]; simpl; [reflexivity | now rewrite IH]. Qed.

Lemma append_length (a b : string) :
  String.length (a +:+ b) = (String.length a + String.length b)%nat.
Proof. induction a as [|x a IH]; simpl; [reflexivity | now rewrite IH]. Qed.

(** ** The allowed origins *)

Example allowedOrigins_scenario :
  allowedOrigins scenario_addr "router.example" =
  [ "http://100.64.0.1"; "http://100.64.0.1:80";
    "http://router.example"; "http://router.example:80" ].
Proof. vm_compute. reflexivity. Qed.

Example allowedOrigins_v6 :
  allowedOrigins sample.addr_v6 "" =
  [ "http://2001:db8::1"; "http://[2001:db8::1]:80" ].
Proof. vm_compute. reflexivity. Qed.

Example Addr_String_v6 :
  map netip.Addr_String
    [ netip.AddrFrom16 0 0 0 0 0 0 0 0;
      netip.AddrFrom16 0 0 0 0 0 0 0 1;
      netip.AddrFrom16 65152 0 0 0 0 0 0 0;
      netip.AddrFrom16 1 0 0 2 0 0 0 3;
      netip.AddrFrom16 1 0 2 0 3 0 4 0;
      netip.AddrFrom16 0 0 0 0 0 65535 25664 1;
      netip.MkAddr 0 1 (netip.z6zone "eth0") ] =
  [ "::"; "::1"; "fe80::"; "1:0:0:2::3"; "1:0:2:0:3:0:4:0";
    "::ffff:100.64.0.1"; "::1%eth0" ].
Proof. vm_compute. reflexivity. Qed.

(** C1.  For every bound address [A] and hostname [H], an origin is in the
    allowed origins computed by [Serve] exactly when it is the bare form of
    [A] or the port-qualified form of [A] (scheme [http]) or, for a
    non-empty [H], the bare form of [H] or [H] with the port of [A]; with
    an empty [H] the list is the two forms of [A] and nothing else. *)
Theorem allowedOrigins_exactly (A : netip.AddrPort) (H : string) :
  (∀ o : string,
      o ∈ allowedOrigins A H ↔
      o = "http://" +:+ netip.Addr_String (netip.ip A)
      ∨ o = "http://" +:+ netip.AddrPort_String A
      ∨ (H ≠ EmptyString
         ∧ (o = "http://" +:+ H
            ∨ o = "http://" +:+ H +:+ ":" +:+ GoString.utoa (netip.port A))))
  ∧ allowedOrigins A EmptyString =
    [ "http://" +:+ netip.Addr_String (netip.ip A);
      "http://" +:+ netip.AddrPort_String A ].
Proof.
  unfold allowedOrigins, http_origin, http_origin_port.
  split.
  - intros o. case_bool_decide as Hne.
    + rewrite elem_of_app, !elem_of_cons, !elem_of_nil. tauto.
    + rewrite !elem_of_cons, elem_of_nil. tauto.
  - reflexivity.
Qed.

(** ** IPv6 listeners *)

Section V6.
Import GoString netip.

Lemma digit_cases (i : Z) :
  In (digit i)
    (list_ascii_of_string "0123456789abcdef").
Proof.
  unfold digit, digits.
  destruct (Z.to_nat i) as [|[|[|[|[|[|[|[|[|[|[|[|[|[|[|[|n]]]]]]]]]]]]]]]];
    simpl; tauto.
Qed.

Lemma digit_not_bracket (i : Z) : digit i ≠ "["%char.
Proof.
  pose proof (digit_cases i) as Hd. simpl in Hd.
  intros Heq. rewrite Heq in Hd.
  repeat (destruct Hd as [Hd|Hd]; [discriminate Hd|]). exact Hd.
Qed.

Lemma appendDecimal_app (ret : string) (x : Z) :
  appendDecimal ret x = ret +:+ appendDecimal EmptyString x.
Proof.
  unfold appendDecimal.
  destruct (100 <=? x), (10 <=? x); simpl; now rewrite ?append_assoc.
Qed.

Lemma appendHex_app (ret : string) (x : Z) :
  appendHex ret x = ret +:+ appendHex EmptyString x.
Proof.
  unfold appendHex.
  destruct (4096 <=? x), (256 <=? x), (16 <=? x); simpl;
    now rewrite ?append_assoc.
Qed.

Lemma appendHex_head (x : Z) :
  ∃ d rest, appendHex EmptyString x = String (digit d) rest.
Proof.
  unfold appendHex.
  destruct (4096 <=? x), (256 <=? x), (16 <=? x); simpl; eauto.
Qed.

Lemma appendTo4_app (ret : string) (a : Addr) :
  appendTo4 ret a = ret +:+ appendTo4 EmptyString a.
Proof.
  unfold appendTo4.
  rewrite (appendDecimal_app (_ +:+ _) (v4 a 3)).
  rewrite (appendDecimal_app (_ +:+ _) (v4 a 2)).
  rewrite (appendDecimal_app (_ +:+ _) (v4 a 1)).
  rewrite (appendDecimal_app ret (v4 a 0)).
  symmetry.
  rewrite (appendDecimal_app (_ +:+ _) (v4 a 3)).
  rewrite (appendDecimal_app (_ +:+ _) (v4 a 2)).
  rewrite (appendDecimal_app (_ +:+ _) (v4 a 1)).
  now rewrite !append_assoc.
Qed.

Lemma appendZone_app (ret : string) (a : Addr) :
  appendZone ret a = ret +:+ appendZone EmptyString a.
Proof.
  unfold appendZone. destruct (z a); now rewrite ?append_nil_r.
Qed.

Lemma append_groups_app (a : Addr) (fuel : nat) (i zs ze : Z) (ret : string) :
  append_groups a fuel i zs ze ret =
  ret +:+ append_groups a fuel i zs ze EmptyString.
Proof.
  revert i ret. induction fuel as [|fuel IH]; intros i ret; simpl.
  - now rewrite append_nil_r.
  - destruct (8 <=? i); [now rewrite append_nil_r|].
    destruct (i =? zs).
    + destruct (8 <=? ze); [reflexivity|].
      rewrite IH. symmetry. rewrite IH.
      rewrite (appendHex_app (ret +:+ "::")), (appendHex_app "::").
      now rewrite !append_assoc.
    + rewrite IH. symmetry. rewrite IH.
      destruct (0 <? i).
      * rewrite (appendHex_app (ret +:+ ":")), (appendHex_app ":").
        now rewrite !append_assoc.
      * rewrite (appendHex_app ret). simpl. now rewrite !append_assoc.
Qed.

Lemma appendTo6_app (ret : string) (a : Addr) :
  appendTo6 ret a = ret +:+ appendTo6 EmptyString a.
Proof.
  unfold appendTo6. destruct (longest_zero_run a 8 0 255 255) as [zs ze].
  rewrite appendZone_app, append_groups_app. symmetry.
  rewrite appendZone_app. now rewrite append_assoc.
Qed.

Lemma appendTo4In6_app (ret : string) (a : Addr) :
  appendTo4In6 ret a = ret +:+ appendTo4In6 EmptyString a.
Proof.
  unfold appendTo4In6. rewrite appendZone_app, appendTo4_app. symmetry.
  rewrite appendZone_app, appendTo4_app. cbn [String.append].
  now rewrite !append_assoc.
Qed.

(** On an IPv6 address [AddrPort.String] is [Addr.String] in brackets,
    a colon and the port. *)
Lemma AddrPort_String_v6 (p : AddrPort) :
  Is6 (ip p) = true →
  AddrPort_String p = "[" +:+ Addr_String (ip p) +:+ "]:" +:+ utoa (port p).
Proof.
  unfold Is6, AddrPort_String, Addr_String. intros H6.
  destruct (z (ip p)) eqn:Hz; try discriminate H6;
    destruct (Is4In6 (ip p));
    first [rewrite (appendTo4In6_app "[") | rewrite (appendTo6_app "[")];
    cbn [String.append]; now rewrite ?append_assoc.
Qed.

Lemma append_groups_step (a : Addr) (fuel : nat) (i zs ze : Z) (ret : string) :
  append_groups a (S fuel) i zs ze ret =
  if 8 <=? i then ret
  else if i =? zs then
    if 8 <=? ze then ret +:+ "::"
    else append_groups a fuel (ze + 1) zs ze
           (appendHex (ret +:+ "::") (v6u16 a ze))
  else
    append_groups a fuel (i + 1) zs ze
      (appendHex (if 0 <? i then ret +:+ ":" else ret) (v6u16 a i)).
Proof. reflexivity. Qed.

(** What [appendTo6] and [appendTo4In6] write begins with a colon or
    with a hexadecimal digit. *)
Lemma appendTo6_head (a : Addr) :
  ∃ c tl, appendTo6 EmptyString a = String c tl ∧ c ≠ "["%char.
Proof.
  unfold appendTo6.
  destruct (longest_zero_run a 8 0 255 255) as [zs ze].
  rewrite appendZone_app.
  change 8%nat with (S 7). rewrite append_groups_step.
  change (8 <=? 0) with false. cbv iota.
  destruct (0 =? zs).
  - destruct (8 <=? ze).
    + cbn [String.append]. eexists _, _. split; [reflexivity | discriminate].
    + rewrite append_groups_app, appendHex_app. cbn [String.append].
      eexists _, _. split; [reflexivity | discriminate].
  - change (0 <? 0) with false. cbv iota.
    rewrite append_groups_app.
    destruct (appendHex_head (v6u16 a 0)) as (d & tl & ->).
    cbn [String.append].
    eexists _, _. split; [reflexivity | apply digit_not_bracket].
Qed.

Lemma appendTo4In6_head (a : Addr) :
  ∃ c tl, appendTo4In6 EmptyString a = String c tl ∧ c ≠ "["%char.
Proof.
  unfold appendTo4In6. rewrite appendZone_app, appendTo4_app.
  cbn [String.append]. eexists _, _. split; [reflexivity | discriminate].
Qed.

(** [Addr.String] of an IPv6 address does not begin with a bracket. *)
Lemma Addr_String_v6_unbracketed (a : Addr) :
  Is6 a = true → ¬ policy.bracketed (Addr_String a).
Proof.
  intros H6 [rest Hrest].
  assert (Hhead : ∃ c tl, Addr_String a = String c tl ∧ c ≠ "["%char).
  { unfold Addr_String, Is6 in *.
    destruct (z a); try discriminate H6;
      destruct (Is4In6 a); auto using appendTo6_head, appendTo4In6_head. }
  destruct Hhead as (c & tl & Heq & Hc).
  rewrite Heq in Hrest. injection Hrest as Hc' _. contradiction.
Qed.

End V6.

(** C10.  For every listener bound to an IPv6 address, the bare allowed
    origin is [http://] followed by the address as [Addr.String] writes
    it, which does not begin with a bracket, and the port-qualified
    allowed origin is [http://] followed by the same address between
    brackets, a colon and the port: the two entries spell the host in two
    ways. *)
Theorem v6_origin_spellings (A : netip.AddrPort) (H : string) :
  netip.Is6 (netip.ip A) = true →
  let host := netip.Addr_String (netip.ip A) in
  allowedOrigins A H !! 0%nat = Some ("http://" +:+ host)
  ∧ allowedOrigins A H !! 1%nat
    = Some ("http://[" +:+ host +:+ "]:" +:+ GoString.utoa (netip.port A))
  ∧ ¬ policy.bracketed host
  ∧ policy.bracketed ("[" +:+ host +:+ "]").
Proof.
  intros H6 host. unfold allowedOrigins.
  assert (Hq : http_origin (netip.AddrPort_String A)
               = "http://[" +:+ host +:+ "]:" +:+ GoString.utoa (netip.port A)).
  { unfold http_origin. now rewrite AddrPort_String_v6. }
  repeat split.
  - now case_bool_decide.
  - case_bool_decide; simpl; now rewrite Hq.
  - now apply Addr_String_v6_unbracketed.
  - now eexists.
Qed.

Lemma v6_origin_spellings_witness :
  netip.Is6 (netip.ip sample.addr_v6) = true
  ∧ allowedOrigins sample.addr_v6 "" !! 0%nat = Some "http://2001:db8::1"
  ∧ allowedOrigins sample.addr_v6 "" !! 1%nat = Some "http://[2001:db8::1]:80".
Proof.
  split; [reflexivity|].
  destruct (v6_origin_spellings sample.addr_v6 "" eq_refl) as (H0 & H1 & _).
  split; [exact H0 | exact H1].
Defined.

(** ** The origin policy *)

Section OriginPolicy.
Import GoString.

Lemma substring_zero (n : nat) (s : string) : String.substring n 0 s = EmptyString.
Proof.
  revert s. induction n as [|n IH]; intros [|c s]; simpl; auto.
Qed.

Lemma HasPrefix_empty (s : string) : HasPrefix s EmptyString = true.
Proof. unfold HasPrefix. now destruct s. Qed.

Lemma HasSuffix_empty (s : string) : HasSuffix s EmptyString = true.
Proof. unfold HasSuffix. simpl. now rewrite substring_zero. Qed.

Lemma accepts_star (a o : string) :
  ToLower a = "*" → policy.accepts a o = true.
Proof.
  unfold policy.accepts. intros ->. simpl.
  unfold cors.wildcard_match, slice_to, slice_from. simpl.
  now rewrite HasPrefix_empty, HasSuffix_empty.
Qed.

(** The loop of [cors.New] keeps what the declarative policy says. *)
Lemma normalize_accepts (origins : list string) (o : string) :
  ∀ (os : list string) (ws : list cors.wildcard),
    (let '(os', ws', all) := cors.normalize origins os ws in
     all || existsb (fun a => String.eqb a (ToLower o)) os'
     || existsb (fun w => cors.wildcard_match w (ToLower o)) ws')
    = existsb (fun a => String.eqb a (ToLower o)) os
      || existsb (fun w => cors.wildcard_match w (ToLower o)) ws
      || policy.IsAllowed origins o.
Proof.
  unfold policy.IsAllowed.
  induction origins as [|a rest IH]; intros os ws; simpl.
  - now rewrite orb_false_r.
  - destruct (String.eqb_spec (ToLower a) "*") as [Hstar|Hstar].
    + rewrite (accepts_star a o Hstar). simpl. now rewrite orb_true_r.
    + unfold policy.accepts at 1.
      destruct (IndexByte (ToLower a) "*") as [i|].
      * rewrite IH, existsb_app. simpl.
        destruct (existsb _ os), (existsb _ ws), (cors.wildcard_match _ _);
          simpl; reflexivity.
      * rewrite IH, existsb_app. simpl.
        destruct (existsb _ os), (existsb _ ws), (String.eqb _ _);
          simpl; reflexivity.
Qed.

(** For a list of allowed origins that is not empty, the check of
    [rs/cors] is the declarative policy. *)
Lemma isOriginAllowed_New (origins : list string) (o : string) :
  origins ≠ [] →
  cors.isOriginAllowed (cors.New (cors.MkOptions origins)) o = policy.IsAllowed origins o.
Proof.
  intros Hne. destruct origins as [|a rest]; [congruence|].
  pose proof (normalize_accepts (a :: rest) o [] []) as Hn.
  cbn [existsb orb] in Hn.
  unfold cors.New, cors.isOriginAllowed. cbn [cors.AllowedOrigins].
  destruct (cors.normalize (a :: rest) [] []) as [[os' ws'] all].
  cbn [cors.allowedOriginsAll cors.allowedOrigins cors.allowedWOrigins].
  rewrite <- Hn. now destruct all.
Qed.

(** For allowed origins in lower case without a ['*'] and an origin in
    lower case, the policy is membership in the list. *)
Lemma IsAllowed_plain (allowed : list string) (o : string) :
  (∀ a, a ∈ allowed → ToLower a = a ∧ IndexByte a "*" = None) →
  ToLower o = o →
  policy.IsAllowed allowed o = true ↔ o ∈ allowed.
Proof.
  intros Hplain Ho. unfold policy.IsAllowed. rewrite existsb_exists.
  split.
  - intros (a & Hin & Hacc). apply list_elem_of_In in Hin.
    destruct (Hplain a Hin) as [Ha Hstar].
    unfold policy.accepts in Hacc. rewrite Ha, Hstar, Ho in Hacc.
    apply String.eqb_eq in Hacc. now subst.
  - intros Hin. exists o. split; [now apply list_elem_of_In|].
    destruct (Hplain o Hin) as [_ Hstar].
    unfold policy.accepts. rewrite Ho, Hstar. apply String.eqb_refl.
Qed.

Lemma allowedOrigins_nonempty (A : netip.AddrPort) (H : string) :
  allowedOrigins A H ≠ [].
Proof. unfold allowedOrigins. now case_bool_decide. Qed.

(** An origin with the scheme [http] does not accept the empty string:
    neither as it is nor as a wildcard, whose prefix has the scheme. *)
Lemma accepts_http_empty (x : string) :
  policy.accepts ("http://" +:+ x) EmptyString = false.
Proof.
  unfold policy.accepts. cbn [String.append ToLower].
  cbn [IndexByte]. change (Ascii.eqb (lower_byte "h") "*") with false.
  change (Ascii.eqb (lower_byte "t") "*") with false.
  change (Ascii.eqb (lower_byte "p") "*") with false.
  change (Ascii.eqb (lower_byte ":") "*") with false.
  change (Ascii.eqb (lower_byte "/") "*") with false.
  cbv iota.
  destruct (IndexByte (ToLower x) "*") as [i|]; [|reflexivity].
  reflexivity.
Qed.

Lemma IsAllowed_empty (A : netip.AddrPort) (H : string) :
  policy.IsAllowed (allowedOrigins A H) EmptyString = false.
Proof.
  unfold policy.IsAllowed, allowedOrigins, http_origin, http_origin_port.
  case_bool_decide; cbn [existsb app]; now rewrite !accepts_http_empty.
Qed.

(** The two requests of the scenario of the specification. *)
Example scenario_policy :
  map (policy.IsAllowed (allowedOrigins scenario_addr "router.example"))
    ["http://evil.example"; "http://router.example:80"]
  = [false; true].
Proof. vm_compute. reflexivity. Qed.

(** The check of the upgrader that [Serve] makes is the declarative
    policy on the [Origin] header of the request. *)
Lemma CheckOrigin_policy (A : netip.AddrPort) (H : string) (r : http.Request) :
  websocket.CheckOrigin (shell.newUpgrader (shell.newCors (allowedOrigins A H))) r
  = policy.IsAllowed (allowedOrigins A H) (http.Header_Get (http.RHeader r) "Origin").
Proof.
  unfold shell.newUpgrader, shell.newCors, cors.OriginAllowed.
  cbn [websocket.CheckOrigin].
  apply isOriginAllowed_New, allowedOrigins_nonempty.
Qed.

End OriginPolicy.

(** ** One origin predicate *)

Section SameOrigin.
Import GoString http.

(** The headers that [handleActualRequest] adds grant the origin exactly
    when [isOriginAllowed] accepts a present origin and the method is
    allowed. *)
Lemma handleActualRequest_grants (c : cors.Cors) (r : Request) (hs : Header) :
  hs !! "Access-Control-Allow-Origin" = None →
  is_Some (cors.handleActualRequest c r hs !! "Access-Control-Allow-Origin")
  ↔ Header_Get (RHeader r) "Origin" ≠ EmptyString
    ∧ cors.isOriginAllowed c (Header_Get (RHeader r) "Origin") = true
    ∧ cors.isMethodAllowed c (Method r) = true.
Proof.
  intros Hfresh. unfold cors.handleActualRequest.
  assert (Hvary : Header_Add "Vary" "Origin" hs !! "Access-Control-Allow-Origin" = None).
  { unfold Header_Add. now rewrite lookup_insert_ne. }
  destruct (String.eqb_spec (Header_Get (RHeader r) "Origin") EmptyString) as [He|He].
  { rewrite Hvary. split; [intros []; discriminate | tauto]. }
  destruct (cors.isOriginAllowed c _); cbn [negb].
  2:{ rewrite Hvary. split; [intros []; discriminate | intros (_ & ? & _); discriminate]. }
  destruct (cors.isMethodAllowed c _); cbn [negb].
  2:{ rewrite Hvary. split; [intros []; discriminate | intros (_ & _ & ?); discriminate]. }
  split; [tauto|]. intros _.
  destruct (cors.exposedHeaders c), (cors.allowCredentials c);
    unfold Header_Set;
    repeat (rewrite lookup_insert_ne by discriminate);
    rewrite lookup_insert_eq; eauto.
Qed.

End SameOrigin.

(** ** Statements that keep an invariant *)

Section Pres.
Import Go inv.
Context {S R : Type} (I : S -> Prop).

Lemma pres_ret {A} (a : A) : pres I (ret a : M S R A).
Proof. now intros s. Qed.

Lemma pres_Return {A} (r : R) : pres I (Return r : M S R A).
Proof. now intros s. Qed.

Lemma pres_panic {A} (v : PanicValue) : pres I (panic v : M S R A).
Proof. now intros s. Qed.

Lemma pres_block {A} : pres I (block : M S R A).
Proof. now intros s. Qed.

Lemma pres_get : pres I (get : M S R S).
Proof. now intros s. Qed.

Lemma pres_modify (f : S -> S) :
  (∀ s, I s → I (f s)) → pres I (modify f : M S R unit).
Proof. intros Hf s. apply Hf. Qed.

Lemma pres_extern {A} (c : CallRes A) : pres I (extern c : M S R A).
Proof. destruct c; now intros s. Qed.

Lemma pres_bind {A B} (m : M S R A) (k : A -> M S R B) :
  pres I m → (∀ a, pres I (k a)) → pres I (bind m k).
Proof.
  intros Hm Hk s Hs. unfold bind.
  specialize (Hm s Hs). destruct (m s) as [[a|r|v|] s']; simpl in *; auto.
  now apply Hk.
Qed.

Lemma pres_defer {A} (d : M S R unit) (rest : M S R A) :
  pres I d → pres I rest → pres I (defer d rest).
Proof.
  intros Hd Hr s Hs. unfold defer.
  specialize (Hr s Hs). destruct (rest s) as [[a|r|v|] s1]; simpl in *; auto;
    specialize (Hd s1 Hr); destruct (d s1) as [[a'|r'|v'|] s2]; simpl in *; auto.
Qed.

Lemma pres_defer_recover (h : PanicValue -> M S R unit) (rest : M S R unit) :
  (∀ v, pres I (h v)) → pres I rest → pres I (defer_recover h rest).
Proof.
  intros Hh Hr s Hs. unfold defer_recover.
  specialize (Hr s Hs). destruct (rest s) as [[a|r|v|] s1]; simpl in *; auto.
  now apply Hh.
Qed.

End Pres.

Lemma pres_call {S R R'} (I : S -> Prop) (body : Go.M S R' unit) :
  inv.pres I body → inv.pres I (Go.call body : Go.M S R unit).
Proof.
  intros Hb s Hs. unfold Go.call.
  specialize (Hb s Hs). now destruct (body s) as [[a|r|v|] s'].
Qed.

Lemma call_snd {S R R'} (body : Go.M S R' unit) (s : S) :
  (Go.call body s : Go.Res R unit * S).2 = (body s).2.
Proof. unfold Go.call. now destruct (body s) as [[a|x|v|] s1]. Qed.

(** ** The upgrade and the handler of [/shell/ws] *)

Section ShellWS.
Import GoString Go http handler inv.

Variable web_Handler : Request -> M ResponseWriter unit unit.
Variable cspPolicy : string.
Variable ctx : Context.
Variable logger : slog.Logger.

Lemma same_conn_WriteHeader (code : Z) (w : ResponseWriter) :
  same_conn w (WriteHeader code w).
Proof.
  unfold WriteHeader, same_conn.
  destruct (hijacked w) eqn:Hh; [auto|].
  destruct (wroteHeader w); cbn; auto.
Qed.

Lemma same_conn_Write (b : string) (w : ResponseWriter) :
  same_conn w (Write b w).
Proof.
  unfold Write, same_conn.
  destruct (hijacked w) eqn:Hh; [auto|].
  destruct (same_conn_WriteHeader 200 w) as (H1 & H2 & H3).
  cbn. rewrite H2, H3. auto.
Qed.

Lemma same_conn_set_header (f : Header -> Header) (w : ResponseWriter) :
  same_conn w (set_header f w).
Proof. now unfold same_conn. Qed.

Lemma same_conn_trans (w1 w2 w3 : ResponseWriter) :
  same_conn w1 w2 → same_conn w2 w3 → same_conn w1 w3.
Proof. unfold same_conn. intros (?&?&?) (?&?&?). repeat split; congruence. Qed.

Lemma same_conn_Error (msg : string) (code : Z) (w : ResponseWriter) :
  same_conn w (Error msg code w).
Proof.
  unfold Error.
  eapply same_conn_trans; [|apply same_conn_Write].
  eapply same_conn_trans; [|apply same_conn_WriteHeader].
  eapply same_conn_trans; apply same_conn_set_header.
Qed.

(** [returnError] returns the error and touches the response only. *)
Lemma returnError_spec {R} (status : Z) (reason : string) (s : St) :
  ∃ w, @websocket.returnError R status reason s
       = (Val (inr (ErrNew reason)), MkSt w (logs s) (events s))
       ∧ same_conn (rw s) w.
Proof.
  eexists. split; [reflexivity|].
  eapply same_conn_trans; [apply same_conn_set_header | apply same_conn_Error].
Qed.

(** When the origin check fails, [Upgrade] returns an error, and has
    neither taken the connection over nor written a reply on it. *)
Lemma Upgrade_origin_rejected {R} (u : websocket.Upgrader)
  (env : websocket.ConnEnv) (r : Request) (s : St) :
  websocket.CheckOrigin u r = false →
  ∃ e w, @websocket.Upgrade R u env r s
         = (Val (inr e), MkSt w (logs s) (events s))
         ∧ same_conn (rw s) w.
Proof.
  intros Hcheck. unfold websocket.Upgrade. rewrite Hcheck. cbn [negb].
  repeat match goal with
         | |- context [if negb ?b then _ else _] => destruct b; cbn [negb]
         end;
    match goal with
    | |- context [websocket.returnError ?st ?reason ?s] =>
        destruct (@returnError_spec R st reason s) as (w & -> & ?); eauto
    end.
Qed.

(** Then the handler of [/shell/ws] logs the failure and returns: no
    session event, no reply past the writer. *)
Lemma handleShellWS_rejected (u : websocket.Upgrader) (env : shell.SessionEnv)
  (r : Request) (s : St) :
  websocket.CheckOrigin u r = false →
  ∃ e w,
    shell.handleShellWS ctx logger u env r s =
    (Ret tt,
     MkSt w
       (logs s ++
        [ slog.emit (slog.With logger "remote_addr" (RemoteAddr r))
            slog.LevelInfo "Handling connection" [];
          slog.emit (slog.With logger "remote_addr" (RemoteAddr r))
            slog.LevelError "Error upgrading connection"
            [("error", Go.Error e)] ])
       (events s))
    ∧ same_conn (rw s) w.
Proof.
  intros Hcheck. unfold shell.handleShellWS.
  unfold bind at 1. unfold log at 1, modify at 1. cbn [fst snd].
  unfold bind at 1.
  match goal with
  | |- context [websocket.Upgrade u (shell.conn env) r ?s0] =>
      destruct (@Upgrade_origin_rejected unit u (shell.conn env) r s0 Hcheck)
        as (e & w & -> & Hsame)
  end.
  exists e, w. split; [|exact Hsame].
  cbn. now rewrite <- app_assoc.
Qed.

End ShellWS.

Section ShellWSOutcomes.
Import GoString Go http handler inv.

Variable ctx : Context.
Variable logger : slog.Logger.

(** When [Upgrade] returns a connection, the origin check has passed,
    the connection has been taken over and the [101] reply is on it; it
    has not been closed. *)
Lemma Upgrade_success {R} (u : websocket.Upgrader) (env : websocket.ConnEnv)
  (r : Request) (s s1 : St) (ws : websocket.Conn) :
  @websocket.Upgrade R u env r s = (Val (inl ws), s1) →
  websocket.CheckOrigin u r = true
  ∧ hijacked (rw s1) = true
  ∧ wire (rw s1)
    = wire (rw s) ++ [MkSwitching (Header_Get (RHeader r) "Sec-Websocket-Key") ∅]
  ∧ connClosed (rw s1) = connClosed (rw s)
  ∧ logs s1 = logs s
  ∧ events s1 = events s.
Proof.
  unfold websocket.Upgrade.
  repeat match goal with
         | |- context [if negb ?b then _ else _] =>
             destruct b eqn:?; cbn [negb]
         end;
    try (match goal with
         | |- context [websocket.returnError ?st ?reason ?s] =>
             destruct (@returnError_spec R st reason s) as (w & -> & ?)
         end; discriminate).
  destruct (websocket.hijackErr env).
  { match goal with
    | |- context [websocket.returnError ?st ?reason ?s] =>
        destruct (@returnError_spec R st reason s) as (w & -> & ?)
    end. discriminate. }
  destruct (websocket.buffered env); [discriminate|].
  destruct (websocket.writeErr env); [discriminate|].
  intros [= <- <-]. cbn. repeat split.
Qed.

(** The path on which [shell.NewHandler] fails: the handler logs and
    returns, and calls [Close] on nothing itself. *)
Lemma handleShellWS_NewHandler_error (u : websocket.Upgrader)
  (env : shell.SessionEnv) (r : Request) (s s1 : St)
  (ws : websocket.Conn) (err : error) :
  @websocket.Upgrade unit u (shell.conn env) r (handling logger s r)
  = (Val (inl ws), s1) →
  shell.newHandler env = Returns (Some err) →
  shell.handleShellWS ctx logger u env r s =
  (Ret tt,
   MkSt (rw s1)
     (logs s1 ++
      [slog.emit (remote logger r) slog.LevelError "Failed to create shell handler"
         [("error", Go.Error err)]])
     (events s1 ++ [EvUpgraded; EvNewHandlerFailed ctx])).
Proof.
  intros Hup Hnew. unfold shell.handleShellWS.
  unfold bind at 1. unfold log at 1, modify at 1. cbn [fst snd].
  unfold bind at 1. fold (remote logger r). fold (handling logger s r). rewrite Hup.
  rewrite Hnew. cbn. now rewrite <- app_assoc.
Qed.

(** The paths on which [shell.NewHandler] returns a handler and
    [h.Wait()] comes back, with or without an error or by a panic:
    [h.Close()] is called once. *)
Lemma handleShellWS_closes_once (u : websocket.Upgrader)
  (env : shell.SessionEnv) (r : Request) (s s1 : St) (ws : websocket.Conn) :
  @websocket.Upgrade unit u (shell.conn env) r (handling logger s r)
  = (Val (inl ws), s1) →
  shell.newHandler env = Returns None →
  shell.wait env ≠ Blocks →
  events (shell.handleShellWS ctx logger u env r s).2
  = events s1 ++ [EvUpgraded; EvNewHandler ctx; EvWait; EvHandlerClose].
Proof.
  intros Hup Hnew Hwait. unfold shell.handleShellWS.
  unfold bind at 1. unfold log at 1, modify at 1. cbn [fst snd].
  unfold bind at 1. fold (remote logger r). fold (handling logger s r). rewrite Hup.
  rewrite Hnew.
  destruct (shell.wait env) as [[e|]|v|] eqn:Hw; [| | |congruence];
    destruct (shell.close env) as [c|v'|]; cbn;
    now rewrite <- ?app_assoc.
Qed.

End ShellWSOutcomes.

(** ** Invariants of the gateway handler *)

Section GatewayInv.
Import GoString Go http handler inv.

Variable web_Handler : Request -> M ResponseWriter unit unit.
Variable cspPolicy : string.
Variable ctx : Context.
Variable logger : slog.Logger.

Variable J : ResponseWriter -> Prop.
Variable I : St -> Prop.
Hypothesis HJ : writer_inv J.
Hypothesis HI : follows J I.
Hypothesis Hweb : ∀ r w, J w → J (web_Handler r w).2.

Lemma pres_on_writer (f : ResponseWriter -> ResponseWriter) :
  (∀ w, J w → J (f w)) → pres I (on_writer f).
Proof. intros Hf. apply pres_modify. intros s Hs. apply HI; auto. Qed.

Lemma pres_on_header (f : Header -> Header) :
  keeps_security f → pres I (on_header f).
Proof. intros Hf. apply pres_on_writer. intros w. now apply J_keep. Qed.

Lemma pres_log (l : slog.Logger) (lv : slog.Level) (m : string)
  (extra : list (string * string)) : pres I (log l lv m extra).
Proof. apply pres_modify. intros s Hs. apply HI; auto. Qed.

Lemma keeps_security_Set (key value : string) :
  key ≠ "X-Frame-Options" → key ≠ "Content-Security-Policy" →
  keeps_security (Header_Set key value).
Proof.
  intros H1 H2 h. unfold Header_Set. now rewrite !lookup_insert_ne.
Qed.

Lemma keeps_security_Add (key value : string) :
  key ≠ "X-Frame-Options" → key ≠ "Content-Security-Policy" →
  keeps_security (Header_Add key value).
Proof.
  intros H1 H2 h. unfold Header_Add. now rewrite !lookup_insert_ne.
Qed.

Lemma keeps_security_id : keeps_security (fun h => h).
Proof. now intros h. Qed.

Lemma keeps_security_compose (f g : Header -> Header) :
  keeps_security f → keeps_security g → keeps_security (fun h => g (f h)).
Proof.
  intros Hf Hg h. destruct (Hf h) as [<- <-]. apply Hg.
Qed.

Lemma J_Error (msg : string) (code : Z) (w : ResponseWriter) :
  J w → J (Error msg code w).
Proof.
  intros Hw. unfold Error.
  apply J_Write, J_WriteHeader; try exact HJ.
  apply J_keep; [exact HJ | now apply keeps_security_Set |].
  apply J_keep; [exact HJ | now apply keeps_security_Set | exact Hw].
Qed.

Lemma pres_NotFound (r : Request) : pres I (mux.NotFound r).
Proof. apply pres_on_writer. intros w. apply J_Error. Qed.

Lemma pres_Redirect (url : string) (code : Z) (r : Request) :
  pres I (mux.Redirect url code r).
Proof.
  unfold mux.Redirect.
  apply pres_bind; [apply pres_get|]. intros s.
  apply pres_bind; [apply pres_on_header; now apply keeps_security_Set|]. intros _.
  apply pres_bind.
  { destruct (_ && _); [apply pres_on_header; now apply keeps_security_Set | apply pres_ret]. }
  intros _.
  apply pres_bind; [apply pres_on_writer; intros w; now apply J_WriteHeader|]. intros _.
  destruct (_ && _); [apply pres_on_writer; intros w; now apply J_Write | apply pres_ret].
Qed.

Lemma pres_with_writer (r : Request) : pres I (with_writer web_Handler r).
Proof.
  intros s Hs. unfold with_writer.
  pose proof (Hweb r (rw s)) as Hw.
  destruct (web_Handler r (rw s)) as [res w]. cbn in *.
  apply HI; auto.
Qed.

Lemma pres_StripPrefix (prefix : string) (h : Handler) (r : Request) :
  (∀ r', pres I (h r')) → pres I (mux.StripPrefix prefix h r).
Proof.
  intros Hh. unfold mux.StripPrefix.
  destruct (String.eqb prefix EmptyString); [apply Hh|]. cbv zeta.
  destruct (_ && _); [apply pres_call, Hh | apply pres_NotFound].
Qed.

Lemma best_match_in (routes : list (string * Handler)) (path : string)
  (best : option (string * Handler)) (p : string) (h : Handler) :
  mux.best_match routes path best = Some (p, h) →
  (p, h) ∈ routes ∨ best = Some (p, h).
Proof.
  revert best. induction routes as [|[p' h'] routes IH]; intros best; simpl.
  - auto.
  - destruct (_ && _); intros Hb; apply IH in Hb as [Hb|Hb].
    + left. apply elem_of_cons. now right.
    + injection Hb as -> ->. left. apply elem_of_cons. now left.
    + left. apply elem_of_cons. now right.
    + now right.
Qed.

Lemma pres_ServeMux (routes : list (string * Handler)) (r : Request) :
  (∀ p h, (p, h) ∈ routes → pres I (h r)) → pres I (mux.ServeMux routes r).
Proof.
  intros Hroutes. unfold mux.ServeMux.
  destruct (_ && _); [apply pres_Redirect|].
  destruct (negb _); [apply pres_Redirect|].
  destruct (mux.best_match routes _ None) as [[p h]|] eqn:Hb.
  - apply best_match_in in Hb as [Hb|Hb]; [|discriminate].
    apply pres_call. eauto.
  - apply pres_NotFound.
Qed.

Lemma keeps_security_handleActualRequest (c : cors.Cors) (r : Request) :
  keeps_security (cors.handleActualRequest c r).
Proof.
  intros h. unfold cors.handleActualRequest.
  assert (Hv := keeps_security_Add "Vary" "Origin" ltac:(discriminate) ltac:(discriminate) h).
  destruct (String.eqb _ _); [exact Hv|].
  destruct (negb _); [exact Hv|].
  destruct (negb _); [exact Hv|].
  destruct Hv as [<- <-].
  destruct (cors.exposedHeaders c), (cors.allowCredentials c);
    unfold Header_Set; now rewrite !lookup_insert_ne.
Qed.

Lemma keeps_security_handlePreflight (c : cors.Cors) (r : Request) :
  keeps_security (cors.handlePreflight c r).
Proof.
  intros h. unfold cors.handlePreflight.
  destruct (negb _); [auto|].
  set (h3 := Header_Add "Vary" "Access-Control-Request-Headers" _).
  assert (Hv : h3 !! "X-Frame-Options" = h !! "X-Frame-Options"
             ∧ h3 !! "Content-Security-Policy" = h !! "Content-Security-Policy").
  { subst h3. unfold Header_Add. now rewrite !lookup_insert_ne. }
  destruct (String.eqb _ _); [exact Hv|].
  destruct (negb _); [exact Hv|].
  destruct (negb _); [exact Hv|].
  destruct (negb _); [exact Hv|].
  destruct Hv as [<- <-].
  destruct (cors.parseHeaderList _), (cors.allowCredentials c), (0 <? cors.maxAge c);
    unfold Header_Set; now rewrite !lookup_insert_ne.
Qed.

Lemma pres_cors_Handler (c : cors.Cors) (h : Handler) (r : Request) :
  pres I (h r) → pres I (cors.Handler_ c h r).
Proof.
  intros Hh. unfold cors.Handler_.
  destruct (cors.isPreflight r).
  - apply pres_bind; [apply pres_on_header, keeps_security_handlePreflight|].
    intros _. destruct (cors.optionPassthrough c); [now apply pres_call|].
    apply pres_on_writer. intros w. now apply J_WriteHeader.
  - apply pres_bind; [apply pres_on_header, keeps_security_handleActualRequest|].
    intros _. now apply pres_call.
Qed.

(** The router keeps an invariant that the handler of [/shell/ws] keeps. *)
Lemma pres_newMux (u : websocket.Upgrader) (env : shell.SessionEnv) (r : Request) :
  pres I (shell.handleShellWS ctx logger u env r) →
  pres I (shell.newMux web_Handler ctx logger u env r).
Proof.
  intros Hws. unfold shell.newMux. apply pres_ServeMux.
  intros p h. rewrite !elem_of_cons, elem_of_nil.
  intros [Heq|[Heq|[Heq|[]]]]; injection Heq as -> ->.
  - apply pres_with_writer.
  - apply pres_StripPrefix. intros r'. apply pres_with_writer.
  - exact Hws.
Qed.

(** So does what is inside the two header middlewares. *)
Lemma pres_inner (c : cors.Cors) (u : websocket.Upgrader)
  (env : shell.SessionEnv) (r : Request) :
  pres I (shell.handleShellWS ctx logger u env r) →
  pres I (cors.Handler_ c (shell.newMux web_Handler ctx logger u env) r).
Proof. intros Hws. now apply pres_cors_Handler, pres_newMux. Qed.

(** And the whole chain, when [I] allows the two security headers to be
    set. *)
Lemma pres_srvHandler (c : cors.Cors) (u : websocket.Upgrader)
  (env : shell.SessionEnv) (r : Request) :
  (∀ key value, pres I (on_header (Header_Set key value))) →
  pres I (shell.handleShellWS ctx logger u env r) →
  pres I (shell.srvHandler web_Handler cspPolicy ctx logger c u env r).
Proof.
  intros Hset Hws.
  unfold shell.srvHandler, shell.middlewares, middleware.Chain. cbn [foldr].
  unfold middleware.Recover. apply pres_defer_recover.
  { intros v. apply pres_bind; [apply pres_log|]. intros _.
    apply pres_on_writer. intros w. apply J_Error. }
  apply pres_call. unfold middleware.FrameOptions.
  apply pres_bind; [apply Hset|]. intros _.
  apply pres_call. unfold middleware.ContentSecurityPolicy.
  apply pres_bind; [apply Hset|]. intros _.
  apply pres_call. now apply pres_inner.
Qed.

Lemma pres_on_rw {R} (f : ResponseWriter -> ResponseWriter) :
  (∀ w, J w → J (f w)) → pres I (websocket.on_rw f : M St R unit).
Proof. intros Hf. apply pres_modify. intros s Hs. apply HI; auto. Qed.

Lemma pres_returnError {R} (status : Z) (reason : string) :
  pres I (websocket.returnError status reason : M St R _).
Proof.
  unfold websocket.returnError.
  apply pres_bind; [|intros _; apply pres_ret].
  apply pres_modify. intros s Hs. apply HI; [exact Hs|]. intros Hw.
  apply J_Error, J_keep; [exact HJ | now apply keeps_security_Set | exact Hw].
Qed.

Lemma pres_Upgrade {R} (u : websocket.Upgrader) (env : websocket.ConnEnv)
  (r : Request) : pres I (websocket.Upgrade u env r : M St R _).
Proof.
  unfold websocket.Upgrade.
  repeat match goal with
         | |- context [if negb ?b then _ else _] => destruct b; cbn [negb]
         end; try apply pres_returnError.
  destruct (websocket.hijackErr env); [apply pres_returnError|].
  apply pres_bind; [apply pres_on_rw; intros w; now apply J_hijack|]. intros _.
  destruct (websocket.buffered env).
  { apply pres_bind; [apply pres_on_rw; intros w; now apply J_Close|].
    intros _. apply pres_ret. }
  destruct (websocket.writeErr env).
  { apply pres_bind; [apply pres_on_rw; intros w; now apply J_Close|].
    intros _. apply pres_ret. }
  apply pres_bind; [apply pres_on_rw; intros w; now apply J_netWrite|].
  intros _. apply pres_ret.
Qed.

(** The handler of [/shell/ws] keeps an invariant that allows the events
    of a session with the context of [Serve]. *)
Lemma pres_handleShellWS (u : websocket.Upgrader) (env : shell.SessionEnv)
  (r : Request) :
  (∀ e, event_of_ctx ctx e → pres I (event e)) →
  pres I (shell.handleShellWS ctx logger u env r).
Proof.
  intros Hev. unfold shell.handleShellWS.
  apply pres_bind; [apply pres_log|]. intros _.
  apply pres_bind; [apply pres_Upgrade|]. intros [ws|err].
  2:{ apply pres_bind; [apply pres_log | intros _; apply pres_Return]. }
  apply pres_bind; [now apply Hev|]. intros _.
  apply pres_bind; [apply pres_extern|]. intros [err|].
  { apply pres_bind; [now apply Hev|]. intros _.
    apply pres_bind; [apply pres_log | intros _; apply pres_Return]. }
  apply pres_bind; [now apply Hev|]. intros _.
  apply pres_defer.
  { apply pres_bind; [now apply Hev|]. intros _.
    apply pres_bind; [apply pres_extern | intros _; apply pres_ret]. }
  apply pres_bind; [now apply Hev|]. intros _.
  apply pres_bind; [apply pres_extern|]. intros [err|]; apply pres_log.
Qed.

End GatewayInv.

(** ** Requests without an accepted origin *)

Section NoSession.
Import Go http handler inv.

Variable web_Handler : Request -> M ResponseWriter unit unit.
Variable cspPolicy : string.
Variable ctx : Context.
Variable logger : slog.Logger.

(** A request that does not pass the origin check gets no session from
    the gateway, whatever its path. *)
Lemma gateway_no_session (c : cors.Cors) (u : websocket.Upgrader)
  (env : shell.SessionEnv) (r : Request) :
  websocket.CheckOrigin u r = false →
  events (run (shell.srvHandler web_Handler cspPolicy ctx logger c u env)
            r newSt).2 = [].
Proof.
  intros Hcheck.
  set (I := fun s : St => events s = []).
  assert (HI : follows (fun _ => True) I) by (intros s w' l Hs _; exact Hs).
  assert (HJ : writer_inv (fun _ => True)) by (constructor; auto).
  unfold run. rewrite call_snd.
  apply (pres_srvHandler web_Handler cspPolicy ctx logger (fun _ => True) I HJ HI).
  - auto.
  - intros key value s Hs. exact Hs.
  - intros s Hs.
    destruct (handleShellWS_rejected ctx logger u env r s Hcheck)
      as (e & w & -> & _).
    exact Hs.
  - reflexivity.
Qed.

End NoSession.

(** C3, as amended.  For any request whose [Origin] header is absent, the
    origin check used by the session upgrader, which is [OriginAllowed] of
    the CORS handler over the allowed origins, fails: it compares the empty
    origin with the list.  [Upgrade] returns an error, and the handler of
    [/shell/ws] logs it and returns without a session: no session event,
    the connection not taken over.  The gateway as a whole creates no
    session for the request. *)
Theorem absent_origin_rejected
  (web_Handler : http.Request -> Go.M http.ResponseWriter unit unit)
  (cspPolicy : string) (ctx : handler.Context) (logger : slog.Logger)
  (A : netip.AddrPort) (H : string) (env : shell.SessionEnv)
  (r : http.Request) (s : handler.St) :
  http.RHeader r !! "Origin" = None →
  let u := shell.newUpgrader (shell.newCors (allowedOrigins A H)) in
  websocket.CheckOrigin u r = false
  ∧ (∃ e w,
        shell.handleShellWS ctx logger u env r s =
        (Go.Ret tt,
         handler.MkSt w
           (handler.logs s ++
            [ slog.emit (inv.remote logger r) slog.LevelInfo
                "Handling connection" [];
              slog.emit (inv.remote logger r) slog.LevelError
                "Error upgrading connection" [("error", Go.Error e)] ])
           (handler.events s))
        ∧ inv.same_conn (handler.rw s) w)
  ∧ handler.events
      (handler.run
         (shell.gatewayHandler web_Handler cspPolicy ctx logger A H env)
         r handler.newSt).2 = [].
Proof.
  intros Habsent u.
  assert (Hcheck : websocket.CheckOrigin u r = false).
  { subst u. rewrite CheckOrigin_policy. unfold http.Header_Get.
    rewrite Habsent. apply IsAllowed_empty. }
  split; [exact Hcheck|]. split.
  - now apply handleShellWS_rejected.
  - now apply gateway_no_session.
Qed.

Lemma absent_origin_rejected_witness :
  http.RHeader (sample.upgrade_request None) !! "Origin" = None
  ∧ websocket.CheckOrigin
      (shell.newUpgrader
         (shell.newCors (allowedOrigins scenario_addr "router.example")))
      (sample.upgrade_request None) = false.
Proof.
  split; [reflexivity|].
  apply (absent_origin_rejected sample.static_page sample.policy sample.ctx
           sample.logger scenario_addr "router.example" sample.good_session
           (sample.upgrade_request None) handler.newSt).
  reflexivity.
Defined.

(** C3, as stated, fails: in the scenario of the specification a
    well-formed upgrade request without an [Origin] header does not pass
    the origin check of the upgrader; the gateway answers [403] and opens
    no session. *)
Lemma absent_origin_check_fails :
  let r := sample.upgrade_request None in
  let out := handler.run (sample.gateway sample.good_session) r handler.newSt in
  http.RHeader r !! "Origin" = None
  ∧ websocket.CheckOrigin
      (shell.newUpgrader
         (shell.newCors (allowedOrigins scenario_addr "router.example"))) r
    = false
  ∧ (∃ h, http.sent (handler.rw out.2) = http.SentHTTP 403 h)
  ∧ handler.events out.2 = [].
Proof.
  cbv zeta. split; [reflexivity|]. split; [vm_compute; reflexivity|].
  split; [eexists; vm_compute; reflexivity | vm_compute; reflexivity].
Qed.




(** ** The security headers *)

Section Secured.
Import GoString Go http handler inv.

Variable policy : string.

Lemma secured_set_header (f : Header -> Header) (w : ResponseWriter) :
  keeps_security f → secured policy w → secured policy (set_header f w).
Proof.
  intros Hf [Hh|[Hx Hc]]; [now left|right].
  unfold pending, set_header in *. cbn.
  destruct (wroteHeader w) as [[code h]|]; [auto|].
  destruct (Hf (header w)) as [-> ->]. auto.
Qed.

Lemma secured_WriteHeader (code : Z) (w : ResponseWriter) :
  secured policy w → secured policy (WriteHeader code w).
Proof.
  intros Hs. unfold WriteHeader.
  destruct (hijacked w) eqn:Hh; [exact Hs|].
  destruct (wroteHeader w) as [[c h]|] eqn:Hw; [exact Hs|].
  destruct Hs as [Hs|Hs]; [congruence|]. right.
  unfold pending in *. rewrite Hw in Hs. exact Hs.
Qed.

Lemma secured_Write (b : string) (w : ResponseWriter) :
  secured policy w → secured policy (Write b w).
Proof.
  intros Hs. unfold Write.
  destruct (hijacked w) eqn:Hh; [exact Hs|].
  apply (secured_WriteHeader 200) in Hs.
  destruct (same_conn_WriteHeader 200 w) as (Hsame & _ & _).
  destruct Hs as [Hs|Hs]; [congruence | right; exact Hs].
Qed.

Lemma secured_writer_inv : writer_inv (secured policy).
Proof.
  constructor.
  - intros f w. apply secured_set_header.
  - intros code w. apply secured_WriteHeader.
  - intros b w. apply secured_Write.
  - intros w _. now left.
  - intros w [Hs|Hs]; [left | right]; exact Hs.
  - intros p w [Hs|Hs]; [left | right]; exact Hs.
Qed.

Lemma secured_follows : follows (secured policy) (fun s => secured policy (rw s)).
Proof. intros s w' l Hs Hw. cbn. auto. Qed.

(** When the connection has not been taken over, the reply that is sent
    carries both headers. *)
Lemma secured_carries (w : ResponseWriter) :
  secured policy w → hijacked w = false →
  carries (sent w) "X-Frame-Options" "DENY"
  ∧ carries (sent w) "Content-Security-Policy" policy.
Proof.
  intros [Hs|Hs] Hh; [congruence|].
  unfold sent, pending in *. rewrite Hh.
  destruct (wroteHeader w) as [[code h]|]; exact Hs.
Qed.

(** On a writer that has sent nothing, the two header middlewares leave
    both headers to be sent. *)
Lemma secured_after_headers (next : Handler) (r : Request) (s : St) :
  hijacked (rw s) = false → wroteHeader (rw s) = None →
  pres (fun s => secured policy (rw s)) (next r) →
  secured policy
    (rw (middleware.FrameOptions middleware.FrameOptionDeny
           (middleware.ContentSecurityPolicy policy next) r s).2).
Proof.
  intros Hh Hw Hnext.
  set (s2 := MkSt
               (set_header (Header_Set "Content-Security-Policy" policy)
                  (set_header (Header_Set "X-Frame-Options" "DENY") (rw s)))
               (logs s) (events s)).
  assert (Hs2 : secured policy (rw s2)).
  { right. unfold pending, s2, set_header, Header_Set. cbn. rewrite Hw.
    rewrite lookup_insert_ne by discriminate.
    now rewrite !lookup_insert_eq. }
  assert (Heq : (middleware.FrameOptions middleware.FrameOptionDeny
                   (middleware.ContentSecurityPolicy policy next) r s).2
                = (next r s2).2).
  { unfold middleware.FrameOptions, middleware.ContentSecurityPolicy,
      middleware.FrameOptionDeny, bind, call, on_header, on_writer, modify.
    cbn. fold s2. now destruct (next r s2) as [[a|x|v|] s3]. }
  rewrite Heq. now apply Hnext.
Qed.

Lemma Recover_no_panic (logger : slog.Logger) (next : Handler) (r : Request)
  (s : St) (v : PanicValue) :
  (middleware.Recover logger next r s).1 ≠ Pan v.
Proof.
  unfold middleware.Recover, defer_recover, call.
  destruct (next r s) as [[a|x|v'|] s1]; cbn; discriminate.
Qed.

End Secured.

(** C7, as amended.  With the middlewares [Recover, FrameOptions,
    ContentSecurityPolicy, CORS] composed in this order, the first one
    outermost, a panic of the router or of any inner handler does not get
    past [Recover]; both headers are set before any inner handler runs, so
    that every reply sent through the response writer carries
    [X-Frame-Options: DENY] and the content security policy, whichever
    handler ran, as long as the handler of the static assets leaves them in
    place.  (The reply of a successful upgrade is not sent through the
    response writer.) *)
Theorem chain_headers_and_recover
  (web_Handler : http.Request -> Go.M http.ResponseWriter unit unit)
  (cspPolicy : string) (ctx : handler.Context) (logger : slog.Logger)
  (A : netip.AddrPort) (H : string) (env : shell.SessionEnv) (r : http.Request) :
  (∀ r w, inv.secured cspPolicy w → inv.secured cspPolicy (web_Handler r w).2) →
  let out :=
    handler.run (shell.gatewayHandler web_Handler cspPolicy ctx logger A H env)
      r handler.newSt in
  (∀ v, out.1 ≠ Go.Pan v)
  ∧ (http.hijacked (handler.rw out.2) = false →
     http.carries (http.sent (handler.rw out.2)) "X-Frame-Options" "DENY"
     ∧ http.carries (http.sent (handler.rw out.2)) "Content-Security-Policy"
         cspPolicy).
Proof.
  intros Hweb out.
  set (c := shell.newCors (allowedOrigins A H)).
  set (u := shell.newUpgrader c).
  set (inner := cors.Handler_ c (shell.newMux web_Handler ctx logger u env)).
  set (mid := middleware.FrameOptions middleware.FrameOptionDeny
                (middleware.ContentSecurityPolicy cspPolicy inner)).
  assert (Hout : out = Go.call (middleware.Recover logger mid r) handler.newSt)
    by reflexivity.
  assert (Hinner : inv.pres (fun s => inv.secured cspPolicy (handler.rw s)) (inner r)).
  { apply (pres_inner web_Handler ctx logger (inv.secured cspPolicy));
      [apply secured_writer_inv | apply secured_follows | exact Hweb |].
    apply (pres_handleShellWS ctx logger (inv.secured cspPolicy));
      [apply secured_writer_inv | apply secured_follows |].
    intros e _ s Hs. exact Hs. }
  assert (Hmid : inv.secured cspPolicy (handler.rw (mid r handler.newSt).2)).
  { now apply secured_after_headers. }
  split.
  - intros v. rewrite Hout. unfold Go.call.
    pose proof (Recover_no_panic logger mid r handler.newSt) as Hno.
    destruct (middleware.Recover logger mid r handler.newSt) as [[a|x|v'|] s1];
      cbn in *; try discriminate. intros [= ->]. now apply (Hno v).
  - assert (Hsec : inv.secured cspPolicy (handler.rw out.2)).
    { rewrite Hout, call_snd. unfold middleware.Recover, Go.defer_recover.
      pose proof (call_snd (R := unit) (mid r) handler.newSt) as Hc.
      destruct (Go.call (mid r) handler.newSt) as [[a|x|v|] s1];
        cbn in Hc; subst s1; try exact Hmid.
      unfold Go.bind, handler.log, handler.on_writer, Go.modify. cbn.
      apply (J_Error (inv.secured cspPolicy) (secured_writer_inv cspPolicy)).
      exact Hmid. }
    intros Hh. now apply secured_carries.
Qed.

Lemma chain_headers_and_recover_witness :
  let out :=
    handler.run (sample.gateway sample.good_session)
      (http.MkRequest "GET" "/shell/index.html" ∅ "100.64.0.2:51234"
         EmptyString)
      handler.newSt in
  (∀ v, out.1 ≠ Go.Pan v)
  ∧ (http.hijacked (handler.rw out.2) = false →
     http.carries (http.sent (handler.rw out.2)) "X-Frame-Options" "DENY"
     ∧ http.carries (http.sent (handler.rw out.2)) "Content-Security-Policy"
         sample.policy).
Proof.
  apply (chain_headers_and_recover sample.static_page sample.policy sample.ctx
           sample.logger scenario_addr "router.example" sample.good_session).
  intros r w. apply secured_Write.
Defined.

(** A panic of the static handler is turned into a [500] reply that
    carries both headers, and is logged with the remote address. *)
Example panic_recovered :
  let out :=
    handler.run
      (shell.gatewayHandler sample.broken_page sample.policy sample.ctx
         sample.logger scenario_addr "router.example" sample.good_session)
      (http.MkRequest "GET" "/" ∅ "100.64.0.2:51234" EmptyString)
      handler.newSt in
  out.1 = Go.Val tt
  ∧ (∃ h, http.sent (handler.rw out.2) = http.SentHTTP 500 h
          ∧ h !! "X-Frame-Options" = Some ["DENY"]
          ∧ h !! "Content-Security-Policy" = Some [sample.policy])
  ∧ handler.logs out.2
    = [ slog.MkRecord slog.LevelError "Recovered from panic"
          [("remote_addr", "100.64.0.2:51234")] ].
Proof.
  cbv zeta. split; [vm_compute; reflexivity|]. split.
  - eexists. split; [vm_compute; reflexivity|].
    split; vm_compute; reflexivity.
  - vm_compute. reflexivity.
Qed.

(** C7, as stated, fails: in the scenario of the specification the reply
    to a well-formed upgrade request with an allowed origin is the [101]
    reply that the upgrader writes on the connection it has taken over,
    with the lines [Upgrade], [Connection] and [Sec-WebSocket-Accept] and
    neither of the two security headers. *)
Lemma upgrade_reply_lacks_security_headers :
  let r := sample.upgrade_request (Some "http://router.example:80") in
  let out := handler.run (sample.gateway sample.good_session) r handler.newSt in
  http.sent (handler.rw out.2)
  = http.SentRaw [http.MkSwitching "dGhlIHNhbXBsZSBub25jZQ==" ∅]
  ∧ ¬ http.carries (http.sent (handler.rw out.2)) "X-Frame-Options" "DENY"
  ∧ ¬ http.carries (http.sent (handler.rw out.2)) "Content-Security-Policy"
        sample.policy.
Proof.
  cbv zeta.
  assert (Hsent : http.sent (handler.rw (handler.run
                     (sample.gateway sample.good_session)
                     (sample.upgrade_request (Some "http://router.example:80"))
                     handler.newSt).2)
                  = http.SentRaw [http.MkSwitching "dGhlIHNhbXBsZSBub25jZQ==" ∅])
    by (vm_compute; reflexivity).
  rewrite Hsent. split; [reflexivity|].
  unfold http.carries.
  split; intros [_ HF]; apply Forall_cons in HF as [Hin _];
    unfold http.switching_lines in Hin;
    cbn [http.responseHeader http.challengeKey] in Hin;
    rewrite map_to_list_empty in Hin; cbn [flat_map app] in Hin;
    rewrite !elem_of_cons, elem_of_nil in Hin;
    destruct Hin as [Heq|[Heq|[Heq|[]]]]; discriminate Heq.
Qed.

(** ** The serve loop and [Serve] *)

Section ServeLoop.
Import Go http handler shell.

Variable web_Handler : Request -> M ResponseWriter unit unit.
Variable cspPolicy : string.
Variable ctx : Context.
Variable logger : slog.Logger.

Lemma srv_Serve_Incoming {R} (h : SessionEnv -> Handler) (w : World)
  (r : Request) (env : SessionEnv) (ins : list Input) (s : GSt) :
  (srv_Serve logger h w (Incoming r env :: ins) s : Res R _ * GSt)
  = srv_Serve logger h w ins
      (MkGSt (glogs s) (netClosed s) (lisClosed s) (signalNotify s)
         (srvClosed s) (done s) (served s ++ [loop.record h (r, env)])).
Proof. reflexivity. Qed.

Lemma srv_Serve_Cancelled {R} (h : SessionEnv -> Handler) (w : World)
  (c : Context) (ins : list Input) (s : GSt) :
  (srv_Serve logger h w (ContextCancelled c :: ins) s : Res R _ * GSt)
  = srv_Serve logger h w ins
      (MkGSt (glogs s) (netClosed s) (lisClosed s) (signalNotify s)
         (srvClosed s) (done s ++ [c]) (served s)).
Proof. reflexivity. Qed.

(** A signal makes the watcher close the server, and with it the
    listener, and nothing else but a log entry when [srv.Close] fails; the
    loop returns the sentinel. *)
Lemma srv_Serve_Signal {R} (h : SessionEnv -> Handler) (w : World)
  (ins : list Input) (s : GSt) :
  (srv_Serve logger h w (Signal :: ins) s : Res R _ * GSt)
  = (Val (Some ErrServerClosed),
     MkGSt
       (glogs s ++
        match srvCloseErr w with
        | Some err =>
            [slog.emit logger slog.LevelError "Failed to close server"
               [("error", Go.Error err)]]
        | None => []
        end)
       (netClosed s) (S (lisClosed s)) (signalNotify s) (S (srvClosed s))
       (done s) (served s)).
Proof.
  cbn [srv_Serve]. unfold bind, call, watcher, bind, srv_Close, modify, glog,
    modify, ret.
  destruct (srvCloseErr w); cbn; now rewrite ?app_nil_r.
Qed.

(** The serve loop returns what [loop.result] says, records the requests
    that arrive before it ends, closes the server once when a signal ends
    it, closes the listener once when it returns, and cancels no context
    by itself. *)
Lemma srv_Serve_spec {R} (h : SessionEnv -> Handler) (w : World)
  (ins : list Input) (s : GSt) :
  let out := srv_Serve logger h w ins s : Res R (option error) * GSt in
  out.1 = match loop.result ins with
          | Some e => Val (Some e)
          | None => Block
          end
  ∧ served out.2 = served s ++ map (loop.record h) (loop.conns ins)
  ∧ done out.2 = done s ++ loop.cancels ins
  ∧ srvClosed out.2 = (srvClosed s + if loop.signalled ins then 1 else 0)%nat
  ∧ netClosed out.2 = netClosed s
  ∧ lisClosed out.2
    = (lisClosed s + match loop.result ins with
                     | Some _ => 1
                     | None => 0
                     end)%nat
  ∧ signalNotify out.2 = signalNotify s.
Proof.
  revert s. induction ins as [|i ins IH]; intros s; cbv zeta.
  - cbn. rewrite !app_nil_r, !Nat.add_0_r. repeat split.
  - destruct i as [r env| |e|c].
    + rewrite srv_Serve_Incoming.
      destruct (IH (MkGSt (glogs s) (netClosed s) (lisClosed s) (signalNotify s)
                      (srvClosed s) (done s)
                      (served s ++ [loop.record h (r, env)])))
        as (H1 & H2 & H3 & H4 & H5 & H6 & H7).
      cbn [served done srvClosed netClosed lisClosed signalNotify] in *.
      rewrite H1, H2, H3, H4, H5, H6, H7.
      cbn [loop.result loop.conns loop.cancels loop.signalled map].
      rewrite <- app_assoc. repeat split.
    + rewrite srv_Serve_Signal. cbn. rewrite !app_nil_r, !Nat.add_1_r.
      repeat split.
    + cbn. rewrite !app_nil_r, Nat.add_0_r, Nat.add_1_r. repeat split.
    + rewrite srv_Serve_Cancelled.
      destruct (IH (MkGSt (glogs s) (netClosed s) (lisClosed s) (signalNotify s)
                      (srvClosed s) (done s ++ [c]) (served s)))
        as (H1 & H2 & H3 & H4 & H5 & H6 & H7).
      cbn [served done srvClosed netClosed lisClosed signalNotify] in *.
      rewrite H1, H2, H3, H4, H5, H6, H7.
      cbn [loop.result loop.conns loop.cancels loop.signalled].
      rewrite <- app_assoc. repeat split.
Qed.

(** [Serve] once start-up has succeeded: its result is decided by what the
    serve loop returns, and the state is that of the loop, with the
    listener and the network closed once [Serve] returns. *)
Lemma Serve_started (w : World) (ap : netip.AddrPort) (hn : string) (s : GSt) :
  loop.started w ap hn →
  let out := Serve web_Handler cspPolicy ctx logger w s in
  out.1 = match loop.result (inputs w) with
          | Some e => if Is_ErrServerClosed e then Ret None
                      else Ret (Some (ErrWrap "failed to serve" e))
          | None => Block
          end
  ∧ served out.2
    = served s
      ++ map (loop.record (gatewayHandler web_Handler cspPolicy ctx logger ap hn))
           (loop.conns (inputs w))
  ∧ done out.2 = done s ++ loop.cancels (inputs w)
  ∧ srvClosed out.2
    = (srvClosed s + if loop.signalled (inputs w) then 1 else 0)%nat
  ∧ signalNotify out.2 = true.
Proof.
  intros (Hopen & Hlisten & Haddr & Hhost). cbv zeta.
  remember (Serve web_Handler cspPolicy ctx logger w s) as out eqn:Hout.
  unfold Serve in Hout. rewrite Hopen, Hlisten, Haddr, Hhost in Hout.
  unfold bind at 1 in Hout. unfold glog at 1, modify at 1 in Hout.
  cbn [fst snd] in Hout.
  unfold defer at 1 in Hout. unfold bind at 1 in Hout.
  unfold glog at 1, modify at 1 in Hout. cbn [fst snd] in Hout.
  unfold defer at 1 in Hout.
  unfold MustParseAddrPort in Hout. unfold bind at 1 in Hout.
  unfold ret at 1 in Hout. cbn [fst snd] in Hout.
  unfold bind at 1 in Hout. unfold signal_Notify at 1, modify at 1 in Hout.
  cbn [fst snd] in Hout.
  unfold bind at 1 in Hout. unfold glog at 1, modify at 1 in Hout.
  cbn [fst snd] in Hout.
  unfold bind at 1 in Hout.
  match type of Hout with
  | context [srv_Serve logger ?h w (inputs w) ?s0] =>
      destruct (@srv_Serve_spec (option error) h w (inputs w) s0)
        as (H1 & H2 & H3 & H4 & H5 & H6 & H7);
      destruct (srv_Serve logger h w (inputs w) s0) as [res s1]
  end.
  cbn [fst snd served done srvClosed netClosed lisClosed signalNotify] in *.
  subst res.
  destruct (loop.result (inputs w)) as [e|].
  - destruct (Is_ErrServerClosed e); cbn in Hout; subst out; cbn;
      rewrite H2, H3, H4, H7; repeat split.
  - cbn in Hout. subst out. cbn. rewrite H2, H3, H4, H7. repeat split.
Qed.

End ServeLoop.

Lemma signalled_result (ins : list shell.Input) :
  loop.signalled ins = true → loop.result ins = Some Go.ErrServerClosed.
Proof.
  induction ins as [|[r env| |e|c] ins IH]; cbn; auto; discriminate.
Qed.

(** C6.  Once start-up has succeeded, when the serve loop returns the
    sentinel [http.ErrServerClosed] (as it does after the watcher has
    closed the server on a signal), or an error that wraps it, [Serve]
    returns [nil]; when the serve loop returns any other error, [Serve]
    returns that error wrapped as [failed to serve: ...]. *)
Theorem Serve_result
  (web_Handler : http.Request -> Go.M http.ResponseWriter unit unit)
  (cspPolicy : string) (ctx : handler.Context) (logger : slog.Logger)
  (w : shell.World) (ap : netip.AddrPort) (hn : string) (s : shell.GSt)
  (e : Go.error) :
  loop.started w ap hn →
  loop.result (shell.inputs w) = Some e →
  let out := shell.Serve web_Handler cspPolicy ctx logger w s in
  (∀ h s0,
      (shell.srv_Serve logger h w (shell.inputs w) s0
       : Go.Res (option Go.error) _ * _).1 = Go.Val (Some e))
  ∧ (Go.Is_ErrServerClosed e = true → out.1 = Go.Ret None)
  ∧ (Go.Is_ErrServerClosed e = false →
     out.1 = Go.Ret (Some (Go.ErrWrap "failed to serve" e)))
  ∧ (loop.signalled (shell.inputs w) = true →
     e = Go.ErrServerClosed ∧ out.1 = Go.Ret None
     ∧ shell.srvClosed out.2 = S (shell.srvClosed s)).
Proof.
  intros Hstart Hres out.
  destruct (Serve_started web_Handler cspPolicy ctx logger w ap hn s Hstart)
    as (H1 & _ & _ & H4 & _).
  fold out in H1, H4. rewrite Hres in H1.
  split.
  { intros h s0.
    destruct (@srv_Serve_spec logger (option Go.error) h w (shell.inputs w) s0)
      as (Hl & _).
    now rewrite Hl, Hres. }
  split; [intros He; now rewrite He in H1|].
  split; [intros He; now rewrite He in H1|].
  intros Hsig. pose proof (signalled_result _ Hsig) as Hs.
  rewrite Hs in Hres. injection Hres as <-.
  rewrite Hsig, Nat.add_1_r in H4. auto.
Qed.

Lemma Serve_result_witness :
  let w := sample.world ("router.example", None)
             [ shell.Incoming (sample.upgrade_request (Some "http://router.example:80"))
                 sample.good_session;
               shell.Signal ] in
  (sample.Serve w).1 = Go.Ret None
  ∧ shell.srvClosed (sample.Serve w).2 = 1%nat.
Proof.
  intros w.
  destruct (Serve_result sample.static_page sample.policy sample.ctx
              sample.logger w scenario_addr "router.example" shell.newGSt
              Go.ErrServerClosed) as (_ & Hnil & _ & Hsig).
  - repeat split.
  - reflexivity.
  - split; [now apply Hnil | now apply Hsig].
Defined.

Example Serve_accept_error :
  (sample.Serve
     (sample.world ("router.example", None)
        [shell.AcceptError (Go.ErrNew "use of closed network connection")])).1
  = Go.Ret (Some (Go.ErrWrap "failed to serve"
                    (Go.ErrNew "use of closed network connection"))).
Proof. vm_compute. reflexivity. Qed.

(** ** The hostname *)

(** C5, as amended.  Once the network is open and the listener bound: if
    [Hostname] returns an error, [Serve] returns it wrapped as
    [failed to get hostname: ...], without having served a request or
    registered for signals; if it returns the empty string and no error,
    [Serve] goes on to serve, every request being handled with the origin
    policy made of the two origins of the address only. *)
Theorem hostname_outcomes
  (web_Handler : http.Request -> Go.M http.ResponseWriter unit unit)
  (cspPolicy : string) (ctx : handler.Context) (logger : slog.Logger)
  (w : shell.World) (ap : netip.AddrPort) (s : shell.GSt) :
  shell.openNetwork w = None →
  shell.listen w = None →
  shell.lisAddr w = Some ap →
  let out := shell.Serve web_Handler cspPolicy ctx logger w s in
  (∀ hn err,
      shell.hostname w = (hn, Some err) →
      out.1 = Go.Ret (Some (Go.ErrWrap "failed to get hostname" err))
      ∧ shell.served out.2 = shell.served s
      ∧ shell.signalNotify out.2 = shell.signalNotify s
      ∧ shell.srvClosed out.2 = shell.srvClosed s)
  ∧ (shell.hostname w = (EmptyString, None) →
     allowedOrigins ap EmptyString
     = [ "http://" +:+ netip.Addr_String (netip.ip ap);
         "http://" +:+ netip.AddrPort_String ap ]
     ∧ shell.signalNotify out.2 = true
     ∧ shell.served out.2
       = shell.served s
         ++ map (loop.record
                   (λ env,
                      let c := shell.newCors (allowedOrigins ap EmptyString) in
                      shell.srvHandler web_Handler cspPolicy ctx logger c
                        (shell.newUpgrader c) env))
              (loop.conns (shell.inputs w))
     ∧ out.1 = match loop.result (shell.inputs w) with
               | Some e => if Go.Is_ErrServerClosed e then Go.Ret None
                           else Go.Ret (Some (Go.ErrWrap "failed to serve" e))
               | None => Go.Block
               end).
Proof.
  intros Hopen Hlisten Haddr out. split.
  - intros hn err Hhost. subst out. unfold shell.Serve.
    rewrite Hopen, Hlisten, Haddr, Hhost. cbn. repeat split.
  - intros Hhost.
    destruct (Serve_started web_Handler cspPolicy ctx logger w ap EmptyString s)
      as (H1 & H2 & _ & _ & H5); [repeat split; assumption|].
    fold out in H1, H2, H5. repeat split; assumption.
Qed.

Lemma hostname_outcomes_witness :
  let w := sample.world (EmptyString, Some (Go.ErrNew "no hostname"))
             [ shell.Incoming (sample.upgrade_request None) sample.good_session;
               shell.Signal ] in
  (sample.Serve w).1
  = Go.Ret (Some (Go.ErrWrap "failed to get hostname" (Go.ErrNew "no hostname"))).
Proof.
  intros w.
  destruct (hostname_outcomes sample.static_page sample.policy sample.ctx
              sample.logger w scenario_addr shell.newGSt eq_refl eq_refl eq_refl)
    as (Herr & _).
  now apply (Herr EmptyString (Go.ErrNew "no hostname")).
Defined.

(** C5, as stated, fails: when [Hostname] returns an error, [Serve] does
    not go on with the origins of the address: it returns the error
    wrapped, and the request that was to come is not served. *)
Lemma hostname_error_aborts :
  let w := sample.world (EmptyString, Some (Go.ErrNew "no hostname"))
             [ shell.Incoming (sample.upgrade_request None) sample.good_session;
               shell.Signal ] in
  let out := sample.Serve w in
  out.1 = Go.Ret (Some (Go.ErrWrap "failed to get hostname"
                          (Go.ErrNew "no hostname")))
  ∧ shell.served out.2 = []
  ∧ shell.signalNotify out.2 = false
  ∧ shell.srvClosed out.2 = 0%nat.
Proof. cbv zeta. repeat split; vm_compute; reflexivity. Qed.

(** ** Signals and the context of the sessions *)

Section SessionContext.
Import Go http handler inv.

Variable web_Handler : Request -> M ResponseWriter unit unit.
Variable cspPolicy : string.
Variable ctx : Context.
Variable logger : slog.Logger.

Lemma any_writer_inv : writer_inv (fun _ => True).
Proof. constructor; auto. Qed.

(** Whatever the request, every shell handler that the gateway creates,
    or fails to create, is given the context of [Serve]. *)
Lemma gateway_sessions_ctx (A : netip.AddrPort) (H : string)
  (env : shell.SessionEnv) (r : Request) :
  Forall (event_of_ctx ctx)
    (events (run (shell.gatewayHandler web_Handler cspPolicy ctx logger A H env)
               r newSt).2).
Proof.
  set (I := fun s : St => Forall (event_of_ctx ctx) (events s)).
  assert (HI : follows (fun _ => True) I) by (intros s w' l Hs _; exact Hs).
  unfold run. rewrite call_snd. unfold shell.gatewayHandler.
  apply (pres_srvHandler web_Handler cspPolicy ctx logger (fun _ => True) I
           any_writer_inv HI).
  - auto.
  - intros key value s Hs. exact Hs.
  - apply (pres_handleShellWS ctx logger (fun _ => True) I any_writer_inv HI).
    intros e He s Hs. unfold I in *. cbn.
    apply Forall_app. split; [exact Hs | now constructor].
  - constructor.
Qed.

End SessionContext.

(** C9, as amended.  Once start-up has succeeded: on an interrupt or
    terminate signal the watcher of [Serve] closes the HTTP server, which
    makes the serve loop return and [Serve] return [nil]; it does not
    cancel a context: the contexts that are cancelled when [Serve] is left
    are those that were so before and those that its caller has cancelled.
    Every session task is given the one context that [Serve] has received
    from its caller. *)
Theorem signal_closes_server_only
  (web_Handler : http.Request -> Go.M http.ResponseWriter unit unit)
  (cspPolicy : string) (ctx : handler.Context) (logger : slog.Logger)
  (w : shell.World) (ap : netip.AddrPort) (hn : string) (s : shell.GSt) :
  loop.started w ap hn →
  let out := shell.Serve web_Handler cspPolicy ctx logger w s in
  (loop.signalled (shell.inputs w) = true →
   out.1 = Go.Ret None ∧ shell.srvClosed out.2 = S (shell.srvClosed s))
  ∧ shell.done out.2 = shell.done s ++ loop.cancels (shell.inputs w)
  ∧ (∀ r res,
        (r, res) ∈ shell.served out.2 →
        (r, res) ∈ shell.served s
        ∨ Forall (inv.event_of_ctx ctx) (handler.events res.2)).
Proof.
  intros Hstart out.
  destruct (Serve_started web_Handler cspPolicy ctx logger w ap hn s Hstart)
    as (H1 & H2 & H3 & H4 & _).
  fold out in H1, H2, H3, H4.
  split; [|split].
  - intros Hsig. rewrite (signalled_result _ Hsig) in H1.
    rewrite Hsig, Nat.add_1_r in H4. auto.
  - exact H3.
  - intros r res. rewrite H2, elem_of_app.
    intros [Hold|Hnew]; [now left | right].
    apply list_elem_of_In, in_map_iff in Hnew as ([r' env] & Heq & _).
    unfold loop.record in Heq. cbn in Heq. injection Heq as <- <-.
    apply gateway_sessions_ctx.
Qed.

Lemma signal_closes_server_only_witness :
  let w := sample.world ("router.example", None)
             [ shell.Incoming (sample.upgrade_request (Some "http://router.example:80"))
                 sample.good_session;
               shell.Signal ] in
  (sample.Serve w).1 = Go.Ret None
  ∧ shell.srvClosed (sample.Serve w).2 = 1%nat
  ∧ shell.done (sample.Serve w).2 = [].
Proof.
  intros w.
  destruct (signal_closes_server_only sample.static_page sample.policy
              sample.ctx sample.logger w scenario_addr "router.example"
              shell.newGSt) as (Hsig & Hdone & _).
  - repeat split.
  - destruct (Hsig eq_refl) as [Hr Hc]. repeat split; assumption.
Defined.

(** C9, as stated, fails: a signal that arrives while a session made with
    the context of [Serve] exists closes the server and makes [Serve]
    return [nil], and the context is not cancelled. *)
Lemma signal_leaves_context :
  let r := sample.upgrade_request (Some "http://router.example:80") in
  let w := sample.world ("router.example", None)
             [shell.Incoming r sample.good_session; shell.Signal] in
  let out := sample.Serve w in
  out.1 = Go.Ret None
  ∧ shell.srvClosed out.2 = 1%nat
  ∧ (∃ res, shell.served out.2 = [(r, res)]
            ∧ handler.EvNewHandler sample.ctx ∈ handler.events res.2)
  ∧ sample.ctx ∉ shell.done out.2.
Proof.
  cbv zeta. split; [vm_compute; reflexivity|].
  split; [vm_compute; reflexivity|]. split.
  - eexists. split; [vm_compute; reflexivity|].
    cbn [snd handler.events]. rewrite !elem_of_cons. auto.
  - assert (Hd : shell.done
                   (sample.Serve
                      (sample.world ("router.example", None)
                         [ shell.Incoming
                             (sample.upgrade_request (Some "http://router.example:80"))
                             sample.good_session;
                           shell.Signal ])).2 = [])
      by (vm_compute; reflexivity).
    rewrite Hd. apply not_elem_of_nil.
Qed.

(** * Further properties *)

(** ** More on the origin policy *)

Lemma substring_length (s : string) (n m : nat) :
  (n + m <= String.length s)%nat → String.length (String.substring n m s) = m.
Proof.
  revert n m. induction s as [|c s IH]; intros [|n] [|m]; simpl; intros Hle;
    try reflexivity; try lia.
  - rewrite IH; [reflexivity | lia].
  - apply IH. lia.
  - apply IH. lia.
Qed.

Lemma substring_all (s : string) : String.substring 0 (String.length s) s = s.
Proof. induction s as [|c s IH]; simpl; [reflexivity | now rewrite IH]. Qed.

Lemma prefix_substring (s : string) (m : nat) :
  String.prefix (String.substring 0 m s) s = true.
Proof.
  revert m. induction s as [|c s IH]; intros [|m]; simpl; try reflexivity.
  destruct (ascii_dec c c) as [_|Hne]; [apply IH | contradiction].
Qed.

Lemma prefix_append (a b s : string) :
  String.prefix (a +:+ b) s = true → String.prefix a s = true.
Proof.
  revert s. induction a as [|c a IH]; intros [|d s]; simpl;
    try reflexivity; try discriminate.
  destruct (ascii_dec c d); [apply IH | discriminate].
Qed.

Lemma IndexByte_lt (s : string) (c : ascii) (i : nat) :
  GoString.IndexByte s c = Some i → (i < String.length s)%nat.
Proof.
  revert i. induction s as [|d s IH]; intros i; simpl; [discriminate|].
  destruct (Ascii.eqb d c); [intros [= <-]; lia|].
  destruct (GoString.IndexByte s c) as [j|]; [|discriminate].
  intros [= <-]. specialize (IH j eq_refl). lia.
Qed.

(** An allowed origin accepts itself, in any letter case. *)
Lemma accepts_self (a o : string) :
  GoString.ToLower o = GoString.ToLower a → policy.accepts a o = true.
Proof.
  intros Ho. unfold policy.accepts. rewrite Ho.
  set (s := GoString.ToLower a).
  destruct (GoString.IndexByte s "*") as [i|] eqn:Hi; [|apply String.eqb_refl].
  apply IndexByte_lt in Hi.
  unfold cors.wildcard_match, GoString.slice_to, GoString.slice_from,
    GoString.HasPrefix, GoString.HasSuffix.
  cbn [cors.wprefix cors.wsuffix].
  rewrite prefix_substring.
  rewrite !substring_length by lia.
  replace (String.length s - (String.length s - S i))%nat with (S i) by lia.
  rewrite String.eqb_refl.
  replace (i + (String.length s - S i) <=? String.length s)%nat with true
    by (symmetry; apply Nat.leb_le; lia).
  replace (String.length s - S i <=? String.length s)%nat with true
    by (symmetry; apply Nat.leb_le; lia).
  reflexivity.
Qed.

(** An allowed origin with the scheme [http] accepts only origins that
    begin with [http://], whatever stands after the scheme. *)
Lemma accepts_http_scheme (x o : string) :
  policy.accepts ("http://" +:+ x) o = true →
  GoString.HasPrefix (GoString.ToLower o) "http://" = true.
Proof.
  unfold policy.accepts. cbn [String.append GoString.ToLower].
  cbn [GoString.IndexByte].
  change (Ascii.eqb (GoString.lower_byte "h") "*") with false.
  change (Ascii.eqb (GoString.lower_byte "t") "*") with false.
  change (Ascii.eqb (GoString.lower_byte "p") "*") with false.
  change (Ascii.eqb (GoString.lower_byte ":") "*") with false.
  change (Ascii.eqb (GoString.lower_byte "/") "*") with false.
  cbv iota.
  change (GoString.lower_byte "h") with "h"%char.
  change (GoString.lower_byte "t") with "t"%char.
  change (GoString.lower_byte "p") with "p"%char.
  change (GoString.lower_byte ":") with ":"%char.
  change (GoString.lower_byte "/") with "/"%char.
  destruct (GoString.IndexByte (GoString.ToLower x) "*") as [j|]; cbn [fmap option_fmap option_map].
  - unfold cors.wildcard_match, GoString.slice_to, GoString.HasPrefix.
    cbn [cors.wprefix cors.wsuffix String.substring].
    intros Hm. apply andb_prop in Hm as [Hm _]. apply andb_prop in Hm as [_ Hp].
    apply (prefix_append "http://" (String.substring 0 j (GoString.ToLower x))).
    exact Hp.
  - intros Heq. apply String.eqb_eq in Heq. rewrite <- Heq.
    unfold GoString.HasPrefix. apply prefix_correct. simpl. now rewrite substring_zero.
Qed.

(** Every allowed origin has the scheme [http]. *)
Lemma allowedOrigins_http (A : netip.AddrPort) (H a : string) :
  a ∈ allowedOrigins A H → ∃ x : string, a = "http://" +:+ x.
Proof.
  unfold allowedOrigins, http_origin, http_origin_port.
  case_bool_decide; rewrite ?elem_of_app, !elem_of_cons, !elem_of_nil;
    intros Hin; repeat destruct Hin as [Hin|Hin]; try contradiction;
    subst a; eauto.
Qed.

(** A listed origin is allowed in any letter case. *)
Lemma IsAllowed_listed (allowed : list string) (a o : string) :
  a ∈ allowed → GoString.ToLower o = GoString.ToLower a →
  policy.IsAllowed allowed o = true.
Proof.
  intros Hin Hcase. unfold policy.IsAllowed. apply existsb_exists. exists a.
  split; [now apply list_elem_of_In | now apply accepts_self].
Qed.

(** X1.  Every origin that [Serve] lists is accepted by the check of the
    upgrader, in any letter case: a request whose [Origin] header is, up
    to the case of its letters, one of the allowed origins passes
    [CheckOrigin]. *)
Theorem listed_origin_accepted (A : netip.AddrPort) (H : string)
  (r : http.Request) (a o : string) (more : list string) :
  a ∈ allowedOrigins A H →
  http.RHeader r !! "Origin" = Some (o :: more) →
  GoString.ToLower o = GoString.ToLower a →
  websocket.CheckOrigin
    (shell.newUpgrader (shell.newCors (allowedOrigins A H))) r = true.
Proof.
  intros Hin Hpresent Hcase.
  rewrite CheckOrigin_policy. unfold http.Header_Get. rewrite Hpresent.
  now apply (IsAllowed_listed _ a).
Qed.

Lemma listed_origin_accepted_witness :
  websocket.CheckOrigin
    (shell.newUpgrader
       (shell.newCors (allowedOrigins scenario_addr "Router.Example")))
    (sample.upgrade_request (Some "http://router.example")) = true.
Proof.
  apply (listed_origin_accepted scenario_addr "Router.Example"
           (sample.upgrade_request (Some "http://router.example"))
           "http://Router.Example" "http://router.example" []).
  - unfold allowedOrigins, http_origin.
    rewrite bool_decide_true by discriminate.
    rewrite elem_of_app, !elem_of_cons. auto.
  - reflexivity.
  - reflexivity.
Defined.

(** X2.  An origin whose scheme is not [http] is never accepted, whatever
    the address and the hostname (a ['*'] in the hostname included): a
    request whose [Origin] header does not begin with [http://], in any
    letter case, fails the check of the upgrader, and the gateway creates
    no session for it. *)
Theorem other_scheme_rejected
  (web_Handler : http.Request -> Go.M http.ResponseWriter unit unit)
  (cspPolicy : string) (ctx : handler.Context) (logger : slog.Logger)
  (A : netip.AddrPort) (H : string) (env : shell.SessionEnv)
  (r : http.Request) :
  GoString.HasPrefix
    (GoString.ToLower (http.Header_Get (http.RHeader r) "Origin")) "http://"
  = false →
  websocket.CheckOrigin
    (shell.newUpgrader (shell.newCors (allowedOrigins A H))) r = false
  ∧ handler.events
      (handler.run
         (shell.gatewayHandler web_Handler cspPolicy ctx logger A H env)
         r handler.newSt).2 = [].
Proof.
  intros Hscheme.
  assert (Hcheck : websocket.CheckOrigin
                     (shell.newUpgrader (shell.newCors (allowedOrigins A H))) r
                   = false).
  { rewrite CheckOrigin_policy.
    destruct (policy.IsAllowed _ _) eqn:Hall; [|reflexivity].
    unfold policy.IsAllowed in Hall. apply existsb_exists in Hall.
    destruct Hall as (a & Hin & Hacc).
    apply list_elem_of_In, allowedOrigins_http in Hin.
    destruct Hin as (x & ->).
    apply accepts_http_scheme in Hacc. congruence. }
  split; [exact Hcheck | now apply gateway_no_session].
Qed.

Lemma other_scheme_rejected_witness :
  websocket.CheckOrigin
    (shell.newUpgrader
       (shell.newCors (allowedOrigins scenario_addr "router.example")))
    (sample.upgrade_request (Some "https://router.example")) = false
  ∧ handler.events
      (handler.run (sample.gateway sample.good_session)
         (sample.upgrade_request (Some "https://router.example"))
         handler.newSt).2 = [].
Proof.
  apply (other_scheme_rejected sample.static_page sample.policy sample.ctx
           sample.logger scenario_addr "router.example" sample.good_session
           (sample.upgrade_request (Some "https://router.example"))).
  vm_compute. reflexivity.
Defined.

(** ** More on [Serve] *)

Section ServeRun.
Import Go http handler shell.

Variable web_Handler : Request -> M ResponseWriter unit unit.
Variable cspPolicy : string.
Variable ctx : Context.
Variable logger : slog.Logger.

(** The serve loop adds nothing to the log but the failure of
    [srv.Close]. *)
Lemma srv_Serve_glogs {R} (h : SessionEnv -> Handler) (w : World)
  (ins : list Input) (s : GSt) :
  glogs (srv_Serve logger h w ins s : Res R (option error) * GSt).2
  = glogs s ++
    match loop.signalled ins, srvCloseErr w with
    | true, Some err =>
        [slog.emit logger slog.LevelError "Failed to close server"
           [("error", Go.Error err)]]
    | _, _ => []
    end.
Proof.
  revert s. induction ins as [|[r env| |e|c] ins IH]; intros s.
  - cbn. now rewrite app_nil_r.
  - rewrite srv_Serve_Incoming, IH. reflexivity.
  - rewrite srv_Serve_Signal. reflexivity.
  - cbn. now rewrite app_nil_r.
  - rewrite srv_Serve_Cancelled, IH. reflexivity.
Qed.

Lemma Serve_open_failed (w : World) (err : error) (s : GSt) :
  openNetwork w = Some err →
  Serve web_Handler cspPolicy ctx logger w s
  = (Ret (Some (ErrWrap "failed to open WireGuard network" err)),
     MkGSt
       (glogs s ++ [slog.emit logger slog.LevelDebug "Opening WireGuard network" []])
       (netClosed s) (lisClosed s) (signalNotify s) (srvClosed s) (done s)
       (served s)).
Proof. intros Hopen. unfold Serve. rewrite Hopen. reflexivity. Qed.

Lemma Serve_listen_failed (w : World) (err : error) (s : GSt) :
  openNetwork w = None → listen w = Some err →
  Serve web_Handler cspPolicy ctx logger w s
  = (Ret (Some (ErrWrap "failed to listen" err)),
     MkGSt
       (glogs s ++ [slog.emit logger slog.LevelDebug "Opening WireGuard network" []]
        ++ [slog.emit logger slog.LevelDebug "Binding to http port" []])
       (S (netClosed s)) (lisClosed s) (signalNotify s) (srvClosed s) (done s)
       (served s)).
Proof.
  intros Hopen Hlisten. unfold Serve. rewrite Hopen, Hlisten. cbn.
  now rewrite <- app_assoc.
Qed.

Lemma Serve_addr_panics (w : World) (s : GSt) :
  openNetwork w = None → listen w = None → lisAddr w = None →
  Serve web_Handler cspPolicy ctx logger w s
  = (Pan (PanicString "netip.ParseAddrPort: not an ip:port"),
     MkGSt
       (glogs s ++ [slog.emit logger slog.LevelDebug "Opening WireGuard network" []]
        ++ [slog.emit logger slog.LevelDebug "Binding to http port" []])
       (S (netClosed s)) (S (lisClosed s)) (signalNotify s) (srvClosed s)
       (done s) (served s)).
Proof.
  intros Hopen Hlisten Haddr. unfold Serve. rewrite Hopen, Hlisten, Haddr. cbn.
  now rewrite <- app_assoc.
Qed.

Lemma Serve_hostname_failed (w : World) (ap : netip.AddrPort) (hn : string)
  (err : error) (s : GSt) :
  openNetwork w = None → listen w = None → lisAddr w = Some ap →
  hostname w = (hn, Some err) →
  Serve web_Handler cspPolicy ctx logger w s
  = (Ret (Some (ErrWrap "failed to get hostname" err)),
     MkGSt
       (glogs s ++ [slog.emit logger slog.LevelDebug "Opening WireGuard network" []]
        ++ [slog.emit logger slog.LevelDebug "Binding to http port" []])
       (S (netClosed s)) (S (lisClosed s)) (signalNotify s) (srvClosed s)
       (done s) (served s)).
Proof.
  intros Hopen Hlisten Haddr Hhost. unfold Serve.
  rewrite Hopen, Hlisten, Haddr, Hhost. cbn. now rewrite <- app_assoc.
Qed.

(** [Serve] once start-up has succeeded: what is released and what is
    logged.  When the serve loop returns the listener is closed twice,
    once by the server and once by the [Close] that [Serve] defers. *)
Lemma Serve_started_state (w : World) (ap : netip.AddrPort) (hn : string)
  (s : GSt) :
  loop.started w ap hn →
  let out := Serve web_Handler cspPolicy ctx logger w s in
  let left := match loop.result (inputs w) with
              | Some _ => 1%nat
              | None => 0%nat
              end in
  netClosed out.2 = (netClosed s + left)%nat
  ∧ lisClosed out.2 = (lisClosed s + left + left)%nat
  ∧ glogs out.2
    = glogs s
      ++ [ slog.emit logger slog.LevelDebug "Opening WireGuard network" [];
           slog.emit logger slog.LevelDebug "Binding to http port" [];
           slog.emit logger slog.LevelInfo
             "Listening for shell connections on WireGuard network"
             [("url",
               if bool_decide (hn ≠ EmptyString)
               then "http://" +:+ hn +:+ ":"
                    +:+ GoString.utoa (netip.port ap) +:+ "/shell/"
               else "http://" +:+ netip.AddrPort_String ap +:+ "/shell/")] ]
      ++ match loop.signalled (inputs w), srvCloseErr w with
         | true, Some err =>
             [slog.emit logger slog.LevelError "Failed to close server"
                [("error", Go.Error err)]]
         | _, _ => []
         end.
Proof.
  intros (Hopen & Hlisten & Haddr & Hhost). cbv zeta.
  remember (Serve web_Handler cspPolicy ctx logger w s) as out eqn:Hout.
  unfold Serve in Hout. rewrite Hopen, Hlisten, Haddr, Hhost in Hout.
  unfold bind at 1 in Hout. unfold glog at 1, modify at 1 in Hout.
  cbn [fst snd] in Hout.
  unfold defer at 1 in Hout. unfold bind at 1 in Hout.
  unfold glog at 1, modify at 1 in Hout. cbn [fst snd] in Hout.
  unfold defer at 1 in Hout.
  unfold MustParseAddrPort in Hout. unfold bind at 1 in Hout.
  unfold ret at 1 in Hout. cbn [fst snd] in Hout.
  unfold bind at 1 in Hout. unfold signal_Notify at 1, modify at 1 in Hout.
  cbn [fst snd] in Hout.
  unfold bind at 1 in Hout. unfold glog at 1, modify at 1 in Hout.
  cbn [fst snd] in Hout.
  unfold bind at 1 in Hout.
  match type of Hout with
  | context [srv_Serve logger ?h w (inputs w) ?s0] =>
      destruct (@srv_Serve_spec logger (option error) h w (inputs w) s0)
        as (H1 & _ & _ & _ & H5 & H6 & _);
      pose proof (@srv_Serve_glogs (option error) h w (inputs w) s0) as Hg;
      destruct (srv_Serve logger h w (inputs w) s0) as [res s1]
  end.
  cbn [fst snd served done srvClosed netClosed lisClosed signalNotify glogs]
    in *.
  subst res.
  destruct (loop.result (inputs w)) as [e|].
  - destruct (Is_ErrServerClosed e); cbn in Hout; subst out; cbn;
      rewrite H5, H6, Hg, !Nat.add_1_r, <- !app_assoc; repeat split.
  - cbn in Hout. subst out. cbn.
    rewrite H5, H6, Hg, !Nat.add_0_r, <- !app_assoc. repeat split.
Qed.

End ServeRun.

(** X3.  [Serve] releases what it has acquired whenever it is left, be
    it by a return or by the panic of [MustParseAddrPort]: the [Close] of
    the network that it defers runs once exactly if [OpenNetwork]
    succeeded, and the [Close] of the listener that it defers runs once
    exactly if [Listen] succeeded too.  The HTTP server closes the
    listener as well when its serve loop returns, so that on those paths
    the listener has received two calls of [Close]; the network always
    receives one.  While [Serve] is blocked in the serve loop neither is
    closed. *)
Theorem Serve_releases
  (web_Handler : http.Request -> Go.M http.ResponseWriter unit unit)
  (cspPolicy : string) (ctx : handler.Context) (logger : slog.Logger)
  (w : shell.World) (s : shell.GSt) :
  let out := shell.Serve web_Handler cspPolicy ctx logger w s in
  let opened := match shell.openNetwork w with
                | None => 1%nat
                | Some _ => 0%nat
                end in
  let bound := match shell.openNetwork w, shell.listen w with
               | None, None => 1%nat
               | _, _ => 0%nat
               end in
  let served := match shell.openNetwork w, shell.listen w, shell.lisAddr w,
                      (shell.hostname w).2 with
                | None, None, Some _, None => 1%nat
                | _, _, _, _ => 0%nat
                end in
  match out.1 with
  | Go.Block =>
      shell.netClosed out.2 = shell.netClosed s
      ∧ shell.lisClosed out.2 = shell.lisClosed s
  | _ =>
      shell.netClosed out.2 = (shell.netClosed s + opened)%nat
      ∧ shell.lisClosed out.2 = (shell.lisClosed s + bound + served)%nat
  end.
Proof.
  cbv zeta.
  destruct (shell.openNetwork w) as [e1|] eqn:Hopen.
  { rewrite (Serve_open_failed _ _ _ _ _ _ _ Hopen). cbn. lia. }
  destruct (shell.listen w) as [e2|] eqn:Hlisten.
  { rewrite (Serve_listen_failed _ _ _ _ _ _ _ Hopen Hlisten). cbn. lia. }
  destruct (shell.lisAddr w) as [ap|] eqn:Haddr.
  2:{ rewrite (Serve_addr_panics _ _ _ _ _ _ Hopen Hlisten Haddr). cbn. lia. }
  destruct (shell.hostname w) as [hn [e3|]] eqn:Hhost.
  { rewrite (Serve_hostname_failed _ _ _ _ _ _ _ _ _ Hopen Hlisten Haddr Hhost).
    cbn. lia. }
  assert (Hstart : loop.started w ap hn) by (repeat split; assumption).
  destruct (Serve_started web_Handler cspPolicy ctx logger w ap hn s Hstart)
    as (H1 & _).
  destruct (Serve_started_state web_Handler cspPolicy ctx logger w ap hn s Hstart)
    as (Hn & Hl & _).
  rewrite H1, Hn, Hl. cbn [snd].
  destruct (loop.result (shell.inputs w)) as [e|];
    [destruct (Go.Is_ErrServerClosed e)|]; lia.
Qed.

(** After a signal, in the scenario of the specification, the listener
    has been closed by the server and by [Serve]. *)
Example Serve_closes_listener_twice :
  let out := sample.Serve (sample.world ("router.example", None) [shell.Signal]) in
  out.1 = Go.Ret None
  ∧ shell.netClosed out.2 = 1%nat
  ∧ shell.lisClosed out.2 = 2%nat.
Proof. cbv zeta. repeat split; vm_compute; reflexivity. Qed.

(** X4.  [Serve] returns [nil] exactly when start-up has succeeded in
    full (the network opens, the listener is bound, its address parses,
    [Hostname] gives no error) and the serve loop ends with
    [http.ErrServerClosed] or an error that wraps it. *)
Theorem Serve_nil_iff
  (web_Handler : http.Request -> Go.M http.ResponseWriter unit unit)
  (cspPolicy : string) (ctx : handler.Context) (logger : slog.Logger)
  (w : shell.World) (s : shell.GSt) :
  (shell.Serve web_Handler cspPolicy ctx logger w s).1 = Go.Ret None
  ↔ (∃ ap hn e,
        loop.started w ap hn
        ∧ loop.result (shell.inputs w) = Some e
        ∧ Go.Is_ErrServerClosed e = true).
Proof.
  split.
  - intros Hnil.
    destruct (shell.openNetwork w) as [e1|] eqn:Hopen.
    { rewrite (Serve_open_failed _ _ _ _ _ _ _ Hopen) in Hnil. discriminate. }
    destruct (shell.listen w) as [e2|] eqn:Hlisten.
    { rewrite (Serve_listen_failed _ _ _ _ _ _ _ Hopen Hlisten) in Hnil.
      discriminate. }
    destruct (shell.lisAddr w) as [ap|] eqn:Haddr.
    2:{ rewrite (Serve_addr_panics _ _ _ _ _ _ Hopen Hlisten Haddr) in Hnil.
        discriminate. }
    destruct (shell.hostname w) as [hn [e3|]] eqn:Hhost.
    { rewrite (Serve_hostname_failed _ _ _ _ _ _ _ _ _ Hopen Hlisten Haddr Hhost)
        in Hnil. discriminate. }
    assert (Hstart : loop.started w ap hn) by (repeat split; assumption).
    destruct (Serve_started web_Handler cspPolicy ctx logger w ap hn s Hstart)
      as (H1 & _).
    rewrite H1 in Hnil.
    destruct (loop.result (shell.inputs w)) as [e|]; [|discriminate].
    destruct (Go.Is_ErrServerClosed e) eqn:He; [|discriminate].
    exists ap, hn, e. auto.
  - intros (ap & hn & e & Hstart & Hres & He).
    destruct (Serve_started web_Handler cspPolicy ctx logger w ap hn s Hstart)
      as (H1 & _).
    now rewrite H1, Hres, He.
Qed.



(** X6.  Every error that [Serve] returns wraps its cause under the
    message of the step that failed: the error of [OpenNetwork], of
    [Listen], of [Hostname], or the error of the serve loop when that is
    not [http.ErrServerClosed]; [Serve] returns no error of its own and
    none unwrapped. *)
Theorem Serve_error_cause
  (web_Handler : http.Request -> Go.M http.ResponseWriter unit unit)
  (cspPolicy : string) (ctx : handler.Context) (logger : slog.Logger)
  (w : shell.World) (s : shell.GSt) (e : Go.error) :
  (shell.Serve web_Handler cspPolicy ctx logger w s).1 = Go.Ret (Some e) →
  (∃ cause, shell.openNetwork w = Some cause
            ∧ e = Go.ErrWrap "failed to open WireGuard network" cause)
  ∨ (∃ cause, shell.openNetwork w = None ∧ shell.listen w = Some cause
              ∧ e = Go.ErrWrap "failed to listen" cause)
  ∨ (∃ cause, shell.openNetwork w = None ∧ shell.listen w = None
              ∧ (shell.hostname w).2 = Some cause
              ∧ e = Go.ErrWrap "failed to get hostname" cause)
  ∨ (∃ cause, (∃ ap hn, loop.started w ap hn)
              ∧ loop.result (shell.inputs w) = Some cause
              ∧ Go.Is_ErrServerClosed cause = false
              ∧ e = Go.ErrWrap "failed to serve" cause).
Proof.
  intros Hret.
  destruct (shell.openNetwork w) as [e1|] eqn:Hopen.
  { rewrite (Serve_open_failed _ _ _ _ _ _ _ Hopen) in Hret.
    injection Hret as <-. left. eauto. }
  destruct (shell.listen w) as [e2|] eqn:Hlisten.
  { rewrite (Serve_listen_failed _ _ _ _ _ _ _ Hopen Hlisten) in Hret.
    injection Hret as <-. right; left. eauto. }
  destruct (shell.lisAddr w) as [ap|] eqn:Haddr.
  2:{ rewrite (Serve_addr_panics _ _ _ _ _ _ Hopen Hlisten Haddr) in Hret.
      discriminate. }
  destruct (shell.hostname w) as [hn [e3|]] eqn:Hhost.
  { rewrite (Serve_hostname_failed _ _ _ _ _ _ _ _ _ Hopen Hlisten Haddr Hhost)
      in Hret. injection Hret as <-. right; right; left. eauto. }
  assert (Hstart : loop.started w ap hn) by (repeat split; assumption).
  destruct (Serve_started web_Handler cspPolicy ctx logger w ap hn s Hstart)
    as (H1 & _).
  rewrite H1 in Hret.
  destruct (loop.result (shell.inputs w)) as [cause|]; [|discriminate].
  destruct (Go.Is_ErrServerClosed cause) eqn:He; [discriminate|].
  injection Hret as <-. right; right; right. exists cause. eauto 10.
Qed.

Lemma Serve_error_cause_witness :
  let w := shell.MkWorld None (Some (Go.ErrNew "address already in use"))
             None (EmptyString, None) None [] in
  ∃ cause, shell.listen w = Some cause
           ∧ (sample.Serve w).1
             = Go.Ret (Some (Go.ErrWrap "failed to listen" cause)).
Proof.
  intros w.
  destruct (Serve_error_cause sample.static_page sample.policy sample.ctx
              sample.logger w shell.newGSt
              (Go.ErrWrap "failed to listen" (Go.ErrNew "address already in use")))
    as [(c & Hc & _)|[(c & _ & Hc & He)|[(c & _ & Hc & _)|(c & (ap & hn & Hs) & _)]]].
  - reflexivity.
  - discriminate Hc.
  - exists c. split; [exact Hc|]. rewrite <- He. reflexivity.
  - discriminate Hc.
  - destruct Hs as (_ & Hl & _). discriminate Hl.
Defined.

(** X7.  Unless start-up succeeds in full, [Serve] serves nothing and
    does not stay: when [OpenNetwork], [Listen] or [Hostname] fails, or
    the address of the listener does not parse, no request is served, no
    signal handler is registered, the server is not closed, no context is
    cancelled, and [Serve] neither returns [nil] nor blocks. *)
Theorem failed_startup_serves_nothing
  (web_Handler : http.Request -> Go.M http.ResponseWriter unit unit)
  (cspPolicy : string) (ctx : handler.Context) (logger : slog.Logger)
  (w : shell.World) (s : shell.GSt) :
  ¬ (∃ ap hn, loop.started w ap hn) →
  let out := shell.Serve web_Handler cspPolicy ctx logger w s in
  shell.served out.2 = shell.served s
  ∧ shell.signalNotify out.2 = shell.signalNotify s
  ∧ shell.srvClosed out.2 = shell.srvClosed s
  ∧ shell.done out.2 = shell.done s
  ∧ out.1 ≠ Go.Ret None
  ∧ out.1 ≠ Go.Block.
Proof.
  intros Hnot. cbv zeta.
  destruct (shell.openNetwork w) as [e1|] eqn:Hopen.
  { rewrite (Serve_open_failed _ _ _ _ _ _ _ Hopen). cbn.
    repeat split; discriminate. }
  destruct (shell.listen w) as [e2|] eqn:Hlisten.
  { rewrite (Serve_listen_failed _ _ _ _ _ _ _ Hopen Hlisten). cbn.
    repeat split; discriminate. }
  destruct (shell.lisAddr w) as [ap|] eqn:Haddr.
  2:{ rewrite (Serve_addr_panics _ _ _ _ _ _ Hopen Hlisten Haddr). cbn.
      repeat split; discriminate. }
  destruct (shell.hostname w) as [hn [e3|]] eqn:Hhost.
  { rewrite (Serve_hostname_failed _ _ _ _ _ _ _ _ _ Hopen Hlisten Haddr Hhost).
    cbn. repeat split; discriminate. }
  exfalso. apply Hnot. exists ap, hn. repeat split; assumption.
Qed.

Lemma failed_startup_serves_nothing_witness :
  let w := shell.MkWorld (Some (Go.ErrNew "no such device")) None
             (Some scenario_addr) ("router.example", None) None
             [ shell.Incoming
                 (sample.upgrade_request (Some "http://router.example"))
                 sample.good_session;
               shell.Signal ] in
  shell.served (sample.Serve w).2 = []
  ∧ shell.signalNotify (sample.Serve w).2 = false
  ∧ (sample.Serve w).1 ≠ Go.Ret None.
Proof.
  intros w.
  destruct (failed_startup_serves_nothing sample.static_page sample.policy
              sample.ctx sample.logger w shell.newGSt)
    as (H1 & H2 & _ & _ & H5 & _).
  - intros (ap & hn & Hopen & _). discriminate Hopen.
  - repeat split; assumption.
Defined.

(** X8.  The URL that [Serve] announces once start-up has succeeded is
    reachable under the origin policy: the record [Listening for shell
    connections on WireGuard network] is logged with the [url] made of
    one of the allowed origins (the hostname with the port of the
    listener when there is a hostname, the address with its port
    otherwise) followed by [/shell/], and a request that carries this
    origin passes the check of the upgrader. *)
Theorem announced_url_allowed
  (web_Handler : http.Request -> Go.M http.ResponseWriter unit unit)
  (cspPolicy : string) (ctx : handler.Context) (logger : slog.Logger)
  (w : shell.World) (ap : netip.AddrPort) (hn : string) (s : shell.GSt) :
  loop.started w ap hn →
  let out := shell.Serve web_Handler cspPolicy ctx logger w s in
  ∃ o : string,
    slog.emit logger slog.LevelInfo
      "Listening for shell connections on WireGuard network"
      [("url", o +:+ "/shell/")] ∈ shell.glogs out.2
    ∧ o ∈ allowedOrigins ap hn
    ∧ o = (if bool_decide (hn ≠ EmptyString)
           then "http://" +:+ hn +:+ ":" +:+ GoString.utoa (netip.port ap)
           else "http://" +:+ netip.AddrPort_String ap)
    ∧ (∀ r : http.Request,
          http.Header_Get (http.RHeader r) "Origin" = o →
          websocket.CheckOrigin
            (shell.newUpgrader (shell.newCors (allowedOrigins ap hn))) r
          = true).
Proof.
  intros Hstart out.
  destruct (Serve_started_state web_Handler cspPolicy ctx logger w ap hn s Hstart)
    as (_ & _ & Hlogs).
  fold out in Hlogs.
  set (o := if bool_decide (hn ≠ EmptyString)
            then "http://" +:+ hn +:+ ":" +:+ GoString.utoa (netip.port ap)
            else "http://" +:+ netip.AddrPort_String ap).
  assert (Hin : o ∈ allowedOrigins ap hn).
  { unfold o, allowedOrigins, http_origin, http_origin_port.
    case_bool_decide; rewrite ?elem_of_app, !elem_of_cons; auto. }
  exists o. split; [|split; [exact Hin|split; [reflexivity|]]].
  - rewrite Hlogs. apply elem_of_app. right. apply elem_of_app. left.
    rewrite !elem_of_cons. right. right. left.
    unfold o. case_bool_decide; now rewrite !append_assoc.
  - intros r Hr. rewrite CheckOrigin_policy, Hr.
    now apply (IsAllowed_listed _ o).
Qed.

Lemma announced_url_allowed_witness :
  let w := sample.world ("router.example", None) [shell.Signal] in
  slog.emit sample.logger slog.LevelInfo
    "Listening for shell connections on WireGuard network"
    [("url", "http://router.example:80/shell/")] ∈ shell.glogs (sample.Serve w).2
  ∧ websocket.CheckOrigin
      (shell.newUpgrader
         (shell.newCors (allowedOrigins scenario_addr "router.example")))
      (sample.upgrade_request (Some "http://router.example:80")) = true.
Proof.
  intros w.
  destruct (announced_url_allowed sample.static_page sample.policy sample.ctx
              sample.logger w scenario_addr "router.example" shell.newGSt)
    as (o & Hlog & _ & Ho & Hcheck).
  - repeat split.
  - rewrite bool_decide_true in Ho by discriminate.
    change ("http://" +:+ "router.example" +:+ ":"
            +:+ GoString.utoa (netip.port scenario_addr))
      with "http://router.example:80" in Ho.
    subst o. split; [exact Hlog | now apply Hcheck].
Defined.

(** ** More on the handler of [/shell/ws] *)

Section ShellWSTrace.
Import GoString Go http handler inv.

Variable ctx : Context.
Variable logger : slog.Logger.

(** [Upgrade] comes back with a connection or an error, and touches
    neither the log nor the events. *)
Lemma Upgrade_frame {R} (u : websocket.Upgrader) (env : websocket.ConnEnv)
  (r : Request) (s : St) :
  ∃ res w, @websocket.Upgrade R u env r s
           = (Val res, MkSt w (logs s) (events s)).
Proof.
  unfold websocket.Upgrade.
  repeat match goal with
         | |- context [if negb ?b then _ else _] => destruct b; cbn [negb]
         end;
    try (match goal with
         | |- context [websocket.returnError ?st ?reason ?s] =>
             destruct (@returnError_spec R st reason s) as (w & -> & ?)
         end; eauto).
  destruct (websocket.hijackErr env).
  { match goal with
    | |- context [websocket.returnError ?st ?reason ?s] =>
        destruct (@returnError_spec R st reason s) as (w & -> & ?)
    end. eauto. }
  destruct (websocket.buffered env); [cbn; eauto|].
  destruct (websocket.writeErr env); cbn; eauto.
Qed.

(** What a request must be for [Upgrade] to return a connection. *)
Lemma Upgrade_requirements {R} (u : websocket.Upgrader)
  (env : websocket.ConnEnv) (r : Request) (s s1 : St) (ws : websocket.Conn) :
  @websocket.Upgrade R u env r s = (Val (inl ws), s1) →
  Method r = "GET"
  ∧ websocket.CheckOrigin u r = true
  ∧ websocket.tokenListContainsValue (RHeader r) "Connection" "upgrade" = true
  ∧ websocket.tokenListContainsValue (RHeader r) "Upgrade" "websocket" = true
  ∧ websocket.tokenListContainsValue (RHeader r) "Sec-Websocket-Version" "13"
    = true
  ∧ websocket.isValidChallengeKey (Header_Get (RHeader r) "Sec-Websocket-Key")
    = true.
Proof.
  unfold websocket.Upgrade.
  destruct (websocket.tokenListContainsValue (RHeader r) "Connection" "upgrade")
    eqn:H1; cbn [negb];
    [|destruct (@returnError_spec R 400
                  (websocket.badHandshake
                   +:+ "'upgrade' token not found in 'Connection' header") s)
        as (w & -> & ?); discriminate].
  destruct (websocket.tokenListContainsValue (RHeader r) "Upgrade" "websocket")
    eqn:H2; cbn [negb];
    [|destruct (@returnError_spec R 400
                  (websocket.badHandshake
                   +:+ "'websocket' token not found in 'Upgrade' header") s)
        as (w & -> & ?); discriminate].
  destruct (String.eqb (Method r) "GET") eqn:H3; cbn [negb];
    [|destruct (@returnError_spec R 405
                  (websocket.badHandshake +:+ "request method is not GET") s)
        as (w & -> & ?); discriminate].
  destruct (websocket.tokenListContainsValue (RHeader r)
              "Sec-Websocket-Version" "13") eqn:H4; cbn [negb];
    [|match goal with
      | |- context [websocket.returnError ?st ?reason ?s] =>
          destruct (@returnError_spec R st reason s) as (w & -> & ?)
      end; discriminate].
  destruct (websocket.CheckOrigin u r) eqn:H5; cbn [negb];
    [|match goal with
      | |- context [websocket.returnError ?st ?reason ?s] =>
          destruct (@returnError_spec R st reason s) as (w & -> & ?)
      end; discriminate].
  destruct (websocket.isValidChallengeKey _) eqn:H6; cbn [negb];
    [|match goal with
      | |- context [websocket.returnError ?st ?reason ?s] =>
          destruct (@returnError_spec R st reason s) as (w & -> & ?)
      end; discriminate].
  intros _. apply String.eqb_eq in H3. repeat split; assumption.
Qed.

(** The handler of [/shell/ws] step by step: it logs, then calls
    [Upgrade]. *)
Lemma handleShellWS_unfold (u : websocket.Upgrader) (env : shell.SessionEnv)
  (r : Request) (s : St) :
  shell.handleShellWS ctx logger u env r s
  = match @websocket.Upgrade unit u (shell.conn env) r (handling logger s r) with
    | (Val (inr err), s1) =>
        (Ret tt,
         MkSt (rw s1)
           (logs s1 ++
            [slog.emit (remote logger r) slog.LevelError
               "Error upgrading connection" [("error", Go.Error err)]])
           (events s1))
    | (Val (inl ws), s1) =>
        let s2 := MkSt (rw s1) (logs s1) (events s1 ++ [EvUpgraded]) in
        match shell.newHandler env with
        | Returns (Some err) =>
            (Ret tt,
             MkSt (rw s1)
               (logs s1 ++
                [slog.emit (remote logger r) slog.LevelError
                   "Failed to create shell handler" [("error", Go.Error err)]])
               (events s1 ++ [EvUpgraded; EvNewHandlerFailed ctx]))
        | Returns None =>
            let waiting :=
              MkSt (rw s1) (logs s1)
                (events s1 ++ [EvUpgraded; EvNewHandler ctx; EvWait]) in
            let closing l :=
              MkSt (rw s1) (logs s1 ++ l)
                (events s1 ++ [EvUpgraded; EvNewHandler ctx; EvWait;
                               EvHandlerClose]) in
            let closed (res : Res unit unit) l :=
              match shell.close env with
              | Returns _ => (res, closing l)
              | Panics v => (Pan v, closing l)
              | Blocks => (Block, closing l)
              end in
            match shell.wait env with
            | Returns (Some err) =>
                closed (Val tt)
                  [slog.emit (remote logger r) slog.LevelError
                     "Error handling connection" [("error", Go.Error err)]]
            | Returns None =>
                closed (Val tt)
                  [slog.emit (remote logger r) slog.LevelInfo
                     "Finished handling connection" []]
            | Panics v => closed (Pan v) []
            | Blocks => (Block, waiting)
            end
        | Panics v => (Pan v, s2)
        | Blocks => (Block, s2)
        end
    | (Ret x, s1) => (Ret x, s1)
    | (Pan v, s1) => (Pan v, s1)
    | (Block, s1) => (Block, s1)
    end.
Proof.
  unfold shell.handleShellWS.
  unfold bind at 1. unfold log at 1, modify at 1. cbn [fst snd].
  unfold bind at 1. fold (remote logger r). fold (handling logger s r).
  destruct (websocket.Upgrade u (shell.conn env) r (handling logger s r))
    as [[[ws|err]|x|v|] s1]; try reflexivity.
  destruct (shell.newHandler env) as [[err|]|v|]; try reflexivity.
  - cbn. now rewrite <- app_assoc.
  - destruct (shell.wait env) as [[err|]|v|];
      destruct (shell.close env) as [c|v'|]; cbn;
      rewrite <- ?app_assoc, ?app_nil_r; reflexivity.
Qed.

End ShellWSTrace.

Ltac trace_facts :=
  cbn; rewrite ?app_nil_r;
  split; [reflexivity|]; split; [lia|];
  rewrite ?elem_of_cons, ?elem_of_nil;
  intuition (try discriminate; try congruence).

(** X9.  The handler of [/shell/ws] closes every shell handler it has
    created, once, on every way out: it calls [h.Close()] exactly when
    [shell.NewHandler] returned a handler and [h.Wait()] came back, by a
    return (with or without an error) or by a panic, and never twice.  It
    never closes the upgraded connection itself: after a successful
    [Upgrade] the connection is taken over and [Close] has not been called
    on it by the handler, whatever happens next. *)
Theorem shell_handler_closed_on_exit
  (ctx : handler.Context) (logger : slog.Logger)
  (u : websocket.Upgrader) (env : shell.SessionEnv) (r : http.Request)
  (s : handler.St) :
  let out := shell.handleShellWS ctx logger u env r s in
  ∃ t : list handler.Event,
    handler.events out.2 = handler.events s ++ t
    ∧ (inv.closes t <= 1)%nat
    ∧ (handler.EvHandlerClose ∈ t
       ↔ handler.EvNewHandler ctx ∈ t ∧ shell.wait env ≠ Go.Blocks)
    ∧ (handler.EvNewHandler ctx ∈ t
       ↔ handler.EvUpgraded ∈ t ∧ shell.newHandler env = Go.Returns None)
    ∧ (handler.EvUpgraded ∈ t →
       http.hijacked (handler.rw out.2) = true
       ∧ http.connClosed (handler.rw out.2) = http.connClosed (handler.rw s)).
Proof.
  cbv zeta. rewrite handleShellWS_unfold.
  destruct (@Upgrade_frame unit u (shell.conn env) r (inv.handling logger s r))
    as (res & w & Hup).
  destruct res as [ws|err].
  2:{ rewrite Hup. exists []. trace_facts. }
  destruct (Upgrade_success _ _ _ _ _ _ Hup) as (_ & Hhij & _ & Hclosed & _).
  rewrite Hup. cbn [handler.rw handler.logs handler.events] in *.
  destruct (shell.newHandler env) as [[err|]|v|] eqn:Hnew.
  - exists [handler.EvUpgraded; handler.EvNewHandlerFailed ctx]. trace_facts.
  - destruct (shell.wait env) as [[err|]|v|] eqn:Hwait.
    4:{ exists [handler.EvUpgraded; handler.EvNewHandler ctx; handler.EvWait].
        trace_facts. }
    all: exists [handler.EvUpgraded; handler.EvNewHandler ctx; handler.EvWait;
                 handler.EvHandlerClose];
      destruct (shell.close env) as [c|v'|]; trace_facts.
  - exists [handler.EvUpgraded]. trace_facts.
  - exists [handler.EvUpgraded]. trace_facts.
Qed.

(** X10.  Every record that the handler of [/shell/ws] logs names the
    peer: it carries the attribute [remote_addr] with the remote address
    of the request.  The first record is [Handling connection], logged
    before the upgrade is tried; a handler that returns has logged exactly
    one more record, and none logs more than two. *)
Theorem shell_handler_logs_peer
  (ctx : handler.Context) (logger : slog.Logger)
  (u : websocket.Upgrader) (env : shell.SessionEnv) (r : http.Request)
  (s : handler.St) :
  let out := shell.handleShellWS ctx logger u env r s in
  ∃ l : list slog.Record_,
    handler.logs out.2
    = handler.logs s
      ++ slog.emit (slog.With logger "remote_addr" (http.RemoteAddr r))
           slog.LevelInfo "Handling connection" [] :: l
    ∧ Forall (λ rec, ("remote_addr", http.RemoteAddr r) ∈ slog.attrs rec) l
    ∧ (length l <= 1)%nat
    ∧ (out.1 = Go.Ret tt ∨ out.1 = Go.Val tt → length l = 1%nat).
Proof.
  cbv zeta. rewrite handleShellWS_unfold.
  assert (Hattr : ∀ lv m extra,
             ("remote_addr", http.RemoteAddr r)
             ∈ slog.attrs (slog.emit (inv.remote logger r) lv m extra)).
  { intros lv m extra. unfold slog.emit, inv.remote, slog.With. cbn.
    rewrite !elem_of_app, elem_of_cons. auto. }
  destruct (@Upgrade_frame unit u (shell.conn env) r (inv.handling logger s r))
    as (res & w & Hup).
  rewrite Hup. cbn [handler.rw handler.logs handler.events inv.handling].
  fold (inv.remote logger r).
  destruct res as [ws|err].
  2:{ eexists [_]. cbn. rewrite <- app_assoc.
      split; [reflexivity|]. split; [|split; [lia|reflexivity]].
      constructor; [apply Hattr | constructor]. }
  destruct (shell.newHandler env) as [[err|]|v|].
  - eexists [_]. cbn. rewrite <- app_assoc.
    split; [reflexivity|]. split; [|split; [lia|reflexivity]].
    constructor; [apply Hattr | constructor].
  - destruct (shell.wait env) as [[err|]|v|].
    4:{ exists []. cbn. split; [reflexivity|]. split; [constructor|].
        split; [lia|]. intros [Hx|Hx]; discriminate. }
    3:{ exists []. destruct (shell.close env); cbn; rewrite app_nil_r;
          (split; [reflexivity|]); (split; [constructor|]);
          (split; [lia|]); intros [Hx|Hx]; discriminate. }
    all: eexists [_]; destruct (shell.close env); cbn; rewrite <- app_assoc;
      (split; [reflexivity|]);
      (split; [constructor; [apply Hattr | constructor]|]);
      (split; [lia|]); try reflexivity; intros [Hx|Hx]; discriminate.
  - exists []. cbn. split; [reflexivity|]. split; [constructor|].
    split; [lia|]. intros [Hx|Hx]; discriminate.
  - exists []. cbn. split; [reflexivity|]. split; [constructor|].
    split; [lia|]. intros [Hx|Hx]; discriminate.
Qed.

(** ** Routing *)

Section GatewayRoute.
Import GoString Go http handler inv.

Variable web_Handler : Request -> M ResponseWriter unit unit.
Variable cspPolicy : string.
Variable ctx : Context.
Variable logger : slog.Logger.

Variable J : ResponseWriter -> Prop.
Variable I : St -> Prop.
Hypothesis HJ : writer_inv J.
Hypothesis HI : follows J I.
Hypothesis Hweb : ∀ r w, J w → J (web_Handler r w).2.

(** The route that the router picks matches the path. *)
Lemma best_match_matches (routes : list (string * Handler)) (path : string)
  (best : option (string * Handler)) (p : string) (h : Handler) :
  mux.best_match routes path best = Some (p, h) →
  ((p, h) ∈ routes ∧ mux.pattern_matches p path = true) ∨ best = Some (p, h).
Proof.
  revert best. induction routes as [|[p' h'] routes IH]; intros best; simpl.
  - auto.
  - destruct (mux.pattern_matches p' path) eqn:Hm; cbn [andb];
      [destruct (match best with Some _ => _ | None => _ end)|];
      intros Hb; apply IH in Hb as [[Hb Hp]|Hb].
    + left. split; [apply elem_of_cons; now right | exact Hp].
    + injection Hb as -> ->. left. split; [apply elem_of_cons; now left | exact Hm].
    + left. split; [apply elem_of_cons; now right | exact Hp].
    + now right.
    + left. split; [apply elem_of_cons; now right | exact Hp].
    + now right.
Qed.

(** The router keeps an invariant that the handlers of the routes keep
    on the paths they match. *)
Lemma pres_ServeMux_route (routes : list (string * Handler)) (r : Request) :
  (∀ p h, (p, h) ∈ routes → mux.pattern_matches p (Path r) = true →
          pres I (h r)) →
  pres I (mux.ServeMux routes r).
Proof.
  intros Hroutes. unfold mux.ServeMux.
  set (path := if String.eqb (Method r) "CONNECT" then Path r
               else mux.cleanPath (Path r)).
  destruct (_ && _); [apply (pres_Redirect J I HJ HI)|].
  destruct (String.eqb path (Path r)) eqn:Hpath; cbn [negb];
    [|apply (pres_Redirect J I HJ HI)].
  apply String.eqb_eq in Hpath. rewrite Hpath.
  destruct (mux.best_match routes _ None) as [[p h]|] eqn:Hb.
  - apply best_match_matches in Hb as [[Hb Hp]|Hb]; [|discriminate].
    apply pres_call. eauto.
  - apply (pres_NotFound J I HJ HI).
Qed.

(** The chain keeps an invariant that the handler of [/shell/ws] keeps
    for the requests of that path. *)
Lemma pres_srvHandler_route (c : cors.Cors) (u : websocket.Upgrader)
  (env : shell.SessionEnv) (r : Request) :
  (∀ key value, pres I (on_header (Header_Set key value))) →
  (Path r = "/shell/ws" → pres I (shell.handleShellWS ctx logger u env r)) →
  pres I (shell.srvHandler web_Handler cspPolicy ctx logger c u env r).
Proof.
  intros Hset Hws.
  unfold shell.srvHandler, shell.middlewares, middleware.Chain. cbn [foldr].
  unfold middleware.Recover. apply pres_defer_recover.
  { intros v. apply pres_bind; [apply (pres_log J I HI)|]. intros _.
    apply (pres_on_writer J I HI). intros w. now apply J_Error. }
  apply pres_call. unfold middleware.FrameOptions.
  apply pres_bind; [apply Hset|]. intros _.
  apply pres_call. unfold middleware.ContentSecurityPolicy.
  apply pres_bind; [apply Hset|]. intros _.
  apply pres_call. apply (pres_cors_Handler J I HJ HI).
  unfold shell.newMux. apply pres_ServeMux_route.
  intros p h. rewrite !elem_of_cons, elem_of_nil.
  intros [Heq|[Heq|[Heq|[]]]] Hm; injection Heq as -> ->.
  - now apply (pres_with_writer web_Handler J I HI).
  - apply (pres_StripPrefix J I HJ HI). intros r'.
    now apply (pres_with_writer web_Handler J I HI).
  - apply Hws. unfold mux.pattern_matches in Hm.
    change (HasSuffix "/shell/ws" "/") with false in Hm.
    apply String.eqb_eq in Hm. now symmetry.
Qed.

End GatewayRoute.

(** Whether [Upgrade] returns a connection does not depend on the state
    of the response. *)
Lemma Upgrade_result_indep {R} (u : websocket.Upgrader)
  (env : websocket.ConnEnv) (r : http.Request) (s s' : handler.St) :
  (@websocket.Upgrade R u env r s).1 = (@websocket.Upgrade R u env r s').1.
Proof.
  unfold websocket.Upgrade.
  repeat match goal with
         | |- context [if negb ?b then _ else _] => destruct b; cbn [negb]
         end; try reflexivity.
  destruct (websocket.hijackErr env); [reflexivity|].
  destruct (websocket.buffered env); [reflexivity|].
  destruct (websocket.writeErr env); reflexivity.
Qed.

(** A request for which the gateway leaves a session event has gone to
    the handler of [/shell/ws] and through [Upgrade]. *)
Lemma gateway_session_needs
  (web_Handler : http.Request -> Go.M http.ResponseWriter unit unit)
  (cspPolicy : string) (ctx : handler.Context) (logger : slog.Logger)
  (A : netip.AddrPort) (H : string) (env : shell.SessionEnv)
  (r : http.Request) :
  handler.events
    (handler.run
       (shell.gatewayHandler web_Handler cspPolicy ctx logger A H env)
       r handler.newSt).2 ≠ [] →
  http.Path r = "/shell/ws"
  ∧ http.Method r = "GET"
  ∧ websocket.CheckOrigin
      (shell.newUpgrader (shell.newCors (allowedOrigins A H))) r = true
  ∧ websocket.tokenListContainsValue (http.RHeader r) "Connection" "upgrade"
    = true
  ∧ websocket.tokenListContainsValue (http.RHeader r) "Upgrade" "websocket"
    = true
  ∧ websocket.tokenListContainsValue (http.RHeader r)
      "Sec-Websocket-Version" "13" = true
  ∧ websocket.isValidChallengeKey
      (http.Header_Get (http.RHeader r) "Sec-Websocket-Key") = true.
Proof.
  intros Hev.
  set (u := shell.newUpgrader (shell.newCors (allowedOrigins A H))).
  set (I := fun s : handler.St => handler.events s = []).
  assert (HI : inv.follows (fun _ => True) I) by (intros s w' l Hs _; exact Hs).
  assert (HJ : inv.writer_inv (fun _ => True)) by (constructor; auto).
  assert (Hquiet :
            (http.Path r = "/shell/ws" →
             inv.pres I (shell.handleShellWS ctx logger u env r)) →
            False).
  { intros Hws. apply Hev.
    unfold handler.run. rewrite call_snd. unfold shell.gatewayHandler.
    apply (pres_srvHandler_route web_Handler cspPolicy ctx logger
             (fun _ => True) I HJ HI); auto.
    - intros key value s Hs. exact Hs.
    - reflexivity. }
  destruct (@Upgrade_frame unit u (shell.conn env) r handler.newSt)
    as ([ws|err] & w & Hup).
  - destruct (Upgrade_requirements _ _ _ _ _ _ Hup)
      as (Hm & Hcheck & H1 & H2 & H3 & H4).
    destruct (decide (http.Path r = "/shell/ws")) as [Hp|Hp].
    + repeat split; assumption.
    + exfalso. apply Hquiet. intros Hp'. contradiction.
  - exfalso. apply Hquiet. intros _ s Hs.
    rewrite handleShellWS_unfold.
    destruct (@Upgrade_frame unit u (shell.conn env) r (inv.handling logger s r))
      as (res & w' & Hup').
    pose proof (@Upgrade_result_indep unit u (shell.conn env) r
                  handler.newSt (inv.handling logger s r)) as Hsame.
    rewrite Hup, Hup' in Hsame. injection Hsame as <-.
    rewrite Hup'. exact Hs.
Qed.

Lemma valid_key_not_empty (k : string) :
  websocket.isValidChallengeKey k = true → k ≠ EmptyString.
Proof. intros Hk ->. discriminate Hk. Qed.



(** ** The static assets under [/shell/] *)

Section StaticMount.
Import GoString Go http handler.

Lemma HasPrefix_append (p s : string) : HasPrefix (p +:+ s) p = true.
Proof.
  unfold HasPrefix. induction p as [|c p IH]; simpl.
  - now destruct s.
  - destruct (ascii_dec c c) as [_|Hne]; [exact IH | contradiction].
Qed.

Lemma call_call {S R R' R''} (body : M S R'' unit) (s : S) :
  (call (call body : M S R' unit) : M S R unit) s = call body s.
Proof. unfold call. now destruct (body s) as [[a|x|v|] s1]. Qed.

Lemma slash_not_ws (x : string) : x +:+ "/" ≠ "ws".
Proof.
  destruct x as [|a [|b [|c x]]]; simpl; discriminate.
Qed.

(** Below [/shell/], and off [/shell/ws], the longest matching pattern
    is [/shell/]. *)
Lemma best_match_under_shell (h1 h2 h3 : Handler) (x : string) :
  x ≠ "ws" →
  mux.best_match [("/", h1); ("/shell/", h2); ("/shell/ws", h3)]
    ("/shell/" +:+ x) None
  = Some ("/shell/", h2).
Proof.
  intros Hx. unfold mux.best_match, mux.pattern_matches.
  change (HasSuffix "/" "/") with true.
  change (HasSuffix "/shell/" "/") with true.
  change (HasSuffix "/shell/ws" "/") with false.
  cbn match.
  change ("/shell/" +:+ x) with ("/" +:+ ("shell/" +:+ x)) at 1.
  rewrite (HasPrefix_append "/"), (HasPrefix_append "/shell/"). cbn [andb].
  change (String.length "/" <? String.length "/shell/")%nat with true.
  cbn match.
  replace (String.eqb "/shell/ws" ("/shell/" +:+ x)) with (String.eqb "ws" x)
    by reflexivity.
  destruct (String.eqb_spec "ws" x) as [Heq|_]; [now subst x | reflexivity].
Qed.

End StaticMount.

(** X12.  The static assets are mounted under [/shell/] with the prefix
    [/shell] stripped: for a request whose path is canonical, begins with
    [/shell/] and is not [/shell/ws], and that has no raw path (its path
    was sent in its default encoding), the router runs the handler of the
    static assets, and runs it on the path that follows [/shell]; the
    handler of [/shell/ws] is not run. *)
Theorem static_mount_strips_prefix
  (web_Handler : http.Request -> Go.M http.ResponseWriter unit unit)
  (ctx : handler.Context) (logger : slog.Logger)
  (u : websocket.Upgrader) (env : shell.SessionEnv)
  (r : http.Request) (rest : string) (s : handler.St) :
  http.Path r = "/shell/" +:+ rest →
  rest ≠ "ws" →
  mux.cleanPath (http.Path r) = http.Path r →
  http.RawPath r = EmptyString →
  handler.run (shell.newMux web_Handler ctx logger u env) r s
  = handler.run (handler.with_writer web_Handler)
      (http.MkRequest (http.Method r) ("/" +:+ rest) (http.RHeader r)
         (http.RemoteAddr r) EmptyString) s.
Proof.
  intros Hpath Hrest Hclean Hraw.
  unfold handler.run, shell.newMux, mux.ServeMux.
  rewrite Hclean.
  replace (if String.eqb (http.Method r) "CONNECT" then http.Path r
           else http.Path r) with (http.Path r)
    by now destruct (String.eqb (http.Method r) "CONNECT").
  rewrite String.eqb_refl. cbn [negb].
  rewrite Hpath.
  rewrite append_assoc.
  rewrite !best_match_under_shell by (exact Hrest || apply slash_not_ws).
  unfold mux.exactMatch.
  replace (String.eqb "/shell/" ("/shell/" +:+ (rest +:+ "/"))) with false
    by now destruct rest.
  rewrite !andb_false_r.
  rewrite call_call. unfold mux.StripPrefix.
  change (String.eqb "/shell" EmptyString) with false. cbv beta iota zeta.
  rewrite Hpath, Hraw.
  assert (Htrim : GoString.TrimPrefix ("/shell/" +:+ rest) "/shell"
                  = "/" +:+ rest).
  { unfold GoString.TrimPrefix.
    change ("/shell/" +:+ rest) with ("/shell" +:+ ("/" +:+ rest)) at 1.
    rewrite HasPrefix_append.
    unfold GoString.slice_from. cbn [String.append String.length Nat.sub].
    cbn [String.substring]. now rewrite substring_all. }
  rewrite Htrim.
  change (GoString.TrimPrefix EmptyString "/shell") with EmptyString.
  replace (String.length ("/" +:+ rest) <? String.length ("/shell/" +:+ rest))%nat
    with true
    by (symmetry; apply Nat.ltb_lt; cbn [String.append String.length]; lia).
  cbn [andb orb String.eqb]. now rewrite call_call.
Qed.

Lemma static_mount_strips_prefix_witness :
  let r := http.MkRequest "GET" "/shell/index.html" ∅ "100.64.0.2:51234"
             EmptyString in
  handler.run
    (shell.newMux sample.static_page sample.ctx sample.logger
       (shell.newUpgrader
          (shell.newCors (allowedOrigins scenario_addr "router.example")))
       sample.good_session) r handler.newSt
  = handler.run (handler.with_writer sample.static_page)
      (http.MkRequest "GET" "/index.html" ∅ "100.64.0.2:51234" EmptyString)
      handler.newSt.
Proof.
  intros r.
  apply (static_mount_strips_prefix sample.static_page sample.ctx sample.logger
           _ sample.good_session r "index.html" handler.newSt).
  - reflexivity.
  - discriminate.
  - vm_compute. reflexivity.
  - reflexivity.
Defined.

(** A request that has the prefix escaped in its raw path is not served
    from the static assets: [http.StripPrefix] answers [404]. *)
Example escaped_prefix_not_found :
  let r := http.MkRequest "GET" "/shell/x" ∅ "100.64.0.2:51234" "/%73hell/x" in
  let out := handler.run
               (shell.newMux sample.static_page sample.ctx sample.logger
                  (shell.newUpgrader
                     (shell.newCors
                        (allowedOrigins scenario_addr "router.example")))
                  sample.good_session) r handler.newSt in
  ∃ h, http.sent (handler.rw out.2) = http.SentHTTP 404 h.
Proof. cbv zeta. eexists. vm_compute. reflexivity. Qed.

(** ** A connection that is taken over *)

(** When [Upgrade] returns an error, it has written no reply past the
    writer, and it has either left the connection as it was or taken it
    over and closed it. *)
Lemma Upgrade_error_conn {R} (u : websocket.Upgrader)
  (env : websocket.ConnEnv) (r : http.Request) (s s1 : handler.St)
  (e : Go.error) :
  @websocket.Upgrade R u env r s = (Go.Val (inr e), s1) →
  http.wire (handler.rw s1) = http.wire (handler.rw s)
  ∧ (inv.same_conn (handler.rw s) (handler.rw s1)
     ∨ (http.hijacked (handler.rw s1) = true
        ∧ http.connClosed (handler.rw s1)
          = S (http.connClosed (handler.rw s)))).
Proof.
  assert (Hsame : ∀ w, inv.same_conn (handler.rw s) w →
            http.wire w = http.wire (handler.rw s)
            ∧ (inv.same_conn (handler.rw s) w
               ∨ (http.hijacked w = true
                  ∧ http.connClosed w = S (http.connClosed (handler.rw s))))).
  { intros w Hw. split; [apply Hw | now left]. }
  unfold websocket.Upgrade.
  repeat match goal with
         | |- context [if negb ?b then _ else _] => destruct b; cbn [negb]
         end;
    try (match goal with
         | |- context [websocket.returnError ?st ?reason ?s] =>
             destruct (@returnError_spec R st reason s) as (w & -> & ?)
         end; intros [= <- <-]; now apply Hsame).
  destruct (websocket.hijackErr env).
  { match goal with
    | |- context [websocket.returnError ?st ?reason ?s] =>
        destruct (@returnError_spec R st reason s) as (w & -> & ?)
    end. intros [= <- <-]. now apply Hsame. }
  destruct (websocket.buffered env).
  { intros [= <- <-]. cbn. auto. }
  destruct (websocket.writeErr env); [|discriminate].
  intros [= <- <-]. cbn. auto.
Qed.

(** X13.  A connection that the handler of [/shell/ws] has taken over is
    accounted for: either the upgrade failed after the take-over, and then
    the connection was closed once, no reply was written on it, and the
    handler returned without a session event; or the [101] reply was
    written on it, once, the session was begun, and the handler has not
    closed the connection. *)
Theorem taken_over_connection_accounted
  (ctx : handler.Context) (logger : slog.Logger)
  (u : websocket.Upgrader) (env : shell.SessionEnv) (r : http.Request)
  (s : handler.St) :
  let out := shell.handleShellWS ctx logger u env r s in
  http.hijacked (handler.rw s) = false →
  http.hijacked (handler.rw out.2) = true →
  (http.wire (handler.rw out.2) = http.wire (handler.rw s)
   ∧ http.connClosed (handler.rw out.2) = S (http.connClosed (handler.rw s))
   ∧ handler.events out.2 = handler.events s
   ∧ out.1 = Go.Ret tt)
  ∨ (http.wire (handler.rw out.2)
     = http.wire (handler.rw s)
       ++ [http.MkSwitching
             (http.Header_Get (http.RHeader r) "Sec-Websocket-Key") ∅]
     ∧ http.connClosed (handler.rw out.2) = http.connClosed (handler.rw s)
     ∧ ∃ t, handler.events out.2
            = handler.events s ++ handler.EvUpgraded :: t).
Proof.
  cbv zeta. rewrite handleShellWS_unfold. intros Hfree.
  destruct (@Upgrade_frame unit u (shell.conn env) r (inv.handling logger s r))
    as (res & w & Hup).
  destruct res as [ws|err].
  - destruct (Upgrade_success _ _ _ _ _ _ Hup) as (_ & _ & Hwire & Hclosed & _).
    rewrite Hup. cbn [handler.rw handler.logs handler.events inv.handling] in *.
    intros _. right.
    destruct (shell.newHandler env) as [[err|]|v|];
      [| destruct (shell.wait env) as [[err|]|v|];
         try destruct (shell.close env) as [c|v'|] | |];
      cbn; (split; [exact Hwire|]); (split; [exact Hclosed|]); eauto.
  - destruct (Upgrade_error_conn _ _ _ _ _ _ Hup) as (Hwire & Hconn).
    rewrite Hup. cbn [handler.rw handler.logs handler.events inv.handling] in *.
    cbn. intros Hhij. left.
    destruct Hconn as [(Hh & _)|(_ & Hclosed)]; [congruence|].
    repeat split; assumption.
Qed.

Lemma taken_over_connection_accounted_witness :
  let env := shell.MkSessionEnv
               (websocket.MkConnEnv true None false
                  (Some (Go.ErrNew "broken pipe")))
               (Go.Returns None) (Go.Returns None) (Go.Returns None) in
  let u := shell.newUpgrader
             (shell.newCors (allowedOrigins scenario_addr "router.example")) in
  let out := shell.handleShellWS sample.ctx sample.logger u env
               (sample.upgrade_request (Some "http://router.example"))
               handler.newSt in
  http.connClosed (handler.rw out.2) = 1%nat ∧ handler.events out.2 = [].
Proof.
  intros env u out.
  destruct (taken_over_connection_accounted sample.ctx sample.logger u env
              (sample.upgrade_request (Some "http://router.example"))
              handler.newSt eq_refl)
    as [(_ & Hclosed & Hev & _)|(_ & _ & t & Hev)].
  - vm_compute. reflexivity.
  - split; [exact Hclosed | exact Hev].
  - exfalso. revert Hev. vm_compute. discriminate.
Defined.

(** ** Requests that are upgraded *)

Section Accepted.
Import GoString Go http handler inv.

Variable web_Handler : Request -> M ResponseWriter unit unit.
Variable cspPolicy : string.
Variable ctx : Context.
Variable logger : slog.Logger.

(** [Upgrade] on a well-formed request with an accepted origin, on a
    connection that can be taken over. *)
Lemma Upgrade_accepts {R} (u : websocket.Upgrader) (env : websocket.ConnEnv)
  (r : Request) (s : St) :
  Method r = "GET" →
  websocket.tokenListContainsValue (RHeader r) "Connection" "upgrade" = true →
  websocket.tokenListContainsValue (RHeader r) "Upgrade" "websocket" = true →
  websocket.tokenListContainsValue (RHeader r) "Sec-Websocket-Version" "13"
  = true →
  websocket.isValidChallengeKey (Header_Get (RHeader r) "Sec-Websocket-Key")
  = true →
  websocket.CheckOrigin u r = true →
  env = websocket.MkConnEnv true None false None →
  @websocket.Upgrade R u env r s
  = (Val (inl (websocket.MkConn (Header_Get (RHeader r) "Sec-Websocket-Key"))),
     MkSt
       (websocket.netConn_Write
          (MkSwitching (Header_Get (RHeader r) "Sec-Websocket-Key") ∅)
          (websocket.hijack (rw s)))
       (logs s) (events s)).
Proof.
  intros Hm H1 H2 H3 H4 H5 ->. unfold websocket.Upgrade.
  rewrite Hm, H1, H2, H3, H4, H5. reflexivity.
Qed.

(** Once [Upgrade] has returned a connection, the handler begins the
    session and leaves the response to the connection. *)
Lemma handleShellWS_upgraded (u : websocket.Upgrader) (env : shell.SessionEnv)
  (r : Request) (s s1 : St) (ws : websocket.Conn) :
  @websocket.Upgrade unit u (shell.conn env) r (handling logger s r)
  = (Val (inl ws), s1) →
  let out := shell.handleShellWS ctx logger u env r s in
  rw out.2 = rw s1
  ∧ ∃ t, events out.2 = events s1 ++ EvUpgraded :: t
         ∧ (shell.newHandler env = Returns None →
            ∃ t', t = EvNewHandler ctx :: EvWait :: t').
Proof.
  intros Hup. cbv zeta. rewrite handleShellWS_unfold, Hup.
  destruct (shell.newHandler env) as [[err|]|v|];
    [| destruct (shell.wait env) as [[err|]|v|];
       try destruct (shell.close env) as [c|v'|] | |];
    cbn; (split; [reflexivity|]); eexists; (split; [reflexivity|]);
    intros Hnew; try discriminate Hnew; eauto.
Qed.

(** What the recovery middleware leaves of the state of the inner
    handler. *)
Lemma Recover_state (next : Handler) (r : Request) (s : St) :
  let inner := (call (next r) : M St unit unit) s in
  let out := middleware.Recover logger next r s in
  events out.2 = events inner.2 ∧ same_conn (rw inner.2) (rw out.2).
Proof.
  cbv zeta. unfold middleware.Recover, defer_recover.
  destruct (call (next r) s) as [[a|x|v|] s1]; cbn [snd];
    try (split; [reflexivity | now unfold same_conn]).
  cbn. split; [reflexivity | apply same_conn_Error].
Qed.

Lemma best_match_ws (h1 h2 h3 : Handler) :
  mux.best_match [("/", h1); ("/shell/", h2); ("/shell/ws", h3)]
    "/shell/ws" None
  = Some ("/shell/ws", h3).
Proof. vm_compute. reflexivity. Qed.

(** The router hands a [GET] of [/shell/ws] to the handler of the
    sessions. *)
Lemma newMux_ws (u : websocket.Upgrader) (env : shell.SessionEnv)
  (r : Request) (s : St) :
  Path r = "/shell/ws" → Method r = "GET" →
  shell.newMux web_Handler ctx logger u env r s
  = call (shell.handleShellWS ctx logger u env r) s.
Proof.
  intros Hp Hm. unfold shell.newMux, mux.ServeMux. rewrite Hp, Hm.
  change (String.eqb "GET" "CONNECT") with false. cbv iota.
  replace (mux.cleanPath "/shell/ws") with "/shell/ws"
    by (vm_compute; reflexivity).
  rewrite best_match_ws. unfold mux.exactMatch at 1.
  rewrite String.eqb_refl. reflexivity.
Qed.

(** The state in which the chain runs the router on a fresh response:
    the three header middlewares have set their headers. *)
Lemma srvHandler_ws (c : cors.Cors) (u : websocket.Upgrader)
  (env : shell.SessionEnv) (r : Request) :
  Path r = "/shell/ws" → Method r = "GET" →
  let s0 :=
    MkSt
      (set_header (cors.handleActualRequest c r)
         (set_header (Header_Set "Content-Security-Policy" cspPolicy)
            (set_header
               (Header_Set "X-Frame-Options" middleware.FrameOptionDeny)
               newWriter)))
      [] [] in
  let inner := shell.handleShellWS ctx logger u env r s0 in
  let out := shell.srvHandler web_Handler cspPolicy ctx logger c u env r newSt in
  events out.2 = events inner.2 ∧ same_conn (rw inner.2) (rw out.2).
Proof.
  intros Hp Hm s0 inner out.
  assert (Hpre : cors.isPreflight r = false)
    by (unfold cors.isPreflight; now rewrite Hm).
  subst out. unfold shell.srvHandler, shell.middlewares, middleware.Chain.
  cbn [foldr].
  match goal with
  | |- context [middleware.Recover logger ?next r newSt] =>
      assert (Hin : (call (next r) newSt : Res unit unit * St).2 = inner.2);
      [|destruct (Recover_state next r newSt) as (Hev & Hsame);
        rewrite Hin in Hev, Hsame; now split]
  end.
  rewrite call_snd.
  unfold middleware.FrameOptions at 1. unfold bind at 1.
  unfold on_header at 1, on_writer at 1, modify at 1.
  rewrite call_snd.
  unfold middleware.ContentSecurityPolicy at 1. unfold bind at 1.
  unfold on_header at 1, on_writer at 1, modify at 1.
  rewrite call_snd.
  unfold cors.Handler_ at 1. rewrite Hpre. unfold bind at 1.
  unfold on_header at 1, on_writer at 1, modify at 1.
  rewrite call_snd.
  rewrite (newMux_ws u env r _ Hp Hm).
  rewrite call_snd. reflexivity.
Qed.

End Accepted.

(** X14.  A well-formed upgrade with an accepted origin gets its
    session: for a [GET] of [/shell/ws] that asks for the upgrade to
    [websocket] in version 13 with a valid challenge key and an [Origin]
    that the origin policy accepts, on a connection that can be taken
    over, the gateway takes the connection over, writes the [101] reply
    with that key on it and begins the session; if [shell.NewHandler]
    returns a handler, the handler is created with the context of [Serve]
    and waited for.  The gateway does not close the connection. *)
Theorem accepted_upgrade_begins_session
  (web_Handler : http.Request -> Go.M http.ResponseWriter unit unit)
  (cspPolicy : string) (ctx : handler.Context) (logger : slog.Logger)
  (A : netip.AddrPort) (H : string) (env : shell.SessionEnv)
  (r : http.Request) :
  http.Path r = "/shell/ws" →
  http.Method r = "GET" →
  websocket.tokenListContainsValue (http.RHeader r) "Connection" "upgrade"
  = true →
  websocket.tokenListContainsValue (http.RHeader r) "Upgrade" "websocket"
  = true →
  websocket.tokenListContainsValue (http.RHeader r)
    "Sec-Websocket-Version" "13" = true →
  websocket.isValidChallengeKey
    (http.Header_Get (http.RHeader r) "Sec-Websocket-Key") = true →
  policy.IsAllowed (allowedOrigins A H)
    (http.Header_Get (http.RHeader r) "Origin") = true →
  shell.conn env = websocket.MkConnEnv true None false None →
  let out := handler.run
               (shell.gatewayHandler web_Handler cspPolicy ctx logger A H env)
               r handler.newSt in
  http.hijacked (handler.rw out.2) = true
  ∧ http.wire (handler.rw out.2)
    = [http.MkSwitching
         (http.Header_Get (http.RHeader r) "Sec-Websocket-Key") ∅]
  ∧ http.connClosed (handler.rw out.2) = 0%nat
  ∧ ∃ t, handler.events out.2 = handler.EvUpgraded :: t
         ∧ (shell.newHandler env = Go.Returns None →
            ∃ t', t = handler.EvNewHandler ctx :: handler.EvWait :: t').
Proof.
  intros Hp Hm H1 H2 H3 H4 Ho Hconn. cbv zeta.
  set (c := shell.newCors (allowedOrigins A H)).
  set (u := shell.newUpgrader c).
  assert (Hcheck : websocket.CheckOrigin u r = true)
    by (unfold u, c; now rewrite CheckOrigin_policy).
  unfold handler.run. rewrite call_snd.
  unfold shell.gatewayHandler. fold c. fold u.
  destruct (srvHandler_ws web_Handler cspPolicy ctx logger c u env r Hp Hm)
    as (Hev & -> & -> & ->).
  rewrite Hev.
  match goal with
  | |- context [shell.handleShellWS ctx logger u env r ?s0] =>
      pose proof (@Upgrade_accepts unit u (shell.conn env) r
                    (inv.handling logger s0 r) Hm H1 H2 H3 H4 Hcheck Hconn)
        as Hup;
      destruct (handleShellWS_upgraded ctx logger u env r s0 _ _ Hup)
        as (Hrw & t & Hevents & Hnew)
  end.
  rewrite Hrw, Hevents. cbn. repeat split. exists t. auto.
Qed.

Lemma accepted_upgrade_begins_session_witness :
  let r := sample.upgrade_request (Some "http://Router.Example:80") in
  let out := handler.run (sample.gateway sample.good_session) r handler.newSt in
  http.hijacked (handler.rw out.2) = true
  ∧ ∃ t, handler.events out.2 = handler.EvUpgraded :: t.
Proof.
  intros r.
  destruct (accepted_upgrade_begins_session sample.static_page sample.policy
              sample.ctx sample.logger scenario_addr "router.example"
              sample.good_session r)
    as (Hhij & _ & _ & t & Hev & _);
    try (vm_compute; reflexivity).
  split; [exact Hhij | now exists t].
Defined.

(** ** One origin predicate, on the gateway *)

Section GrantKept.
Import GoString Go http handler inv.

Variable web_Handler : Request -> M ResponseWriter unit unit.
Variable cspPolicy : string.
Variable ctx : Context.
Variable logger : slog.Logger.

Variable v : option (list string).
Hypothesis Hweb : ∀ r w, grant (web_Handler r w).2 = grant w.

Lemma grant_set_header (f : Header -> Header) (w : ResponseWriter) :
  keeps_grant f → grant (set_header f w) = grant w.
Proof.
  intros Hf. unfold grant, pending, set_header. cbn.
  destruct (wroteHeader w) as [[code h]|]; [reflexivity | apply Hf].
Qed.

Lemma grant_WriteHeader (code : Z) (w : ResponseWriter) :
  grant (WriteHeader code w) = grant w.
Proof.
  unfold grant, pending, WriteHeader.
  destruct (hijacked w); [reflexivity|].
  destruct (wroteHeader w) as [[c h]|] eqn:Hw; [now rewrite Hw | reflexivity].
Qed.

Lemma grant_Write (b : string) (w : ResponseWriter) :
  grant (Write b w) = grant w.
Proof.
  unfold Write. destruct (hijacked w); [reflexivity|].
  rewrite <- (grant_WriteHeader 200 w). reflexivity.
Qed.

Lemma keeps_grant_Set (key value : string) :
  key ≠ "Access-Control-Allow-Origin" → keeps_grant (Header_Set key value).
Proof. intros Hk h. unfold Header_Set. now rewrite lookup_insert_ne. Qed.

Lemma grant_Error (msg : string) (code : Z) (w : ResponseWriter) :
  grant (Error msg code w) = grant w.
Proof.
  unfold Error. rewrite grant_Write, grant_WriteHeader.
  rewrite !grant_set_header by (now apply keeps_grant_Set). reflexivity.
Qed.

Lemma kept_on_writer (f : ResponseWriter -> ResponseWriter) :
  (∀ w, grant (f w) = grant w) → pres (granted v) (on_writer f).
Proof. intros Hf. apply pres_modify. intros s Hs. unfold granted. cbn. now rewrite Hf. Qed.

Lemma kept_on_header (f : Header -> Header) :
  keeps_grant f → pres (granted v) (on_header f).
Proof. intros Hf. apply kept_on_writer. intros w. now apply grant_set_header. Qed.

Lemma kept_log (l : slog.Logger) (lv : slog.Level) (m : string)
  (extra : list (string * string)) : pres (granted v) (log l lv m extra).
Proof. apply pres_modify. intros s Hs. exact Hs. Qed.

Lemma kept_event (e : Event) : pres (granted v) (event e).
Proof. apply pres_modify. intros s Hs. exact Hs. Qed.

Lemma kept_NotFound (r : Request) : pres (granted v) (mux.NotFound r).
Proof. apply kept_on_writer. intros w. apply grant_Error. Qed.

Lemma kept_Redirect (url : string) (code : Z) (r : Request) :
  pres (granted v) (mux.Redirect url code r).
Proof.
  unfold mux.Redirect.
  apply pres_bind; [apply pres_get|]. intros s.
  apply pres_bind; [apply kept_on_header; now apply keeps_grant_Set|]. intros _.
  apply pres_bind.
  { destruct (_ && _); [apply kept_on_header; now apply keeps_grant_Set | apply pres_ret]. }
  intros _.
  apply pres_bind; [apply kept_on_writer; intros w; apply grant_WriteHeader|].
  intros _.
  destruct (_ && _); [apply kept_on_writer; intros w; apply grant_Write | apply pres_ret].
Qed.

Lemma kept_with_writer (r : Request) : pres (granted v) (with_writer web_Handler r).
Proof.
  intros s Hs. unfold with_writer, granted.
  pose proof (Hweb r (rw s)) as Hw.
  destruct (web_Handler r (rw s)) as [res w]. cbn in *. now rewrite Hw.
Qed.

Lemma kept_StripPrefix (prefix : string) (h : Handler) (r : Request) :
  (∀ r', pres (granted v) (h r')) → pres (granted v) (mux.StripPrefix prefix h r).
Proof.
  intros Hh. unfold mux.StripPrefix.
  destruct (String.eqb prefix EmptyString); [apply Hh|]. cbv zeta.
  destruct (_ && _); [apply pres_call, Hh | apply kept_NotFound].
Qed.

Lemma kept_ServeMux (routes : list (string * Handler)) (r : Request) :
  (∀ p h, (p, h) ∈ routes → pres (granted v) (h r)) →
  pres (granted v) (mux.ServeMux routes r).
Proof.
  intros Hroutes. unfold mux.ServeMux.
  destruct (_ && _); [apply kept_Redirect|].
  destruct (negb _); [apply kept_Redirect|].
  destruct (mux.best_match routes _ None) as [[p h]|] eqn:Hb.
  - apply best_match_in in Hb as [Hb|Hb]; [|discriminate].
    apply pres_call. eauto.
  - apply kept_NotFound.
Qed.

Lemma kept_returnError {R} (status : Z) (reason : string) :
  pres (granted v) (websocket.returnError status reason : M St R _).
Proof.
  unfold websocket.returnError.
  apply pres_bind; [|intros _; apply pres_ret].
  apply pres_modify. intros s Hs. unfold granted. cbn.
  rewrite grant_Error, grant_set_header by (now apply keeps_grant_Set).
  exact Hs.
Qed.

Lemma kept_on_rw {R} (f : ResponseWriter -> ResponseWriter) :
  (∀ w, grant (f w) = grant w) →
  pres (granted v) (websocket.on_rw f : M St R unit).
Proof. intros Hf. apply pres_modify. intros s Hs. unfold granted. cbn. now rewrite Hf. Qed.

Lemma kept_Upgrade {R} (u : websocket.Upgrader) (env : websocket.ConnEnv)
  (r : Request) : pres (granted v) (websocket.Upgrade u env r : M St R _).
Proof.
  unfold websocket.Upgrade.
  repeat match goal with
         | |- context [if negb ?b then _ else _] => destruct b; cbn [negb]
         end; try apply kept_returnError.
  destruct (websocket.hijackErr env); [apply kept_returnError|].
  apply pres_bind; [now apply kept_on_rw|]. intros _.
  destruct (websocket.buffered env).
  { apply pres_bind; [now apply kept_on_rw|]. intros _. apply pres_ret. }
  destruct (websocket.writeErr env).
  { apply pres_bind; [now apply kept_on_rw|]. intros _. apply pres_ret. }
  apply pres_bind; [now apply kept_on_rw|]. intros _. apply pres_ret.
Qed.

Lemma kept_handleShellWS (u : websocket.Upgrader) (env : shell.SessionEnv)
  (r : Request) : pres (granted v) (shell.handleShellWS ctx logger u env r).
Proof.
  unfold shell.handleShellWS.
  apply pres_bind; [apply kept_log|]. intros _.
  apply pres_bind; [apply kept_Upgrade|]. intros [ws|err].
  2:{ apply pres_bind; [apply kept_log | intros _; apply pres_Return]. }
  apply pres_bind; [apply kept_event|]. intros _.
  apply pres_bind; [apply pres_extern|]. intros [err|].
  { apply pres_bind; [apply kept_event|]. intros _.
    apply pres_bind; [apply kept_log | intros _; apply pres_Return]. }
  apply pres_bind; [apply kept_event|]. intros _.
  apply pres_defer.
  { apply pres_bind; [apply kept_event|]. intros _.
    apply pres_bind; [apply pres_extern | intros _; apply pres_ret]. }
  apply pres_bind; [apply kept_event|]. intros _.
  apply pres_bind; [apply pres_extern|]. intros [err|]; apply kept_log.
Qed.

Lemma kept_newMux (u : websocket.Upgrader) (env : shell.SessionEnv)
  (r : Request) : pres (granted v) (shell.newMux web_Handler ctx logger u env r).
Proof.
  unfold shell.newMux. apply kept_ServeMux.
  intros p h. rewrite !elem_of_cons, elem_of_nil.
  intros [Heq|[Heq|[Heq|[]]]]; injection Heq as -> ->.
  - apply kept_with_writer.
  - apply kept_StripPrefix. intros r'. apply kept_with_writer.
  - apply kept_handleShellWS.
Qed.

End GrantKept.

Section SameOriginGateway.
Import GoString Go http handler inv.

Variable web_Handler : Request -> M ResponseWriter unit unit.
Variable cspPolicy : string.
Variable ctx : Context.
Variable logger : slog.Logger.
Hypothesis Hweb : ∀ r w, grant (web_Handler r w).2 = grant w.

(** What holds of the state of the inner handler, and is kept by the
    reply to a panic, holds after the recovery middleware. *)
Lemma Recover_post (P : St -> Prop) (next : Handler) (r : Request) (s : St) :
  (∀ s1 l, P s1 → P (MkSt (Error (StatusText 500) 500 (rw s1)) l (events s1))) →
  P (call (next r) s : Res unit unit * St).2 →
  P (middleware.Recover logger next r s).2.
Proof.
  intros Hpanic Hinner. unfold middleware.Recover, defer_recover.
  destruct (call (next r) s) as [[a|x|p|] s1]; cbn [snd] in *; try exact Hinner.
  cbn. now apply Hpanic.
Qed.

(** A request with one of the methods [GET], [POST] and [HEAD] is not a
    preflight request, and its method is allowed by the CORS handler that
    [Serve] makes. *)
Lemma simple_method (allowed : list string) (r : Request) :
  Method r = "GET" ∨ Method r = "POST" ∨ Method r = "HEAD" →
  cors.isPreflight r = false
  ∧ cors.isMethodAllowed (shell.newCors allowed) (Method r) = true.
Proof.
  unfold cors.isPreflight, shell.newCors, cors.New. cbn [cors.AllowedOrigins].
  destruct (match allowed with [] => _ | _ => _ end) as [[os ws] all].
  intros [-> | [-> | ->]]; split; reflexivity.
Qed.

(** The grant of the gateway is the one that [handleActualRequest] makes
    on the headers that the two header middlewares have set. *)
Lemma gateway_grant (c : cors.Cors) (u : websocket.Upgrader)
  (env : shell.SessionEnv) (r : Request) :
  cors.isPreflight r = false →
  grant (rw (run (shell.srvHandler web_Handler cspPolicy ctx logger c u env)
               r newSt).2)
  = cors.handleActualRequest c r
      (Header_Set "Content-Security-Policy" cspPolicy
         (Header_Set "X-Frame-Options" middleware.FrameOptionDeny ∅))
    !! "Access-Control-Allow-Origin".
Proof.
  intros Hpre.
  set (v := cors.handleActualRequest c r _ !! "Access-Control-Allow-Origin").
  change (granted v
            (run (shell.srvHandler web_Handler cspPolicy ctx logger c u env)
               r newSt).2).
  unfold run. rewrite call_snd.
  unfold shell.srvHandler, shell.middlewares, middleware.Chain. cbn [foldr].
  apply Recover_post.
  { intros s1 l Hs. unfold granted in *. cbn. now rewrite grant_Error. }
  rewrite call_snd.
  unfold middleware.FrameOptions at 1. unfold bind at 1.
  unfold on_header at 1, on_writer at 1, modify at 1.
  rewrite call_snd.
  unfold middleware.ContentSecurityPolicy at 1. unfold bind at 1.
  unfold on_header at 1, on_writer at 1, modify at 1.
  rewrite call_snd.
  unfold cors.Handler_ at 1. rewrite Hpre. unfold bind at 1.
  unfold on_header at 1, on_writer at 1, modify at 1.
  rewrite call_snd.
  apply (kept_newMux web_Handler ctx logger v Hweb).
  reflexivity.
Qed.

End SameOriginGateway.



